(** * xarray_tutorial: the two notebooks and the functions they define

    The repository holds two Jupyter notebooks.  Their code cells call
    numpy, xarray and bottleneck, and the computation notebook defines five
    Python functions of its own:

      sum_minus_2, covariance_gufunc, correlation_gufunc,
      spearman_correlation_gufunc, spearman_correlation.

    This development embeds
      - the five functions, written once over an interface of the library
        operations they call ([ArrayLib]), with Python exceptions as an
        error monad;
      - two models of the numpy and bottleneck operations on arrays of any
        shape: over exact reals ([nparray], instance [numpy_real]), for the
        properties that are laws of real arithmetic, and in binary64, the
        arithmetic numpy computes in ([farray], instance
        [numpy_binary64]), for what rounding does to them;
      - the notebook documents as JSON trees, the nbformat-4 reading of
        them, and the Python syntax trees of their code cells;
      - the xarray objects the data-structures notebook builds. *)

From Corelib Require Import PrimInt63 PrimFloat.
From Corelib Require SpecFloat FloatOps FloatAxioms.
From stdpp Require Import gmap strings list fin_maps pretty.
From Stdlib Require Import Reals Lra Ascii.

Local Open Scope string_scope.
Local Open Scope list_scope.

(** ** Python exceptions as an error monad *)

Inductive exn : Type :=
| ValueError   (* operands could not be broadcast together *)
| AxisError    (* axis -1 is out of bounds for array of dimension 0 *)
| TypeError
| KeyError
| NameError.

Inductive result (A : Type) : Type :=
| Returns (a : A)
| Raises (e : exn).
Arguments Returns {A} a.
Arguments Raises {A} e.

#[global] Instance result_ret : MRet result := fun A a => Returns a.
#[global] Instance result_bind : MBind result := fun A B k m =>
  match m with
  | Returns a => k a
  | Raises e => Raises e
  end.
#[global] Instance result_fmap : FMap result := fun A B f m =>
  match m with
  | Returns a => Returns (f a)
  | Raises e => Raises e
  end.

(** ** The library operations the authored functions call

    [arr] is the library's array type.  Every operation may raise. *)

Class ArrayLib (arr : Type) : Type := {
  (* x.mean(axis=-1, keepdims=k) *)
  mean_last : arr -> bool -> result arr;
  (* x.std(axis=-1) *)
  std_last : arr -> result arr;
  (* da.sum(axis=axis) *)
  sum_axis : arr -> Z -> result arr;
  (* x - y, x * y, x / y with the library's broadcasting *)
  sub : arr -> arr -> result arr;
  mul : arr -> arr -> result arr;
  truediv : arr -> arr -> result arr;
  (* a Python int used as an operand *)
  of_int : Z -> arr;
  (* bottleneck.rankdata(x, axis=-1) *)
  rankdata : arr -> result arr
}.

(** xarray.apply_ufunc(func, x, y, input_core_dims=, dask=, output_dtypes=)
    on the library's labeled arrays [xarr]: it hands the arrays behind x
    and y to [func], the core dimensions moved to the last axis. *)
Class LabeledLib (xarr arr : Type) : Type := {
  apply_ufunc :
    (arr -> arr -> result arr) -> xarr -> xarr ->
    list (list string) -> string -> list string -> result xarr
}.

Section Authored.
Context {arr : Type} `{ArrayLib arr}.

(** def sum_minus_2(da, axis):
        return da.sum(axis=axis) - 2 *)
Definition sum_minus_2 (da : arr) (axis : Z) : result arr :=
  s ← sum_axis da axis;
  sub s (of_int 2).

(** def covariance_gufunc(x, y):
        return ((x - x.mean(axis=-1, keepdims=True))
                * (y - y.mean(axis=-1, keepdims=True))).mean(axis=-1) *)
Definition covariance_gufunc (x y : arr) : result arr :=
  xm ← mean_last x true;
  dx ← sub x xm;
  ym ← mean_last y true;
  dy ← sub y ym;
  p ← mul dx dy;
  mean_last p false.

(** def correlation_gufunc(x, y):
        return covariance_gufunc(x, y) / (x.std(axis=-1) * y.std(axis=-1)) *)
Definition correlation_gufunc (x y : arr) : result arr :=
  c ← covariance_gufunc x y;
  sx ← std_last x;
  sy ← std_last y;
  d ← mul sx sy;
  truediv c d.

(** The divisor in correlation_gufunc: x.std(axis=-1) * y.std(axis=-1). *)
Definition correlation_divisor (x y : arr) : result arr :=
  sx ← std_last x;
  sy ← std_last y;
  mul sx sy.

(** def spearman_correlation_gufunc(x, y):
        x_ranks = bottleneck.rankdata(x, axis=-1)
        y_ranks = bottleneck.rankdata(y, axis=-1)
        return correlation_gufunc(x_ranks, y_ranks) *)
Definition spearman_correlation_gufunc (x y : arr) : result arr :=
  x_ranks ← rankdata x;
  y_ranks ← rankdata y;
  correlation_gufunc x_ranks y_ranks.

(** def spearman_correlation(x, y, dim):
        return xr.apply_ufunc(
            spearman_correlation_gufunc, x, y,
            input_core_dims=[[dim], [dim]],
            dask='parallelized',
            output_dtypes=[float]) *)
Definition spearman_correlation {xarr : Type} `{LabeledLib xarr arr}
    (x y : xarr) (dim : string) : result xarr :=
  apply_ufunc spearman_correlation_gufunc x y
              [[dim]; [dim]] "parallelized" ["float"].

End Authored.

(** ** An exact-real model of the library

    numpy computes in IEEE binary64.  This model computes in the real
    numbers instead: a value is a real, or [None] for the non-finite results
    (nan, inf, -inf) that a division by zero produces.  numpy does not raise
    there: it returns the non-finite value and goes on, so [None] is a value
    and not an exception, and every operation with a [None] operand yields
    [None].

    The model is an idealisation.  Shapes, broadcasting, exceptions and the
    order of the operations are numpy's; the values are what the formulas
    give without rounding.  A theorem that rests on a law of real arithmetic
    (x - x.mean() = 0 for a constant x, sqrt(v) * sqrt(v) = v, ...) is a
    statement over exact reals and says so; the binary64 model further down
    shows where rounding departs from it. *)

Definition num : Type := option R.

#[global] Instance R_eq_dec : EqDecision R := Req_dec_T.
#[global] Instance Rlt_decision (x y : R) : Decision (Rlt x y) := Rlt_dec x y.

Definition num_lift2 (f : R -> R -> R) (a b : num) : num :=
  match a, b with
  | Some x, Some y => Some (f x y)
  | _, _ => None
  end.

Definition num_add : num -> num -> num := num_lift2 Rplus.
Definition num_sub : num -> num -> num := num_lift2 Rminus.
Definition num_mul : num -> num -> num := num_lift2 Rmult.

(** True division: x / 0 is nan or an infinity, a warning and no exception. *)
Definition num_div (a b : num) : num :=
  match a, b with
  | Some x, Some y => if decide (y = 0%R) then None else Some (x / y)%R
  | _, _ => None
  end.

(** numpy.sqrt: nan below zero. *)
Definition num_sqrt (a : num) : num :=
  match a with
  | Some x => if decide (x < 0)%R then None else Some (sqrt x)
  | None => None
  end.

Definition num_sum (l : list num) : num := foldr num_add (Some 0%R) l.

(** sum / n; the mean of an empty axis is 0 / 0. *)
Definition num_mean (l : list num) : num :=
  num_div (num_sum l) (Some (INR (length l))).

(** numpy's _var with ddof = 0: the mean of the squared deviations from the
    mean; std is its square root. *)
Definition num_var (l : list num) : num :=
  let m := num_mean l in
  num_mean (map (fun x => num_mul (num_sub x m) (num_sub x m)) l).

Definition num_std (l : list num) : num := num_sqrt (num_var l).

(** *** Arrays

    An array of any rank: its shape and its values in row-major order, so
    that the values along the last axis lie next to each other.  A scalar
    has the empty shape and one value. *)
Record nparray : Type := {
  shape : list nat;
  values : list num
}.

Definition product (s : list nat) : nat := foldr Nat.mul 1 s.

(** What numpy builds: as many values as the shape counts. *)
Definition well_formed (a : nparray) : Prop :=
  length (values a) = product (shape a).

(** The first [count] consecutive stretches of [k] values. *)
Fixpoint chunks {A : Type} (k count : nat) (v : list A) : list (list A) :=
  match count with
  | 0 => []
  | S c => take k v :: chunks k c (drop k v)
  end.

(** The shape without its last dimension. *)
Definition leading (s : list nat) : list nat := take (length s - 1) s.

(** The values along the last axis, one list per index of the leading
    dimensions. *)
Definition rows (a : nparray) : list (list num) :=
  match last (shape a) with
  | Some n => chunks n (product (leading (shape a))) (values a)
  | None => []
  end.

(** A reduction over axis -1 (keepdims leaves a last dimension of size 1).
    An array of rank 0 has no axis -1. *)
Definition reduce_last (g : list num -> num) (keepdims : bool) (a : nparray)
    : result nparray :=
  match last (shape a) with
  | None => Raises AxisError
  | Some _ =>
      Returns {| shape := if keepdims then leading (shape a) ++ [1] else leading (shape a);
                 values := map g (rows a) |}
  end.

Definition np_mean (a : nparray) (keepdims : bool) : result nparray :=
  reduce_last num_mean keepdims a.

Definition np_std (a : nparray) : result nparray :=
  reduce_last num_std false a.

(** da.sum(axis=axis), for any axis of the array: negative axes count from
    the end.  On an array of rank 0 numpy lets the axes 0 and -1 pass: the
    sum is the value itself. *)
Definition normalize_axis (rank : nat) (axis : Z) : option nat :=
  let r := Z.of_nat rank in
  if decide (0 <= axis < r)%Z then Some (Z.to_nat axis)
  else if decide (- r <= axis < 0)%Z then Some (Z.to_nat (axis + r))
  else None.

Definition np_sum (a : nparray) (axis : Z) : result nparray :=
  match normalize_axis (length (shape a)) axis with
  | None =>
      if decide (shape a = [] /\ (axis = 0 \/ axis = -1)%Z) then Returns a
      else Raises AxisError
  | Some ax =>
      let outer := product (take ax (shape a)) in
      let n := default 0 (shape a !! ax) in
      let inner := product (drop (S ax) (shape a)) in
      Returns {| shape := delete ax (shape a);
                 values :=
                   flat_map (fun o =>
                     map (fun i =>
                            num_sum (map (fun k => default None
                                                     (values a !! ((o * n + k) * inner + i)))
                                         (seq 0 n)))
                         (seq 0 inner))
                     (seq 0 outer) |}
  end.

(** *** Broadcasting

    Shapes are aligned at their last dimension; two sizes agree when they
    are equal or one of them is 1; a missing leading dimension counts as 1. *)
Definition broadcast_dim (n1 n2 : nat) : option nat :=
  if decide (n1 = n2) then Some n1
  else if decide (n1 = 1) then Some n2
  else if decide (n2 = 1) then Some n1
  else None.

(** On shapes written last dimension first. *)
Fixpoint broadcast_reversed (r1 r2 : list nat) : option (list nat) :=
  match r1, r2 with
  | [], r => Some r
  | r, [] => Some r
  | n1 :: r1', n2 :: r2' =>
      d ← broadcast_dim n1 n2;
      r ← broadcast_reversed r1' r2';
      Some (d :: r)
  end.

Definition broadcast_shapes (s1 s2 : list nat) : option (list nat) :=
  reverse <$> broadcast_reversed (reverse s1) (reverse s2).

Definition pad_shape (rank : nat) (s : list nat) : list nat :=
  replicate (rank - length s) 1 ++ s.

(** The values of the broadcast of two arrays whose shapes have one rank
    and agree: along a dimension the two run together, or the one of size 1
    is repeated. *)
Fixpoint broadcast_values {A B C : Type} (f : A -> B -> C) (s1 s2 : list nat)
    (v1 : list A) (v2 : list B) : list C :=
  match s1, s2 with
  | n1 :: s1', n2 :: s2' =>
      let c1 := chunks (product s1') n1 v1 in
      let c2 := chunks (product s2') n2 v2 in
      concat (if decide (n1 = n2) then zip_with (broadcast_values f s1' s2') c1 c2
              else if decide (n1 = 1) then map (broadcast_values f s1' s2' v1) c2
              else map (fun a => broadcast_values f s1' s2' a v2) c1)
  | _, _ => zip_with f v1 v2
  end.

(** An elementwise binary operation; ValueError when the shapes do not
    broadcast together. *)
Definition broadcast (f : num -> num -> num) (a b : nparray) : result nparray :=
  match broadcast_shapes (shape a) (shape b) with
  | None => Raises ValueError
  | Some s =>
      Returns {| shape := s;
                 values := broadcast_values f (pad_shape (length s) (shape a))
                                            (pad_shape (length s) (shape b))
                                            (values a) (values b) |}
  end.

(** *** bottleneck.rankdata

    Ranks begin at 1; equal values get the average of the ranks they would
    otherwise occupy.  For a value with [lt] smaller and [eq] equal entries
    (itself included) those ranks are lt+1 .. lt+eq. *)
Definition count_lt (l : list R) (x : R) : nat :=
  length (filter (fun y => (y < x)%R) l).
Definition count_eq (l : list R) (x : R) : nat :=
  length (filter (fun y => y = x) l).

Definition rank_of (l : list R) (x : R) : R :=
  ((INR (count_lt l x) + 1) + (INR (count_lt l x) + INR (count_eq l x))) / 2.

Definition rank_list (l : list R) : list R := map (rank_of l) l.

(** All entries of a list of values, when every one is a real. *)
Fixpoint reals_of (l : list num) : option (list R) :=
  match l with
  | [] => Some []
  | Some x :: t => match reals_of t with Some r => Some (x :: r) | None => None end
  | None :: _ => None
  end.

(** The ranks along one axis of reals.  A row that holds a non-finite
    value lies outside this model ([None] does not tell nan from the
    infinities, which bottleneck ranks differently: nan last, the infinities
    in their order); it is marked non-finite as a whole, and the theorems
    about ranks over exact reals are stated for real rows.  The binary64
    model ranks every row. *)
Definition rank_row (row : list num) : list num :=
  match reals_of row with
  | Some rs => map Some (rank_list rs)
  | None => map (fun _ => None) row
  end.

Definition bn_rankdata (a : nparray) : result nparray :=
  match last (shape a) with
  | None => Raises ValueError
  | Some _ => Returns {| shape := shape a; values := concat (map rank_row (rows a)) |}
  end.

#[global] Instance numpy_real : ArrayLib nparray := {
  mean_last := np_mean;
  std_last := np_std;
  sum_axis := np_sum;
  sub := broadcast num_sub;
  mul := broadcast num_mul;
  truediv := broadcast num_div;
  of_int := fun z => {| shape := []; values := [Some (IZR z)] |};
  rankdata := bn_rankdata
}.

(** A real-valued array of a given shape, a real-valued vector, a real
    scalar, and the elementwise image of an array under [f]. *)
Definition arr (s : list nat) (rs : list R) : nparray :=
  {| shape := s; values := map Some rs |}.
Definition vec (rs : list R) : nparray := arr [length rs] rs.
Definition scalar (v : num) : nparray := {| shape := []; values := [v] |}.
Definition vec_map (f : R -> R) (a : nparray) : nparray :=
  {| shape := shape a; values := map (fmap f) (values a) |}.

(** An array given by its rows: the values along the last axis (of size
    [n]) for each index of the leading dimensions [lead]. *)
Definition of_rows (lead : list nat) (n : nat) (rws : list (list R)) : nparray :=
  arr (lead ++ [n]) (concat rws).

(** Real-valued statistics of a list, for stating results. *)
Definition rsum (rs : list R) : R := foldr Rplus 0%R rs.
Definition rmean (rs : list R) : R := (rsum rs / INR (length rs))%R.
Definition rvar (rs : list R) : R :=
  rmean (map (fun x => (x - rmean rs) * (x - rmean rs))%R rs).
Definition rcov (xs ys : list R) : R :=
  rmean (zip_with (fun x y => (x - rmean xs) * (y - rmean ys))%R xs ys).
Definition rstd (rs : list R) : R := sqrt (rvar rs).
Definition rcorr (xs ys : list R) : R := (rcov xs ys / (rstd xs * rstd ys))%R.

(** The quotient correlation_gufunc forms for one pair of rows. *)
Definition num_corr (xs ys : list R) : num :=
  num_div (Some (rcov xs ys)) (Some (rstd xs * rstd ys)%R).

(** Centring a row on its mean. *)
Definition centre (rs : list R) : list R := map (fun x => x - rmean rs)%R rs.

(** Rows of one length [n], as many as the leading dimensions count. *)
Definition rows_of_shape (lead : list nat) (n : nat) (rws : list (list R)) : Prop :=
  length rws = product lead /\ Forall (fun r => length r = n) rws.

(** The rows of the real array of shape [s] with values [xs]. *)
Definition row_lists (s : list nat) (xs : list R) : list (list R) :=
  chunks (default 0 (last s)) (product (leading s)) xs.


(** ** The notebook files: JSON documents *)

#[local] Unset Elimination Schemes.
Inductive json : Type :=
| JNull
| JBool (b : bool)
| JNum (z : Z)
| JStr (s : string)
| JArr (items : list json)
| JObj (fields : list (string * json)).
#[local] Set Elimination Schemes.

(** A double quote, a newline, and a source line ending in a newline. *)
Definition dq : string := String "034"%char EmptyString.
Definition nl : string := String "010"%char EmptyString.
Definition ln (s : string) : string := s +:+ nl.

(** ** nbformat 4: the typed reading of a notebook document

    Follows the nbformat v4 JSON schema: the required keys of the notebook,
    of each kind of cell and of each kind of output, with no other keys
    admitted where the schema sets additionalProperties to false. *)

Inductive output : Type :=
| execute_result (execution_count : option Z) (data : list (string * list string))
| display_data (data : list (string * list string))
| stream (name : string) (text : list string)
| error (ename evalue : string) (traceback : list string).

Inductive cell : Type :=
| markdown_cell (source : list string)
| code_cell (execution_count : option Z) (outputs : list output) (source : list string)
| raw_cell (source : list string).

Record notebook : Type := {
  cells : list cell;
  nbformat : Z;
  nbformat_minor : Z;
  kernelspec_name : option string;
  language_name : option string
}.

Fixpoint assoc {A : Type} (k : string) (kv : list (string * A)) : option A :=
  match kv with
  | [] => None
  | (k', v) :: rest => if decide (k = k') then Some v else assoc k rest
  end.

Definition field (k : string) (j : json) : option json :=
  match j with
  | JObj kv => assoc k kv
  | _ => None
  end.

Definition keys (j : json) : option (list string) :=
  match j with
  | JObj kv => Some (map fst kv)
  | _ => None
  end.

Definition check (b : bool) : option unit := if b then Some () else None.

(** Every key of the object is one of [allowed]. *)
Definition only_keys (allowed : list string) (j : json) : option unit :=
  ks ← keys j;
  check (forallb (fun k => bool_decide (k ∈ allowed)) ks).

Definition as_string (j : json) : option string :=
  match j with JStr s => Some s | _ => None end.

Definition as_int (j : json) : option Z :=
  match j with JNum z => Some z | _ => None end.

Definition as_array (j : json) : option (list json) :=
  match j with JArr l => Some l | _ => None end.

Definition as_object (j : json) : option (list (string * json)) :=
  match j with JObj kv => Some kv | _ => None end.

(** The schema's multiline_string: a string, or an array of strings. *)
Definition as_multiline (j : json) : option (list string) :=
  match j with
  | JStr s => Some [s]
  | JArr l => mapM as_string l
  | _ => None
  end.

(** An integer or null, the integer not negative. *)
Definition as_count (j : json) : option (option Z) :=
  match j with
  | JNull => Some None
  | JNum z => check (bool_decide (0 <= z)%Z);; Some (Some z)
  | _ => None
  end.

(** A mimebundle, read with every value as a multiline string (the
    notebooks hold text/plain only). *)
Definition as_mimebundle (j : json) : option (list (string * list string)) :=
  kv ← as_object j;
  mapM (fun p => t ← as_multiline p.2; Some (p.1, t)) kv.

Definition decode_output (j : json) : option output :=
  ty ← field "output_type" j ≫= as_string;
  if decide (ty = "execute_result") then
    only_keys ["output_type"; "data"; "metadata"; "execution_count"] j;;
    n ← field "execution_count" j ≫= as_count;
    d ← field "data" j ≫= as_mimebundle;
    field "metadata" j ≫= as_object;;
    Some (execute_result n d)
  else if decide (ty = "display_data") then
    only_keys ["output_type"; "data"; "metadata"] j;;
    d ← field "data" j ≫= as_mimebundle;
    field "metadata" j ≫= as_object;;
    Some (display_data d)
  else if decide (ty = "stream") then
    only_keys ["output_type"; "name"; "text"] j;;
    n ← field "name" j ≫= as_string;
    t ← field "text" j ≫= as_multiline;
    Some (stream n t)
  else if decide (ty = "error") then
    only_keys ["output_type"; "ename"; "evalue"; "traceback"] j;;
    n ← field "ename" j ≫= as_string;
    v ← field "evalue" j ≫= as_string;
    t ← (field "traceback" j ≫= as_array) ≫= mapM as_string;
    Some (error n v t)
  else None.

Definition decode_cell (j : json) : option cell :=
  ty ← field "cell_type" j ≫= as_string;
  field "metadata" j ≫= as_object;;
  src ← field "source" j ≫= as_multiline;
  if decide (ty = "markdown") then
    only_keys ["cell_type"; "metadata"; "attachments"; "source"] j;;
    Some (markdown_cell src)
  else if decide (ty = "code") then
    only_keys ["cell_type"; "metadata"; "source"; "outputs"; "execution_count"] j;;
    n ← field "execution_count" j ≫= as_count;
    outs ← (field "outputs" j ≫= as_array) ≫= mapM decode_output;
    Some (code_cell n outs src)
  else if decide (ty = "raw") then
    only_keys ["cell_type"; "metadata"; "attachments"; "source"] j;;
    Some (raw_cell src)
  else None.

Definition decode_notebook (j : json) : option notebook :=
  only_keys ["metadata"; "nbformat_minor"; "nbformat"; "cells"] j;;
  md ← field "metadata" j;
  as_object md;;
  major ← field "nbformat" j ≫= as_int;
  check (bool_decide (major = 4)%Z);;
  minor ← field "nbformat_minor" j ≫= as_int;
  check (bool_decide (0 <= minor)%Z);;
  cs ← (field "cells" j ≫= as_array) ≫= mapM decode_cell;
  Some {| cells := cs;
          nbformat := major;
          nbformat_minor := minor;
          kernelspec_name := (field "kernelspec" md ≫= field "name") ≫= as_string;
          language_name := (field "language_info" md ≫= field "name") ≫= as_string |}.

Definition is_code (c : cell) : bool :=
  match c with code_cell _ _ _ => true | _ => false end.
Definition is_markdown (c : cell) : bool :=
  match c with markdown_cell _ => true | _ => false end.

(** The source text of every code cell, in document order. *)
Definition code_sources (nb : notebook) : list string :=
  omap (fun c => match c with
                 | code_cell _ _ src => Some (foldr String.append EmptyString src)
                 | _ => None
                 end) (cells nb).

Definition execution_counts (nb : notebook) : list (option Z) :=
  omap (fun c => match c with
                 | code_cell n _ _ => Some n
                 | _ => None
                 end) (cells nb).

Definition cell_outputs (c : cell) : list output :=
  match c with code_cell _ outs _ => outs | _ => [] end.

(** ** Python syntax of the code cells

    The syntax trees follow Python's ast module.  The statement and
    expression forms that occur in the notebooks are joined by the compound
    and suspending forms that do not (if, for, while, try, with, raise,
    lambda, await, yield, async def), so that their absence is a property of
    the cells and not of the type. *)

Inductive operator : Type := Add | Sub | Mult | Div.
Inductive cmpop : Type := Lt | Gt | Eq | NotEq.

#[local] Unset Elimination Schemes.
Inductive expr : Type :=
| Name (id : string)
| Num (text : string)                 (* a numeric literal, as written *)
| Str (s : string)
| NameConstant (value : string)       (* True, False, None *)
| Attribute (value : expr) (attr : string)
| Subscript (value : expr) (index : expr)
| Call (func : expr) (args : list expr) (keywords : list (string * expr))
| BinOp (left : expr) (op : operator) (right : expr)
| USub (operand : expr)
| Compare (left : expr) (op : cmpop) (right : expr)
| Tuple (elts : list expr)
| ListE (elts : list expr)
| Dict (items : list (expr * expr))
| Lambda (params : list string) (body : expr)
| Await (value : expr)
| Yield (value : expr).

Inductive stmt : Type :=
| Import (module : string) (asname : option string)
| Assign (targets : list expr) (value : expr)
| Expr (value : expr)
| FunctionDef (name : string) (params : list string) (body : list stmt)
| AsyncFunctionDef (name : string) (params : list string) (body : list stmt)
| Return (value : expr)
| If (test : expr) (body orelse : list stmt)
| For (target iter : expr) (body : list stmt)
| While (test : expr) (body : list stmt)
| Try (body : list stmt) (handlers : list (list stmt)) (finalbody : list stmt)
| With (items : list expr) (body : list stmt)
| Raise (exc : expr).
#[local] Set Elimination Schemes.

(** *** Tokens: the tie between a cell's source text and its syntax tree *)

Inductive token : Type :=
| TLine (indent : nat)     (* start of a logical line, with its indentation *)
| TName (s : string)       (* identifier or keyword *)
| TNumber (s : string)
| TString (s : string)
| TOp (s : string).

#[global] Instance token_eq_dec : EqDecision token.
Proof. solve_decision. Defined.

Definition op_token (op : operator) : token :=
  TOp match op with Add => "+" | Sub => "-" | Mult => "*" | Div => "/" end.

Definition cmpop_tokens (op : cmpop) : list token :=
  match op with
  | Lt => [TOp "<"]
  | Gt => [TOp ">"]
  | Eq => [TOp "="; TOp "="]
  | NotEq => [TOp "!"; TOp "="]
  end.

Definition op_prec (op : operator) : nat :=
  match op with Add | Sub => 2 | Mult | Div => 3 end.

(** Binding strength of an expression form: lambda and yield 0, comparison
    1, additive 2, multiplicative 3, unary minus and await 4, attribute,
    subscript and call 5, atoms 6. *)
Definition prec (e : expr) : nat :=
  match e with
  | Lambda _ _ | Yield _ => 0
  | Compare _ _ _ => 1
  | BinOp _ op _ => op_prec op
  | USub _ | Await _ => 4
  | Attribute _ _ | Subscript _ _ | Call _ _ _ => 5
  | _ => 6
  end.

Definition parens (b : bool) (ts : list token) : list token :=
  if b then TOp "(" :: ts ++ [TOp ")"] else ts.

Fixpoint commas (tss : list (list token)) : list token :=
  match tss with
  | [] => []
  | [ts] => ts
  | ts :: rest => ts ++ TOp "," :: commas rest
  end.

(** The tokens of an expression standing where binding strength [p] is
    required: parenthesised exactly when it binds less tightly. *)
Fixpoint expr_tokens (p : nat) (e : expr) : list token :=
  parens (prec e <? p)%nat
    match e with
    | Name id => [TName id]
    | Num t => [TNumber t]
    | Str s => [TString s]
    | NameConstant v => [TName v]
    | Attribute v a => expr_tokens 5 v ++ [TOp "."; TName a]
    | Subscript v i => expr_tokens 5 v ++ TOp "[" :: expr_tokens 0 i ++ [TOp "]"]
    | Call f args kws =>
        expr_tokens 5 f ++ TOp "(" ::
        commas (map (expr_tokens 0) args
                ++ map (fun kw => TName kw.1 :: TOp "=" :: expr_tokens 0 kw.2) kws)
        ++ [TOp ")"]
    | BinOp l op r =>
        expr_tokens (op_prec op) l ++ op_token op :: expr_tokens (S (op_prec op)) r
    | USub v => TOp "-" :: expr_tokens 4 v
    | Compare l op r => expr_tokens 2 l ++ cmpop_tokens op ++ expr_tokens 2 r
    | Tuple es =>
        TOp "(" :: commas (map (expr_tokens 0) es)
        ++ (if decide (length es = 1) then [TOp ","] else []) ++ [TOp ")"]
    | ListE es => TOp "[" :: commas (map (expr_tokens 0) es) ++ [TOp "]"]
    | Dict kvs =>
        TOp "{" :: commas (map (fun kv => expr_tokens 0 kv.1 ++ TOp ":" :: expr_tokens 0 kv.2) kvs)
        ++ [TOp "}"]
    | Lambda ps b => TName "lambda" :: commas (map (fun x => [TName x]) ps) ++ TOp ":" :: expr_tokens 0 b
    | Await v => TName "await" :: expr_tokens 5 v
    | Yield v => TName "yield" :: expr_tokens 0 v
    end.

Definition def_tokens (name : string) (params : list string) : list token :=
  TName "def" :: TName name :: TOp "(" :: commas (map (fun x => [TName x]) params)
  ++ [TOp ")"; TOp ":"].

(** The tokens of a statement at indentation [ind]; a block is indented by
    four more columns. *)
Fixpoint stmt_tokens (ind : nat) (s : stmt) : list token :=
  let block := fun (b : list stmt) => flat_map (stmt_tokens (4 + ind)) b in
  TLine ind ::
  match s with
  | Import m a =>
      TName "import" :: TName m ::
      match a with Some x => [TName "as"; TName x] | None => [] end
  | Assign ts v => flat_map (fun t => expr_tokens 0 t ++ [TOp "="]) ts ++ expr_tokens 0 v
  | Expr v => expr_tokens 0 v
  | FunctionDef n ps b => def_tokens n ps ++ block b
  | AsyncFunctionDef n ps b => TName "async" :: def_tokens n ps ++ block b
  | Return v => TName "return" :: expr_tokens 0 v
  | If t b o =>
      TName "if" :: expr_tokens 0 t ++ TOp ":" :: block b
      ++ match o with [] => [] | _ => TLine ind :: TName "else" :: TOp ":" :: block o end
  | For t i b => TName "for" :: expr_tokens 0 t ++ TName "in" :: expr_tokens 0 i ++ TOp ":" :: block b
  | While t b => TName "while" :: expr_tokens 0 t ++ TOp ":" :: block b
  | Try b hs f =>
      TName "try" :: TOp ":" :: block b
      ++ flat_map (fun h => TLine ind :: TName "except" :: TOp ":" :: block h) hs
      ++ match f with [] => [] | _ => TLine ind :: TName "finally" :: TOp ":" :: block f end
  | With xs b => TName "with" :: commas (map (expr_tokens 0) xs) ++ TOp ":" :: block b
  | Raise v => TName "raise" :: expr_tokens 0 v
  end.

Definition cell_tokens (body : list stmt) : list token :=
  flat_map (stmt_tokens 0) body.

(** *** Reading tokens off the source text

    A small scanner for the Python that the cells are written in: names,
    numeric literals, quoted strings and one-character operators; blanks and
    comments dropped; a line break inside brackets does not end the line;
    each logical line is announced by [TLine] with its indentation. *)

Definition char_code (c : ascii) : nat := nat_of_ascii c.

Definition is_letter (c : ascii) : bool :=
  let n := char_code c in
  ((97 <=? n) && (n <=? 122) || (65 <=? n) && (n <=? 90) || (n =? 95))%nat.

Definition is_digit (c : ascii) : bool :=
  let n := char_code c in ((48 <=? n) && (n <=? 57))%nat.

Definition is_blank (c : ascii) : bool :=
  let n := char_code c in ((n =? 32) || (n =? 9))%nat.

Definition is_newline (c : ascii) : bool := (char_code c =? 10)%nat.
Definition is_hash (c : ascii) : bool := (char_code c =? 35)%nat.
Definition is_dot (c : ascii) : bool := (char_code c =? 46)%nat.
Definition is_quote (c : ascii) : bool :=
  let n := char_code c in ((n =? 39) || (n =? 34))%nat.
Definition is_open (c : ascii) : bool :=
  let n := char_code c in ((n =? 40) || (n =? 91) || (n =? 123))%nat.
Definition is_close (c : ascii) : bool :=
  let n := char_code c in ((n =? 41) || (n =? 93) || (n =? 125))%nat.

Definition snoc (s : string) (c : ascii) : string := s +:+ String c EmptyString.

Inductive lex_mode : Type :=
| LineStart (spaces : nat)
| Code
| InName (buf : string)
| InNumber (buf : string)
| InString (quote : ascii) (buf : string)
| Comment.

Record lexer : Type := {
  mode : lex_mode;
  depth : nat;            (* open brackets *)
  emitted : list token    (* most recent first *)
}.

Definition emit (t : token) (lx : lexer) : lexer :=
  {| mode := Code; depth := depth lx; emitted := t :: emitted lx |}.

Definition set_mode (m : lex_mode) (lx : lexer) : lexer :=
  {| mode := m; depth := depth lx; emitted := emitted lx |}.

Definition after_newline (lx : lexer) : lexer :=
  set_mode (if (depth lx =? 0)%nat then LineStart 0 else Code) lx.

(** A character met between tokens. *)
Definition step_code (c : ascii) (lx : lexer) : lexer :=
  if is_blank c then set_mode Code lx
  else if is_newline c then after_newline lx
  else if is_hash c then set_mode Comment lx
  else if is_letter c then set_mode (InName (String c EmptyString)) lx
  else if is_digit c then set_mode (InNumber (String c EmptyString)) lx
  else if is_quote c then set_mode (InString c EmptyString) lx
  else
    {| mode := Code;
       depth := if is_open c then S (depth lx)
                else if is_close c then pred (depth lx)
                else depth lx;
       emitted := TOp (String c EmptyString) :: emitted lx |}.

Definition step (lx : lexer) (c : ascii) : lexer :=
  match mode lx with
  | LineStart n =>
      if is_blank c then set_mode (LineStart (S n)) lx
      else if is_newline c then set_mode (LineStart 0) lx
      else if is_hash c then set_mode Comment lx
      else step_code c (emit (TLine n) lx)
  | Code => step_code c lx
  | InName buf =>
      if is_letter c || is_digit c then set_mode (InName (snoc buf c)) lx
      else step_code c (emit (TName buf) lx)
  | InNumber buf =>
      if is_digit c || is_dot c then set_mode (InNumber (snoc buf c)) lx
      else step_code c (emit (TNumber buf) lx)
  | InString q buf =>
      if bool_decide (c = q) then emit (TString buf) lx
      else set_mode (InString q (snoc buf c)) lx
  | Comment => if is_newline c then after_newline lx else lx
  end.

Definition finish (lx : lexer) : list token :=
  rev match mode lx with
      | InName buf => TName buf :: emitted lx
      | InNumber buf => TNumber buf :: emitted lx
      | _ => emitted lx
      end.

Definition tokenize (src : string) : list token :=
  finish (foldl step {| mode := LineStart 0; depth := 0; emitted := [] |}
                (String.list_ascii_of_string src)).

(** ** The two notebook files *)

(** tutorial/1.1.xarray-data-structures.ipynb *)
Definition data_structures_ipynb : json :=
  JObj [
    ("cells", JArr [
      JObj [
        ("cell_type", JStr "markdown");
        ("metadata", JObj []);
        ("source", JArr [
          JStr (ln "# Data Structures ");
          JStr (nl);
          JStr (ln "xarray has two core data structures. Both are fundamentally N-dimensional:");
          JStr (nl);
          JStr (ln "- DataArray is xarray's implementation of a labeled, N-dimensional array.");
          JStr (ln "- Dataset is a multi-dimensional, in-memory array database. It is a dict-like container of DataArray objects aligned along any number of shared dimensions.");
          JStr (nl);
          JStr (ln "-----");
          JStr (nl);
          JStr (ln "### Outline");
          JStr (ln "- Arrays of Numbers (Numpy is Python's most common array library)");
          JStr (ln "- The common data model (labels, netcdf)");
          JStr (ln "- N-Dimensional labeled arrays (xarray)");
          JStr (ln "  - DataArray");
          JStr (ln "  - Dataset");
          JStr (ln "  ");
          JStr (ln "### Tutorial Duriation");
          JStr (ln "10 minutes");
          JStr (nl);
          JStr (ln "### Going Further");
          JStr (nl);
          JStr "Xarray Documentation on Data Structures: http://xarray.pydata.org/en/latest/data-structures.html"])];
      JObj [
        ("cell_type", JStr "code");
        ("execution_count", JNum 1);
        ("metadata", JObj []);
        ("outputs", JArr []);
        ("source", JArr [
          JStr (ln "import numpy as np");
          JStr "import xarray as xr"])];
      JObj [
        ("cell_type", JStr "markdown");
        ("metadata", JObj []);
        ("source", JArr [
          JStr (ln "## Arrays of Numbers");
          JStr (nl);
          JStr "Unlabeled, N-dimensional arrays of numbers (e.g., NumPy’s ndarray) are the most widely used data structure in scientific computing. However, they lack a meaningful representation of the metadata associated with their data. Implementing such functionality is left to individual users and domain-specific packages. As a result, programmers frequently encounter pitfalls in the form of questions like “is the time axis of my array in the first or third index position?” or “does my array of timestamps still align with my data after resampling?”."])];
      JObj [
        ("cell_type", JStr "code");
        ("execution_count", JNum 2);
        ("metadata", JObj []);
        ("outputs", JArr [
          JObj [
            ("data", JObj [
              ("text/plain", JArr [
                JStr (ln "array([[[0.16458501, 0.22890098, 0.6603238 , 0.66499901, 0.96993998,");
                JStr (ln "         0.10567837],");
                JStr (ln "        [0.96137061, 0.19561085, 0.5465629 , 0.49245824, 0.78988666,");
                JStr (ln "         0.91943141],");
                JStr (ln "        [0.85804072, 0.58853909, 0.31112584, 0.50111794, 0.15134897,");
                JStr (ln "         0.42712079]],");
                JStr (nl);
                JStr (ln "       [[0.91287625, 0.53853181, 0.65308027, 0.50718632, 0.52769669,");
                JStr (ln "         0.99929553],");
                JStr (ln "        [0.217798  , 0.09783247, 0.16365727, 0.50937077, 0.29407949,");
                JStr (ln "         0.08394316],");
                JStr (ln "        [0.88152003, 0.64193929, 0.08420551, 0.49053674, 0.10245016,");
                JStr "         0.57029072]]])"])]);
            ("execution_count", JNum 2);
            ("metadata", JObj []);
            ("output_type", JStr "execute_result")]]);
        ("source", JArr [
          JStr (ln "myvar = np.random.random(size=(2, 3, 6))");
          JStr "myvar"])];
      JObj [
        ("cell_type", JStr "markdown");
        ("metadata", JObj []);
        ("source", JArr [
          JStr (ln "## The Common Data Model and Inspiration from NetCDF");
          JStr (nl);
          JStr (ln "![](images/dataset-diagram.png)");
          JStr (ln "*An example of how a dataset (netCDF or xarray) for a weather forecast might be structured. This dataset has three dimensions, time, y, and x, each of which is also a one-dimensional coordinate. Temperature and precipitation are three-dimensional data variables. Also included in the dataset are two-dimensional coordinates latitude and longitude, having dimensions y and x, and reference time, a zero-dimensional (scalar) coordinate.*");
          JStr (nl);
          JStr "xarray adopts Unidata’s self-describing Common Data Model on which the network Common Data Form (netCDF) is built [20, 7]. NetCDF provides a well-defined data model for labeled N-dimensional array-oriented scientific data analysis."])];
      JObj [
        ("cell_type", JStr "markdown");
        ("metadata", JObj []);
        ("source", JArr [
          JStr (ln "## Xarray Data Structures");
          JStr (nl);
          JStr (ln "![](images/xarray-data-structures.png)");
          JStr (nl);
          JStr "The Common Data Model and NetCDF forms the basis of the xarray data model and provides a natural and portable serialization format. Building on netCDF, xarray features two main data structures: the DataArray and the Dataset. The API for these data structures is summarized in the following sections and in the figure above."])];
      JObj [
        ("cell_type", JStr "markdown");
        ("metadata", JObj []);
        ("source", JArr [
          JStr (ln "## `xarray.DataArray`");
          JStr (nl);
          JStr (ln "The DataArray is xarray’s implementation of a labeled, multi-dimensional array. It has several key properties:");
          JStr (nl);
          JStr (ln "- data: N-dimensional array (NumPy or dask) holding the array's values,");
          JStr (ln "- coords: dict-like container of arrays (coordinates) that label each point (e.g., 1-dimensional arrays of numbers, datetime objects or strings),");
          JStr (ln "- dims: dimension names for each axis [e.g., (‘time’, ‘latitude’, ‘longitude’)],");
          JStr (ln "- attrs: OrderedDict holding arbitrary metadata (e.g. units or descriptions), and");
          JStr (ln "- name: an arbitrary name for the array.");
          JStr (nl);
          JStr (ln "xarray uses dims and coords to enable its core metadata-aware operations. ");
          JStr (ln "- Dimensions provide names that xarray uses instead of the axis argument found in many NumPy functions.");
          JStr (ln "- Coordinates are ancillary variables used to enable fast label based indexing and alignment, building on the functionality of the pandas Index. ");
          JStr (ln "- DataArray objects also can have a name and can hold arbitrary metadata in the form of their attrs property, which can be used to further describe data (e.g. by providing units). ");
          JStr (ln "- Names and attributes are strictly for users and user-written code; in general xarray makes no attempt to interpret them, and propagates them only in unambiguous cases. ");
          JStr (ln "- In contrast, xarray does interpret and persist coordinates in operations that transform xarray objects.");
          JStr (nl)])];
      JObj [
        ("cell_type", JStr "code");
        ("execution_count", JNum 3);
        ("metadata", JObj []);
        ("outputs", JArr [
          JObj [
            ("data", JObj [
              ("text/plain", JArr [
                JStr (ln "<xarray.DataArray (dim_0: 2, dim_1: 3, dim_2: 6)>");
                JStr (ln "array([[[0.164585, 0.228901, 0.660324, 0.664999, 0.96994 , 0.105678],");
                JStr (ln "        [0.961371, 0.195611, 0.546563, 0.492458, 0.789887, 0.919431],");
                JStr (ln "        [0.858041, 0.588539, 0.311126, 0.501118, 0.151349, 0.427121]],");
                JStr (nl);
                JStr (ln "       [[0.912876, 0.538532, 0.65308 , 0.507186, 0.527697, 0.999296],");
                JStr (ln "        [0.217798, 0.097832, 0.163657, 0.509371, 0.294079, 0.083943],");
                JStr (ln "        [0.88152 , 0.641939, 0.084206, 0.490537, 0.10245 , 0.570291]]])");
                JStr "Dimensions without coordinates: dim_0, dim_1, dim_2"])]);
            ("execution_count", JNum 3);
            ("metadata", JObj []);
            ("output_type", JStr "execute_result")]]);
        ("source", JArr [
          JStr (ln "my_da = xr.DataArray(myvar)");
          JStr "my_da"])];
      JObj [
        ("cell_type", JStr "code");
        ("execution_count", JNum 4);
        ("metadata", JObj []);
        ("outputs", JArr [
          JObj [
            ("data", JObj [
              ("text/plain", JArr [
                JStr (ln "<xarray.DataArray 'temp' (lat: 2, lon: 3, time: 6)>");
                JStr (ln "array([[[0.164585, 0.228901, 0.660324, 0.664999, 0.96994 , 0.105678],");
                JStr (ln "        [0.961371, 0.195611, 0.546563, 0.492458, 0.789887, 0.919431],");
                JStr (ln "        [0.858041, 0.588539, 0.311126, 0.501118, 0.151349, 0.427121]],");
                JStr (nl);
                JStr (ln "       [[0.912876, 0.538532, 0.65308 , 0.507186, 0.527697, 0.999296],");
                JStr (ln "        [0.217798, 0.097832, 0.163657, 0.509371, 0.294079, 0.083943],");
                JStr (ln "        [0.88152 , 0.641939, 0.084206, 0.490537, 0.10245 , 0.570291]]])");
                JStr (ln "Coordinates:");
                JStr (ln "  * lat      (lat) float64 15.0 30.0");
                JStr (ln "  * lon      (lon) float64 -110.0 -115.0 -120.0");
                JStr (ln "Dimensions without coordinates: time");
                JStr (ln "Attributes:");
                JStr (ln "    long_name:  temperature");
                JStr "    units:      C"])]);
            ("execution_count", JNum 4);
            ("metadata", JObj []);
            ("output_type", JStr "execute_result")]]);
        ("source", JArr [
          JStr (ln "# Adding labels/metadata");
          JStr (ln "my_da = xr.DataArray(myvar,");
          JStr (ln "                     dims=('lat', 'lon', 'time'),");
          JStr (ln "                     coords={'lat': [15., 30.], 'lon': [-110., -115., -120.]},");
          JStr (ln "                     attrs={'long_name': 'temperature', 'units': 'C'},");
          JStr (ln "                     name='temp')");
          JStr "my_da"])];
      JObj [
        ("cell_type", JStr "code");
        ("execution_count", JNum 5);
        ("metadata", JObj []);
        ("outputs", JArr [
          JObj [
            ("data", JObj [
              ("text/plain", JArr [
                JStr (ln "array([[[0.16458501, 0.22890098, 0.6603238 , 0.66499901, 0.96993998,");
                JStr (ln "         0.10567837],");
                JStr (ln "        [0.96137061, 0.19561085, 0.5465629 , 0.49245824, 0.78988666,");
                JStr (ln "         0.91943141],");
                JStr (ln "        [0.85804072, 0.58853909, 0.31112584, 0.50111794, 0.15134897,");
                JStr (ln "         0.42712079]],");
                JStr (nl);
                JStr (ln "       [[0.91287625, 0.53853181, 0.65308027, 0.50718632, 0.52769669,");
                JStr (ln "         0.99929553],");
                JStr (ln "        [0.217798  , 0.09783247, 0.16365727, 0.50937077, 0.29407949,");
                JStr (ln "         0.08394316],");
                JStr (ln "        [0.88152003, 0.64193929, 0.08420551, 0.49053674, 0.10245016,");
                JStr "         0.57029072]]])"])]);
            ("execution_count", JNum 5);
            ("metadata", JObj []);
            ("output_type", JStr "execute_result")]]);
        ("source", JArr [
          JStr (ln "# The underlying data is still there:");
          JStr "my_da.data"])];
      JObj [
        ("cell_type", JStr "markdown");
        ("metadata", JObj []);
        ("source", JArr [
          JStr (ln "## `xarray.Dataset`");
          JStr (nl);
          JStr (ln "The Dataset is xarray’s multi-dimensional equivalent of a DataFrame. It is a dict-like container of labeled arrays (DataArrays) with aligned dimensions. It is designed as an in-memory representation of a netCDF dataset. In addition to the dict-like interface of the dataset itself, which can be used to access any DataArray in a Dataset, datasets have four key properties:");
          JStr (nl);
          JStr (ln "- data_vars: OrderedDict of DataArray objects corresponding to data variables,");
          JStr (ln "- coords: OrderedDict of DataArray objects intended to label points used in data_vars (e.g., 1-dimensional arrays of numbers, datetime objects or strings),");
          JStr (ln "- dims: dictionary mapping from dimension names to the fixed length of each dimension (e.g., {‘x’: 6, ‘y’: 6, ‘time’: 8}), and");
          JStr (ln "- attrs: OrderedDict to hold arbitrary metadata pertaining to the dataset.");
          JStr "DataArray objects inside a Dataset may have any number of dimensions but are presumed to share a common coordinate system. Coordinates can also have any number of dimensions but denote constant/independent quantities, unlike the varying/dependent quantities that belong in data. Figure 3 illustrates these concepts for an example Dataset containing meteorological data."])];
      JObj [
        ("cell_type", JStr "code");
        ("execution_count", JNum 6);
        ("metadata", JObj []);
        ("outputs", JArr [
          JObj [
            ("data", JObj [
              ("text/plain", JArr [
                JStr (ln "<xarray.Dataset>");
                JStr (ln "Dimensions:  ()");
                JStr (ln "Data variables:");
                JStr "    *empty*"])]);
            ("execution_count", JNum 6);
            ("metadata", JObj []);
            ("output_type", JStr "execute_result")]]);
        ("source", JArr [
          JStr (ln "# Datasets are dict-like containers of DataArrays");
          JStr (nl);
          JStr "xr.Dataset()"])];
      JObj [
        ("cell_type", JStr "code");
        ("execution_count", JNum 7);
        ("metadata", JObj []);
        ("outputs", JArr [
          JObj [
            ("data", JObj [
              ("text/plain", JArr [
                JStr (ln "<xarray.Dataset>");
                JStr (ln "Dimensions:      (lat: 2, lon: 3, time: 6)");
                JStr (ln "Coordinates:");
                JStr (ln "  * lat          (lat) float64 15.0 30.0");
                JStr (ln "  * lon          (lon) float64 -110.0 -115.0 -120.0");
                JStr (ln "Dimensions without coordinates: time");
                JStr (ln "Data variables:");
                JStr "    temperature  (lat, lon, time) float64 0.1646 0.2289 0.6603 ... 0.1025 0.5703"])]);
            ("execution_count", JNum 7);
            ("metadata", JObj []);
            ("output_type", JStr "execute_result")]]);
        ("source", JArr [
          JStr (ln "my_ds = xr.Dataset({'temperature': my_da})");
          JStr (ln "# also equivalent to:");
          JStr (ln "# my_da.to_dataset()");
          JStr "my_ds"])];
      JObj [
        ("cell_type", JStr "code");
        ("execution_count", JNum 8);
        ("metadata", JObj []);
        ("outputs", JArr []);
        ("source", JArr [
          JStr (ln "my_ds['precipitation'] = xr.DataArray(np.random.random(myvar.shape),");
          JStr (ln "                                      dims=('lat', 'lon', 'time'),");
          JStr (ln "                                      coords={'lat': [15., 30.], 'lon': [-110., -115., -120.]},");
          JStr (ln "                                      attrs={'long_name': 'precipitation', 'units': 'mm'},");
          JStr (ln "                                      name='pcp') ");
          JStr (nl);
          JStr "my_ds.attrs['history'] = 'created for the xarray tutorial'"])];
      JObj [
        ("cell_type", JStr "code");
        ("execution_count", JNum 9);
        ("metadata", JObj []);
        ("outputs", JArr [
          JObj [
            ("data", JObj [
              ("text/plain", JArr [
                JStr (ln "<xarray.Dataset>");
                JStr (ln "Dimensions:        (lat: 2, lon: 3, time: 6)");
                JStr (ln "Coordinates:");
                JStr (ln "  * lat            (lat) float64 15.0 30.0");
                JStr (ln "  * lon            (lon) float64 -110.0 -115.0 -120.0");
                JStr (ln "Dimensions without coordinates: time");
                JStr (ln "Data variables:");
                JStr (ln "    temperature    (lat, lon, time) float64 0.1646 0.2289 ... 0.1025 0.5703");
                JStr (ln "    precipitation  (lat, lon, time) float64 0.9583 0.9756 ... 0.183 0.07024");
                JStr (ln "Attributes:");
                JStr "    history:  created for the xarray tutorial"])]);
            ("execution_count", JNum 9);
            ("metadata", JObj []);
            ("output_type", JStr "execute_result")]]);
        ("source", JArr [
          JStr "my_ds"])];
      JObj [
        ("cell_type", JStr "code");
        ("execution_count", JNull);
        ("metadata", JObj []);
        ("outputs", JArr []);
        ("source", JArr [])]]);
    ("metadata", JObj [
      ("kernelspec", JObj [
        ("display_name", JStr "Python 3");
        ("language", JStr "python");
        ("name", JStr "python3")]);
      ("language_info", JObj [
        ("codemirror_mode", JObj [
          ("name", JStr "ipython");
          ("version", JNum 3)]);
        ("file_extension", JStr ".py");
        ("mimetype", JStr "text/x-python");
        ("name", JStr "python");
        ("nbconvert_exporter", JStr "python");
        ("pygments_lexer", JStr "ipython3");
        ("version", JStr "3.6.5")])]);
    ("nbformat", JNum 4);
    ("nbformat_minor", JNum 2)].

(** tutorial/.ipynb_checkpoints/1.3.xarray-computation-toolkit-checkpoint.ipynb *)
Definition computation_toolkit_ipynb : json :=
  JObj [
    ("cells", JArr [
      JObj [
        ("cell_type", JStr "markdown");
        ("metadata", JObj []);
        ("source", JArr [
          JStr (ln "# Computation with Xarray");
          JStr (nl);
          JStr (ln "- Aggregation: calculation of statistics (e.g. sum) along a dimension of an xarray object can be done by dimension name instead of an integer axis number.");
          JStr (ln "- Arithmetic: arithmetic between xarray objects vectorizes based on dimension names, automatically looping (broadcasting) over each distinct dimension. This eliminates the need to insert dummy dimensions of size one to facilitate broadcasting, a common pattern with NumPy.");
          JStr (ln "- Split-apply-combine: xarray includes N-dimensional grouped operations implementing the split-apply-combine strategy [24].");
          JStr (ln "- Resampling and rolling window operations: Utilizing the efficient resampling methods from pandas and rolling window operations from Bottleneck [15], xarray offers a robust set of resampling and rolling window operations along a single dimension.");
          JStr (nl);
          JStr (nl);
          JStr (ln "### Outline");
          JStr (ln "- Arithmetic");
          JStr (ln "- Aggregation");
          JStr (ln "- Groupby and resample");
          JStr (ln "- Rolling");
          JStr (ln "- Universal Functions");
          JStr (nl);
          JStr (ln "### Tutorial Duriation");
          JStr (ln "10 minutes");
          JStr (nl);
          JStr (ln "### Going Further");
          JStr (nl);
          JStr (ln "- Xarray documentation on its Computation Toolkit: http://xarray.pydata.org/en/latest/computation.html");
          JStr "- Xarray documentation on Groupby: http://xarray.pydata.org/en/latest/groupby.html"])];
      JObj [
        ("cell_type", JStr "code");
        ("execution_count", JNull);
        ("metadata", JObj []);
        ("outputs", JArr []);
        ("source", JArr [
          JStr (ln "import numpy as np");
          JStr "import xarray as xr"])];
      JObj [
        ("cell_type", JStr "code");
        ("execution_count", JNull);
        ("metadata", JObj []);
        ("outputs", JArr []);
        ("source", JArr [
          JStr (ln "ds = xr.tutorial.load_dataset('rasm')");
          JStr (ln "da = ds['Tair']");
          JStr (nl);
          JStr "ds"])];
      JObj [
        ("cell_type", JStr "markdown");
        ("metadata", JObj []);
        ("source", JArr [
          JStr (ln "## Aggregation");
          JStr (nl);
          JStr (ln "Xarray supports many of the aggregations methods that numpy has. A partial list includes: all, any, argmax, argmin, max, mean, median, min, prod, sum, std, var.");
          JStr (nl);
          JStr "Whereas the numpy syntax would require scalar axes, xarray can use dimension names:"])];
      JObj [
        ("cell_type", JStr "code");
        ("execution_count", JNull);
        ("metadata", JObj []);
        ("outputs", JArr []);
        ("source", JArr [
          JStr "da.mean(dim=('x', 'y'))"])];
      JObj [
        ("cell_type", JStr "markdown");
        ("metadata", JObj []);
        ("source", JArr [
          JStr (ln "## Arithmetic");
          JStr (nl);
          JStr "Arithmetic operations with a single DataArray automatically vectorize (like numpy) over all array values:"])];
      JObj [
        ("cell_type", JStr "code");
        ("execution_count", JNull);
        ("metadata", JObj []);
        ("outputs", JArr []);
        ("source", JArr [
          JStr (ln "# dataarray + scalars");
          JStr "da - 273.15  # (K --> C)"])];
      JObj [
        ("cell_type", JStr "markdown");
        ("metadata", JObj []);
        ("source", JArr [
          JStr (ln "Here we do two computations:");
          JStr (ln "1. Calculate the time-mean");
          JStr ("2. Calculate the " +:+ dq +:+ "anomalies" +:+ dq +:+ " relative to the time mean")])];
      JObj [
        ("cell_type", JStr "code");
        ("execution_count", JNull);
        ("metadata", JObj []);
        ("outputs", JArr []);
        ("source", JArr [
          JStr (ln "da_mean = da.mean(dim='time')");
          JStr "da_mean"])];
      JObj [
        ("cell_type", JStr "code");
        ("execution_count", JNull);
        ("metadata", JObj []);
        ("outputs", JArr []);
        ("source", JArr [
          JStr (ln "# dataarray + dataarray");
          JStr (ln "da - da_mean  ");
          JStr (nl);
          JStr "# Notice that this required broadcasting along the time dimension"])];
      JObj [
        ("cell_type", JStr "markdown");
        ("metadata", JObj []);
        ("source", JArr [
          JStr (ln "## Groupby");
          JStr (nl);
          JStr (ln "xarray supports “group by” operations with the same API as pandas to implement the split-apply-combine strategy:");
          JStr (nl);
          JStr (ln "- Split your data into multiple independent groups.");
          JStr (ln "- Apply some function to each group.");
          JStr (ln "- Combine your groups back into a single data object.");
          JStr (nl);
          JStr "Group by operations work on both Dataset and DataArray objects. Most of the examples focus on grouping by a single one-dimensional variable, although support for grouping over a multi-dimensional variable has recently been implemented."])];
      JObj [
        ("cell_type", JStr "code");
        ("execution_count", JNull);
        ("metadata", JObj []);
        ("outputs", JArr []);
        ("source", JArr [
          JStr (ln "# Using groupby to calculate a monthly climatology:");
          JStr (nl);
          JStr (ln "da_climatology = da.groupby('time.month').mean('time')");
          JStr (nl);
          JStr "da_climatology"])];
      JObj [
        ("cell_type", JStr "markdown");
        ("metadata", JObj []);
        ("source", JArr [
          JStr (ln "In this case, we provide what we refer to as a virtual variable (`time.month`). Other virtual variables include:");
          JStr "“year”, “month”, “day”, “hour”, “minute”, “second”, “dayofyear”, “week”, “dayofweek”, “weekday” and “quarter”. It is also possible to use another DataArray or pandas object as the grouper."])];
      JObj [
        ("cell_type", JStr "markdown");
        ("metadata", JObj []);
        ("source", JArr [
          JStr (ln "## Rolling Operations");
          JStr (nl);
          JStr "Xarray objects include a rolling method to support rolling window aggregations:"])];
      JObj [
        ("cell_type", JStr "code");
        ("execution_count", JNull);
        ("metadata", JObj []);
        ("outputs", JArr []);
        ("source", JArr [
          JStr (ln "roller = da.rolling(time=3)");
          JStr "roller"])];
      JObj [
        ("cell_type", JStr "code");
        ("execution_count", JNull);
        ("metadata", JObj []);
        ("outputs", JArr []);
        ("source", JArr [
          JStr "roller.mean()"])];
      JObj [
        ("cell_type", JStr "code");
        ("execution_count", JNull);
        ("metadata", JObj []);
        ("outputs", JArr []);
        ("source", JArr [
          JStr (ln "# we can also provide a custom function ");
          JStr (nl);
          JStr (ln "def sum_minus_2(da, axis):");
          JStr (ln "    return da.sum(axis=axis) - 2");
          JStr (nl);
          JStr "roller.reduce(sum_minus_2)"])];
      JObj [
        ("cell_type", JStr "markdown");
        ("metadata", JObj []);
        ("source", JArr [
          JStr (ln "## Universal Functions");
          JStr (nl);
          JStr (ln "In practice, not all use standard functions/methods from numpy and xarray is not allways possible. Sometimes there is good reason to work with numpy/dask array's directly. ");
          JStr (nl);
          JStr "Xarray's documentation on wrapping custom computations: http://xarray.pydata.org/en/latest/computation.html#wrapping-custom-computation"])];
      JObj [
        ("cell_type", JStr "code");
        ("execution_count", JNull);
        ("metadata", JObj []);
        ("outputs", JArr []);
        ("source", JArr [
          JStr (ln "da_noise = da + np.random.random(size=da.shape)");
          JStr "da_noise"])];
      JObj [
        ("cell_type", JStr "code");
        ("execution_count", JNull);
        ("metadata", JObj []);
        ("outputs", JArr []);
        ("source", JArr [
          JStr (ln "# some example legacy code to calculate the spearman correlation coefficient");
          JStr (nl);
          JStr (ln "import bottleneck");
          JStr (nl);
          JStr (nl);
          JStr (ln "def covariance_gufunc(x, y):");
          JStr (ln "    return ((x - x.mean(axis=-1, keepdims=True))");
          JStr (ln "            * (y - y.mean(axis=-1, keepdims=True))).mean(axis=-1)");
          JStr (nl);
          JStr (ln "def correlation_gufunc(x, y):");
          JStr (ln "    return covariance_gufunc(x, y) / (x.std(axis=-1) * y.std(axis=-1))");
          JStr (nl);
          JStr (ln "def spearman_correlation_gufunc(x, y):");
          JStr (ln "    x_ranks = bottleneck.rankdata(x, axis=-1)");
          JStr (ln "    y_ranks = bottleneck.rankdata(y, axis=-1)");
          JStr "    return correlation_gufunc(x_ranks, y_ranks)"])];
      JObj [
        ("cell_type", JStr "code");
        ("execution_count", JNull);
        ("metadata", JObj []);
        ("outputs", JArr []);
        ("source", JArr [
          JStr ("# Wrap the " +:+ dq +:+ "legacy code" +:+ dq +:+ " with xarray's apply_ufunc. " +:+ nl);
          JStr (ln "def spearman_correlation(x, y, dim):");
          JStr (ln "    return xr.apply_ufunc(");
          JStr (ln "        spearman_correlation_gufunc, x, y,");
          JStr (ln "        input_core_dims=[[dim], [dim]],");
          JStr (ln "        dask='parallelized',");
          JStr "        output_dtypes=[float])"])];
      JObj [
        ("cell_type", JStr "code");
        ("execution_count", JNull);
        ("metadata", JObj []);
        ("outputs", JArr []);
        ("source", JArr [
          JStr (ln "da_corr = corr = spearman_correlation(da, da_noise, 'time')");
          JStr "da_corr"])];
      JObj [
        ("cell_type", JStr "markdown");
        ("metadata", JObj []);
        ("source", JArr [
          JStr (ln "## Masking");
          JStr (nl);
          JStr "Indexing methods on xarray objects generally return a subset of the original data. However, it is sometimes useful to select an object with the same shape as the original data, but with some elements masked. To do this type of selection in xarray, use where():"])];
      JObj [
        ("cell_type", JStr "code");
        ("execution_count", JNull);
        ("metadata", JObj []);
        ("outputs", JArr []);
        ("source", JArr [
          JStr (ln "# mask out 1's in the correlation array");
          JStr (nl);
          JStr "da_corr.where(da_corr < 1)"])];
      JObj [
        ("cell_type", JStr "code");
        ("execution_count", JNull);
        ("metadata", JObj []);
        ("outputs", JArr []);
        ("source", JArr [
          JStr (ln "# xarray also provides a function for where");
          JStr "xr.where(da_corr > 0.996, 0, 1)"])];
      JObj [
        ("cell_type", JStr "code");
        ("execution_count", JNull);
        ("metadata", JObj []);
        ("outputs", JArr []);
        ("source", JArr [])]]);
    ("metadata", JObj [
      ("kernelspec", JObj [
        ("display_name", JStr "Python 3");
        ("language", JStr "python");
        ("name", JStr "python3")]);
      ("language_info", JObj [
        ("codemirror_mode", JObj [
          ("name", JStr "ipython");
          ("version", JNum 3)]);
        ("file_extension", JStr ".py");
        ("mimetype", JStr "text/x-python");
        ("name", JStr "python");
        ("nbconvert_exporter", JStr "python");
        ("pygments_lexer", JStr "ipython3");
        ("version", JStr "3.6.5")])]);
    ("nbformat", JNum 4);
    ("nbformat_minor", JNum 2)].

(** ** The code cells as syntax trees, in document order *)

Definition lat_lon_time : expr := Tuple [Str "lat"; Str "lon"; Str "time"].

Definition lat_lon_coords : expr :=
  Dict [(Str "lat", ListE [Num "15."; Num "30."]);
        (Str "lon", ListE [USub (Num "110."); USub (Num "115."); USub (Num "120.")])].

(** tutorial/1.1.xarray-data-structures.ipynb *)
Definition data_structures_code : list (list stmt) := [
  (* In [1] *)
  [ Import "numpy" (Some "np");
    Import "xarray" (Some "xr") ];
  (* In [2] *)
  [ Assign [Name "myvar"]
      (Call (Attribute (Attribute (Name "np") "random") "random") []
            [("size", Tuple [Num "2"; Num "3"; Num "6"])]);
    Expr (Name "myvar") ];
  (* In [3] *)
  [ Assign [Name "my_da"]
      (Call (Attribute (Name "xr") "DataArray") [Name "myvar"] []);
    Expr (Name "my_da") ];
  (* In [4] *)
  [ Assign [Name "my_da"]
      (Call (Attribute (Name "xr") "DataArray") [Name "myvar"]
            [("dims", lat_lon_time);
             ("coords", lat_lon_coords);
             ("attrs", Dict [(Str "long_name", Str "temperature"); (Str "units", Str "C")]);
             ("name", Str "temp")]);
    Expr (Name "my_da") ];
  (* In [5] *)
  [ Expr (Attribute (Name "my_da") "data") ];
  (* In [6] *)
  [ Expr (Call (Attribute (Name "xr") "Dataset") [] []) ];
  (* In [7] *)
  [ Assign [Name "my_ds"]
      (Call (Attribute (Name "xr") "Dataset")
            [Dict [(Str "temperature", Name "my_da")]] []);
    Expr (Name "my_ds") ];
  (* In [8] *)
  [ Assign [Subscript (Name "my_ds") (Str "precipitation")]
      (Call (Attribute (Name "xr") "DataArray")
            [Call (Attribute (Attribute (Name "np") "random") "random")
                  [Attribute (Name "myvar") "shape"] []]
            [("dims", lat_lon_time);
             ("coords", lat_lon_coords);
             ("attrs", Dict [(Str "long_name", Str "precipitation"); (Str "units", Str "mm")]);
             ("name", Str "pcp")]);
    Assign [Subscript (Attribute (Name "my_ds") "attrs") (Str "history")]
      (Str "created for the xarray tutorial") ];
  (* In [9] *)
  [ Expr (Name "my_ds") ];
  (* In [ ] *)
  [] ].

Definition axis_last : string * expr := ("axis", USub (Num "1")).

(** x - x.mean(axis=-1, keepdims=True) *)
Definition centered (x : string) : expr :=
  BinOp (Name x) Sub
        (Call (Attribute (Name x) "mean") []
              [axis_last; ("keepdims", NameConstant "True")]).

Definition def_sum_minus_2 : stmt :=
  FunctionDef "sum_minus_2" ["da"; "axis"]
    [ Return (BinOp (Call (Attribute (Name "da") "sum") [] [("axis", Name "axis")])
                    Sub (Num "2")) ].

Definition def_covariance_gufunc : stmt :=
  FunctionDef "covariance_gufunc" ["x"; "y"]
    [ Return (Call (Attribute (BinOp (centered "x") Mult (centered "y")) "mean")
                   [] [axis_last]) ].

Definition def_correlation_gufunc : stmt :=
  FunctionDef "correlation_gufunc" ["x"; "y"]
    [ Return (BinOp (Call (Name "covariance_gufunc") [Name "x"; Name "y"] [])
                    Div
                    (BinOp (Call (Attribute (Name "x") "std") [] [axis_last])
                           Mult
                           (Call (Attribute (Name "y") "std") [] [axis_last]))) ].

Definition def_spearman_correlation_gufunc : stmt :=
  FunctionDef "spearman_correlation_gufunc" ["x"; "y"]
    [ Assign [Name "x_ranks"]
        (Call (Attribute (Name "bottleneck") "rankdata") [Name "x"] [axis_last]);
      Assign [Name "y_ranks"]
        (Call (Attribute (Name "bottleneck") "rankdata") [Name "y"] [axis_last]);
      Return (Call (Name "correlation_gufunc") [Name "x_ranks"; Name "y_ranks"] []) ].

Definition def_spearman_correlation : stmt :=
  FunctionDef "spearman_correlation" ["x"; "y"; "dim"]
    [ Return (Call (Attribute (Name "xr") "apply_ufunc")
                   [Name "spearman_correlation_gufunc"; Name "x"; Name "y"]
                   [("input_core_dims", ListE [ListE [Name "dim"]; ListE [Name "dim"]]);
                    ("dask", Str "parallelized");
                    ("output_dtypes", ListE [Name "float"])]) ].

(** tutorial/.ipynb_checkpoints/1.3.xarray-computation-toolkit-checkpoint.ipynb *)
Definition computation_toolkit_code : list (list stmt) := [
  [ Import "numpy" (Some "np");
    Import "xarray" (Some "xr") ];
  [ Assign [Name "ds"]
      (Call (Attribute (Attribute (Name "xr") "tutorial") "load_dataset") [Str "rasm"] []);
    Assign [Name "da"] (Subscript (Name "ds") (Str "Tair"));
    Expr (Name "ds") ];
  [ Expr (Call (Attribute (Name "da") "mean") [] [("dim", Tuple [Str "x"; Str "y"])]) ];
  [ Expr (BinOp (Name "da") Sub (Num "273.15")) ];
  [ Assign [Name "da_mean"]
      (Call (Attribute (Name "da") "mean") [] [("dim", Str "time")]);
    Expr (Name "da_mean") ];
  [ Expr (BinOp (Name "da") Sub (Name "da_mean")) ];
  [ Assign [Name "da_climatology"]
      (Call (Attribute (Call (Attribute (Name "da") "groupby") [Str "time.month"] []) "mean")
            [Str "time"] []);
    Expr (Name "da_climatology") ];
  [ Assign [Name "roller"]
      (Call (Attribute (Name "da") "rolling") [] [("time", Num "3")]);
    Expr (Name "roller") ];
  [ Expr (Call (Attribute (Name "roller") "mean") [] []) ];
  [ def_sum_minus_2;
    Expr (Call (Attribute (Name "roller") "reduce") [Name "sum_minus_2"] []) ];
  [ Assign [Name "da_noise"]
      (BinOp (Name "da") Add
             (Call (Attribute (Attribute (Name "np") "random") "random") []
                   [("size", Attribute (Name "da") "shape")]));
    Expr (Name "da_noise") ];
  [ Import "bottleneck" None;
    def_covariance_gufunc;
    def_correlation_gufunc;
    def_spearman_correlation_gufunc ];
  [ def_spearman_correlation ];
  [ Assign [Name "da_corr"; Name "corr"]
      (Call (Name "spearman_correlation") [Name "da"; Name "da_noise"; Str "time"] []);
    Expr (Name "da_corr") ];
  [ Expr (Call (Attribute (Name "da_corr") "where")
               [Compare (Name "da_corr") Lt (Num "1")] []) ];
  [ Expr (Call (Attribute (Name "xr") "where")
               [Compare (Name "da_corr") Gt (Num "0.996"); Num "0"; Num "1"] []) ];
  [] ].

(** ** Syntactic analyses of the code cells *)

(** An expression with all the expressions inside it. *)
Fixpoint subexprs (e : expr) : list expr :=
  e ::
  match e with
  | Name _ | Num _ | Str _ | NameConstant _ => []
  | Attribute v _ => subexprs v
  | Subscript v i => subexprs v ++ subexprs i
  | Call f args kws =>
      subexprs f ++ flat_map subexprs args ++ flat_map (fun kw => subexprs kw.2) kws
  | BinOp l _ r => subexprs l ++ subexprs r
  | Compare l _ r => subexprs l ++ subexprs r
  | USub v | Await v | Yield v => subexprs v
  | Tuple es | ListE es => flat_map subexprs es
  | Dict kvs => flat_map (fun kv => subexprs kv.1 ++ subexprs kv.2) kvs
  | Lambda _ b => subexprs b
  end.

(** A statement with all the statements nested in its blocks. *)
Fixpoint substmts (s : stmt) : list stmt :=
  s ::
  match s with
  | FunctionDef _ _ b | AsyncFunctionDef _ _ b => flat_map substmts b
  | If _ b o => flat_map substmts b ++ flat_map substmts o
  | For _ _ b | While _ b | With _ b => flat_map substmts b
  | Try b hs f =>
      flat_map substmts b ++ flat_map (flat_map substmts) hs ++ flat_map substmts f
  | _ => []
  end.

(** The expressions a statement holds itself (not those of nested statements). *)
Definition stmt_exprs (s : stmt) : list expr :=
  match s with
  | Assign ts v => ts ++ [v]
  | Expr v | Return v | Raise v => [v]
  | If t _ _ | While t _ => [t]
  | For t i _ => [t; i]
  | With xs _ => xs
  | _ => []
  end.

Definition cell_stmts (body : list stmt) : list stmt := flat_map substmts body.

Definition cell_exprs (body : list stmt) : list expr :=
  flat_map (fun s => flat_map subexprs (stmt_exprs s)) (cell_stmts body).

(** Import, assignment, expression statement: one step of a straight line. *)
Definition is_simple (s : stmt) : bool :=
  match s with
  | Import _ _ | Assign _ _ | Expr _ => true
  | _ => false
  end.

Definition is_def (s : stmt) : bool :=
  match s with
  | FunctionDef _ _ _ | AsyncFunctionDef _ _ _ => true
  | _ => false
  end.

Definition is_control_flow (s : stmt) : bool :=
  match s with
  | If _ _ _ | For _ _ _ | While _ _ | Try _ _ _ | With _ _ | Raise _ => true
  | _ => false
  end.

(** try (except / finally) and with are the forms that intercept an
    exception; raise is the form that starts one. *)
Definition handles_exception (s : stmt) : bool :=
  match s with
  | Try _ _ _ | With _ _ => true
  | _ => false
  end.

Definition raises_exception (s : stmt) : bool :=
  match s with Raise _ => true | _ => false end.

(** Forms that suspend or hand over control: coroutines and generators. *)
Definition suspends_stmt (s : stmt) : bool :=
  match s with AsyncFunctionDef _ _ _ => true | _ => false end.

Definition suspends_expr (e : expr) : bool :=
  match e with Await _ | Yield _ => true | _ => false end.

(** A cell that is nothing but a sequence of imports, assignments and
    expression statements. *)
Definition sequential_calls_only (body : list stmt) : bool :=
  forallb is_simple body.

Definition def_name (s : stmt) : option string :=
  match s with
  | FunctionDef n _ _ | AsyncFunctionDef n _ _ => Some n
  | _ => None
  end.

(** The functions a notebook defines, in order. *)
Definition defined_functions (code : list (list stmt)) : list string :=
  omap def_name (flat_map cell_stmts code).

Definition imported_modules (code : list (list stmt)) : list string :=
  omap (fun s => match s with Import m _ => Some m | _ => None end)
       (flat_map cell_stmts code).

(** The positions (among the code cells) of the cells that are more than a
    sequence of simple statements. *)
Definition cells_with_logic (code : list (list stmt)) : list nat :=
  omap (fun ic => if sequential_calls_only ic.2 then None else Some ic.1)
       (imap (fun i c => (i, c)) code).

(** The callee of every call in the cell that is a bare name (not a method
    or a module attribute). *)
Definition bare_callees (body : list stmt) : list string :=
  omap (fun e => match e with Call (Name f) _ _ => Some f | _ => None end)
       (cell_exprs body).

(** The operators the notebook's own function bodies apply: arithmetic
    written in the repository. *)
Definition body_operators (s : stmt) : list operator :=
  match s with
  | FunctionDef _ _ b =>
      omap (fun e => match e with BinOp _ op _ => Some op | _ => None end) (cell_exprs b)
  | _ => []
  end.

(** *** Names bound, read and mutated *)

(** The names an expression reads. *)
Fixpoint expr_names (e : expr) : list string :=
  match e with
  | Name id => [id]
  | Num _ | Str _ | NameConstant _ => []
  | Attribute v _ => expr_names v
  | Subscript v i => expr_names v ++ expr_names i
  | Call f args kws =>
      expr_names f ++ flat_map expr_names args ++ flat_map (fun kw => expr_names kw.2) kws
  | BinOp l _ r => expr_names l ++ expr_names r
  | Compare l _ r => expr_names l ++ expr_names r
  | USub v | Await v | Yield v => expr_names v
  | Tuple es | ListE es => flat_map expr_names es
  | Dict kvs => flat_map (fun kv => expr_names kv.1 ++ expr_names kv.2) kvs
  | Lambda ps b => filter (fun x => x ∉ ps) (expr_names b)
  end.

(** An assignment target binds a name, or stores into an object that an
    expression (which it reads) denotes. *)
Definition target_binds (t : expr) : list string :=
  match t with
  | Name x => [x]
  | Tuple es | ListE es =>
      omap (fun e => match e with Name x => Some x | _ => None end) es
  | _ => []
  end.

Definition target_reads (t : expr) : list string :=
  match t with
  | Name _ => []
  | _ => expr_names t
  end.

(** The variable whose object a subscript or attribute store changes in
    place: my_ds in my_ds['precipitation'] = ... and in
    my_ds.attrs['history'] = ... *)
Fixpoint store_root (e : expr) : list string :=
  match e with
  | Name x => [x]
  | Attribute v _ | Subscript v _ => store_root v
  | _ => []
  end.

Definition target_mutates (t : expr) : list string :=
  match t with
  | Attribute v _ | Subscript v _ => store_root v
  | _ => []
  end.

Definition import_binds (m : string) (a : option string) : string :=
  match a with Some x => x | None => m end.

Fixpoint stmt_binds (s : stmt) : list string :=
  match s with
  | Import m a => [import_binds m a]
  | Assign ts _ => flat_map target_binds ts
  | FunctionDef n _ _ | AsyncFunctionDef n _ _ => [n]
  | If _ b o => flat_map stmt_binds b ++ flat_map stmt_binds o
  | For t _ b => target_binds t ++ flat_map stmt_binds b
  | While _ b | With _ b => flat_map stmt_binds b
  | Try b hs f =>
      flat_map stmt_binds b ++ flat_map (flat_map stmt_binds) hs ++ flat_map stmt_binds f
  | _ => []
  end.

(** The names a statement reads from the scope around it.  Inside a
    function the parameters and every name the body assigns are local.
    The reading is lexical: the free names of a function body are counted
    where the function is defined (Python looks them up when it is called). *)
Fixpoint stmt_reads (s : stmt) : list string :=
  match s with
  | Import _ _ => []
  | Assign ts v => expr_names v ++ flat_map target_reads ts
  | Expr v | Return v | Raise v => expr_names v
  | FunctionDef _ ps b | AsyncFunctionDef _ ps b =>
      filter (fun x => x ∉ ps ++ flat_map stmt_binds b) (flat_map stmt_reads b)
  | If t b o => expr_names t ++ flat_map stmt_reads b ++ flat_map stmt_reads o
  | For t i b => expr_names i ++ target_reads t ++ flat_map stmt_reads b
  | While t b => expr_names t ++ flat_map stmt_reads b
  | With xs b => flat_map expr_names xs ++ flat_map stmt_reads b
  | Try b hs f =>
      flat_map stmt_reads b ++ flat_map (flat_map stmt_reads) hs ++ flat_map stmt_reads f
  end.

Definition stmt_mutates (s : stmt) : list string :=
  match s with
  | Assign ts _ => flat_map target_mutates ts
  | _ => []
  end.

Definition cell_binds (body : list stmt) : list string := flat_map stmt_binds body.
Definition cell_mutates (body : list stmt) : list string :=
  flat_map stmt_mutates (cell_stmts body).

(** The names a cell reads that it has not itself bound earlier: what it
    takes from the cells before it. *)
Fixpoint reads_from_outside (bound : list string) (body : list stmt) : list string :=
  match body with
  | [] => []
  | s :: rest =>
      filter (fun x => x ∉ bound) (stmt_reads s)
      ++ reads_from_outside (stmt_binds s ++ bound) rest
  end.

Definition cell_reads (body : list stmt) : list string := reads_from_outside [] body.

(** Python builtins the cells name. *)
Definition builtins : list string := ["float"].

(** Every name read is bound by an earlier statement (of this or an earlier
    cell) or is a builtin. *)
Fixpoint well_scoped (bound : list string) (prog : list stmt) : bool :=
  match prog with
  | [] => true
  | s :: rest =>
      forallb (fun x => bool_decide (x ∈ bound ++ builtins)) (stmt_reads s)
      && well_scoped (stmt_binds s ++ bound) rest
  end.

(** The data flow between cells: (i, j, x) when cell j reads the name x that
    cell i, the latest before it to do so, bound or changed in place. *)
Definition last_writer (code : list (list stmt)) (j : nat) (x : string) : option nat :=
  last (omap (fun ic => if bool_decide (x ∈ cell_binds ic.2 ++ cell_mutates ic.2)
                        then Some ic.1 else None)
             (imap (fun i c => (i, c)) (take j code))).

Definition cell_flows (code : list (list stmt)) : list (nat * nat * string) :=
  flat_map (fun jc =>
              omap (fun x => i ← last_writer code jc.1 x; Some (i, jc.1, x))
                   (remove_dups (cell_reads jc.2)))
           (imap (fun j c => (j, c)) code).

(** No value bound or changed in one cell is read by a later one. *)
Definition cells_independent (code : list (list stmt)) : Prop :=
  forall (i j : nat) (ci cj : list stmt) (x : string),
    (i < j)%nat -> code !! i = Some ci -> code !! j = Some cj ->
    x ∈ cell_binds ci ++ cell_mutates ci -> x ∉ cell_reads cj.

(** ** Claims about the notebooks as a whole *)

(** The claim that every code cell is a sequence of library calls and that
    the notebook defines nothing of its own. *)
Definition delegated_entirely (code : list (list stmt)) : Prop :=
  (forall body, body ∈ code -> sequential_calls_only body = true)
  /\ defined_functions code = [].

Definition all_stmts (code : list (list stmt)) : list stmt :=
  flat_map cell_stmts code.
Definition all_exprs (code : list (list stmt)) : list expr :=
  flat_map cell_exprs code.

(** Every captured output of the cell is an execute_result carrying the
    cell's own execution count and a text/plain rendering. *)
Definition output_matches (n : option Z) (o : output) : bool :=
  match o with
  | execute_result m d =>
      bool_decide (m = n) && bool_decide (map fst d = ["text/plain"])
  | _ => false
  end.

Definition outputs_captured (c : cell) : bool :=
  match c with
  | code_cell n outs _ => forallb (output_matches n) outs
  | _ => true
  end.

Definition count_where {A : Type} (p : A -> bool) (l : list A) : nat :=
  length (List.filter p l).

(** ** The xarray objects the data-structures notebook builds

    Labeled arrays and datasets, after xarray's data model: a DataArray carries values,
    dimension names, labels (index coordinates) for some of its dimensions,
    attributes and a name; a Dataset holds variables by name, the size of
    every dimension, and one set of labels per dimension, shared by all its
    variables. *)

(** The generator behind numpy.random: a stream of reals and how many have
    been drawn. *)
Record rng : Type := {
  draws : nat -> R;
  drawn : nat
}.

(** np.random.random(size): an array of that shape filled with the next
    draws. *)
Definition np_random_random (g : rng) (size : list nat) : nparray * rng :=
  ({| shape := size;
      values := map (fun i => Some (draws g (drawn g + i))) (seq 0 (product size)) |},
   {| draws := draws g; drawn := drawn g + product size |}).

Record DataArray : Type := {
  da_values : nparray;
  da_dims : list string;
  da_coords : gmap string (list R);
  da_attrs : gmap string string;
  da_name : option string
}.

Record DataVariable : Type := {
  var_dims : list string;
  var_values : nparray;
  var_attrs : gmap string string
}.

Record Dataset : Type := {
  data_vars : gmap string DataVariable;
  ds_dims : gmap string nat;
  ds_coords : gmap string (list R);
  ds_attrs : gmap string string
}.

(** dim_0, dim_1, ...: the names xarray gives when none are passed. *)
Definition default_dims (n : nat) : list string :=
  map (fun i => "dim_" +:+ pretty i) (seq 0 n).

(** The size of dimension [d] of an array with dimensions [dims]. *)
Fixpoint dim_size (dims : list string) (s : list nat) (d : string) : option nat :=
  match dims, s with
  | d' :: dims', n :: s' => if decide (d = d') then Some n else dim_size dims' s' d
  | _, _ => None
  end.

(** xr.DataArray(data, dims=, coords=, attrs=, name=).  ValueError when the
    number of names is not the rank of the data, or when labels are given
    for something that is no dimension or do not number the dimension's
    size. *)
Definition xr_DataArray (data : nparray) (dims : option (list string))
    (coords : gmap string (list R)) (attrs : gmap string string)
    (name : option string) : result DataArray :=
  let dims := default (default_dims (length (shape data))) dims in
  if decide (length dims = length (shape data)
             /\ map_Forall (fun d labels => dim_size dims (shape data) d = Some (length labels))
                           coords)
  then Returns {| da_values := data; da_dims := dims; da_coords := coords;
                  da_attrs := attrs; da_name := name |}
  else Raises ValueError.

Definition empty_Dataset : Dataset :=
  {| data_vars := ∅; ds_dims := ∅; ds_coords := ∅; ds_attrs := ∅ |}.

Fixpoint index_of (x : R) (l : list R) : option nat :=
  match l with
  | [] => None
  | y :: rest => if decide (x = y) then Some 0 else S <$> index_of x rest
  end.

(** Reindexing along one axis: the slice of every new label is the slice the
    label had, or missing values where it had none. *)
Definition reindex_axis (old new : list R) (axis : nat) (a : nparray) : nparray :=
  let outer := product (take axis (shape a)) in
  let inner := product (drop (S axis) (shape a)) in
  let n := length old in
  {| shape := <[axis := length new]> (shape a);
     values :=
       flat_map (fun o =>
         flat_map (fun label =>
           match index_of label old with
           | Some p => take inner (drop ((o * n + p) * inner) (values a))
           | None => replicate inner None
           end) new) (seq 0 outer) |}.

(** Aligning one dimension (at position [axis], named [d]) of an incoming
    array with a dataset: its labels must become the dataset's, by
    reindexing where they differ; without labels on one side the sizes must
    agree. *)
Definition align_dim (ds : Dataset) (a : DataArray) (axis : nat) (d : string)
    : result DataArray :=
  match ds_dims ds !! d, dim_size (da_dims a) (shape (da_values a)) d with
  | Some m, Some n =>
      match ds_coords ds !! d, da_coords a !! d with
      | Some labels, Some labels_a =>
          if decide (labels_a = labels) then Returns a
          else Returns {| da_values := reindex_axis labels_a labels axis (da_values a);
                          da_dims := da_dims a;
                          da_coords := <[d := labels]> (da_coords a);
                          da_attrs := da_attrs a;
                          da_name := da_name a |}
      | _, _ => if decide (n = m) then Returns a else Raises ValueError
      end
  | _, _ => Returns a
  end.

Fixpoint align_dims (ds : Dataset) (a : DataArray) (axis : nat) (dims : list string)
    : result DataArray :=
  match dims with
  | [] => Returns a
  | d :: rest => a' ← align_dim ds a axis d; align_dims ds a' (S axis) rest
  end.

(** The sizes of the dimensions of an array, by name. *)
Fixpoint dim_sizes (dims : list string) (s : list nat) : gmap string nat :=
  match dims, s with
  | d :: dims', n :: s' => <[d := n]> (dim_sizes dims' s')
  | _, _ => ∅
  end.

(** ds[name] = array: the array is aligned with the dataset's labels and
    stored; dimensions and labels the dataset did not have are added. *)
Definition Dataset_setitem (ds : Dataset) (name : string) (a : DataArray)
    : result Dataset :=
  a' ← align_dims ds a 0 (da_dims a);
  Returns {| data_vars := <[name := {| var_dims := da_dims a';
                                      var_values := da_values a';
                                      var_attrs := da_attrs a' |}]> (data_vars ds);
             ds_dims := ds_dims ds ∪ dim_sizes (da_dims a') (shape (da_values a'));
             ds_coords := ds_coords ds ∪ da_coords a';
             ds_attrs := ds_attrs ds |}.

(** xr.Dataset() and xr.Dataset({name: array}), the two ways the notebook
    calls it.  (Given several arrays xarray first joins their labels; with
    at most one there is nothing to join.) *)
Definition xr_Dataset (data_vars : option (string * DataArray)) : result Dataset :=
  match data_vars with
  | None => Returns empty_Dataset
  | Some (name, a) => Dataset_setitem empty_Dataset name a
  end.

(** A one-dimensional array on the dimension it is named after: what
    xarray keeps a coordinate as, with its labels attached to it as its own
    coordinate, and what it makes up, without labels, for a dimension that
    has none. *)
Definition coordinate_array (name : string) (labels : list R) : DataArray :=
  {| da_values := vec labels; da_dims := [name];
     da_coords := {[name := labels]}; da_attrs := ∅; da_name := Some name |}.

Definition default_index (name : string) (n : nat) : DataArray :=
  {| da_values := vec (map INR (seq 0 n)); da_dims := [name];
     da_coords := ∅; da_attrs := ∅; da_name := Some name |}.

(** ds[name]: a data variable as a labeled array, with the dataset's labels
    for its dimensions; a coordinate as the array of its labels; a dimension
    without labels as the array 0 .. n-1; KeyError for any other name. *)
Definition Dataset_getitem (ds : Dataset) (name : string) : result DataArray :=
  match data_vars ds !! name with
  | Some v =>
      Returns {| da_values := var_values v;
                 da_dims := var_dims v;
                 da_coords := filter (fun kv => kv.1 ∈ var_dims v) (ds_coords ds);
                 da_attrs := var_attrs v;
                 da_name := Some name |}
  | None =>
      match ds_coords ds !! name with
      | Some labels => Returns (coordinate_array name labels)
      | None =>
          match ds_dims ds !! name with
          | Some n => Returns (default_index name n)
          | None => Raises KeyError
          end
      end
  end.

(** ds.attrs[key] = value *)
Definition Dataset_set_attr (ds : Dataset) (key value : string) : Dataset :=
  {| data_vars := data_vars ds; ds_dims := ds_dims ds; ds_coords := ds_coords ds;
     ds_attrs := <[key := value]> (ds_attrs ds) |}.

(** *** The cells of the data-structures notebook, run in order *)

Definition lat_labels : list R := [15; 30]%R.
Definition lon_labels : list R := [-110; -115; -120]%R.

Definition lat_lon : gmap string (list R) :=
  {["lat" := lat_labels; "lon" := lon_labels]}.

(** The dataset as cell In [7] shows it and as cell In [9] shows it. *)
Definition data_structures_run (g : rng) : result (Dataset * Dataset) :=
  (* In [2] *)
  let '(myvar, g) := np_random_random g [2; 3; 6] in
  (* In [3] *)
  my_da ← xr_DataArray myvar None ∅ ∅ None;
  (* In [4] *)
  my_da ← xr_DataArray myvar (Some ["lat"; "lon"; "time"]) lat_lon
            {["long_name" := "temperature"; "units" := "C"]} (Some "temp");
  (* In [6] *)
  _ ← xr_Dataset None;
  (* In [7] *)
  my_ds ← xr_Dataset (Some ("temperature", my_da));
  let shown_7 := my_ds in
  (* In [8] *)
  let '(noise, g) := np_random_random g (shape myvar) in
  pcp ← xr_DataArray noise (Some ["lat"; "lon"; "time"]) lat_lon
          {["long_name" := "precipitation"; "units" := "mm"]} (Some "pcp");
  my_ds ← Dataset_setitem my_ds "precipitation" pcp;
  let my_ds := Dataset_set_attr my_ds "history" "created for the xarray tutorial" in
  (* In [9] *)
  Returns (shown_7, my_ds).

(** A labeled array on ('lat', 'lon', 'time') with the notebook's labels. *)
Definition on_lat_lon_time (a : DataArray) : Prop :=
  da_dims a = ["lat"; "lon"; "time"]
  /\ shape (da_values a) = [2; 3; 6]
  /\ da_coords a !! "lat" = Some lat_labels
  /\ da_coords a !! "lon" = Some lon_labels
  /\ da_coords a !! "time" = None.

(** An aligned collection: every variable's dimensions have the sizes the
    dataset records, and the labels of a dimension number its size. *)
Definition aligned (ds : Dataset) : Prop :=
  map_Forall (fun _ v =>
                Forall2 (fun d n => ds_dims ds !! d = Some n)
                        (var_dims v) (shape (var_values v)))
             (data_vars ds)
  /\ map_Forall (fun d labels => ds_dims ds !! d = Some (length labels))
                (ds_coords ds).

(** ** What the function bodies denote

    A reading of the syntax the notebook's functions are written in, over
    any implementation of the library: names, integer literals, True and
    False, the arithmetic operators, the array methods mean, std and sum,
    bottleneck.rankdata, calls of functions defined earlier, local
    assignments and return.  It links the syntax trees of the definitions
    to the functions of Section Authored. *)

Fixpoint digits_value (acc : Z) (cs : list ascii) : option Z :=
  match cs with
  | [] => Some acc
  | c :: rest =>
      if is_digit c
      then digits_value (10 * acc + Z.of_nat (char_code c - 48)) rest
      else None
  end.

(** The value of an integer literal. *)
Definition int_literal (text : string) : option Z :=
  match String.list_ascii_of_string text with
  | [] => None
  | cs => digits_value 0 cs
  end.

Section Denotation.
Context {arr : Type} `{ArrayLib arr}.

Inductive value : Type :=
| VArr (a : arr)
| VInt (z : Z)
| VBool (b : bool)
| VModule (name : string)
| VNone.

(** A Python number as an operand of an array operation. *)
Definition operand (v : value) : result arr :=
match v with
| VArr a => Returns a
| VInt z => Returns (of_int z)
| _ => Raises TypeError
end.

Definition binop (op : operator) (l r : value) : result value :=
match op, l, r with
| Add, VInt a, VInt b => Returns (VInt (a + b))
| Sub, VInt a, VInt b => Returns (VInt (a - b))
| Mult, VInt a, VInt b => Returns (VInt (a * b))
| Add, _, _ => Raises TypeError
| Sub, _, _ => a ← operand l; b ← operand r; VArr <$> sub a b
| Mult, _, _ => a ← operand l; b ← operand r; VArr <$> mul a b
| Div, _, _ => a ← operand l; b ← operand r; VArr <$> truediv a b
end.

(** The methods and module functions the bodies call, by name and
  arguments. *)
Definition call_method (obj : value) (method : string) (args : list value)
  (kws : list (string * value)) : result value :=
match obj, args, kws with
| VArr a, [], [(k1, VInt z); (k2, VBool keep)] =>
    if decide (method = "mean" /\ k1 = "axis" /\ z = (-1)%Z /\ k2 = "keepdims")
    then VArr <$> mean_last a keep
    else Raises TypeError
| VArr a, [], [(k1, VInt z)] =>
    if decide (method = "sum" /\ k1 = "axis") then VArr <$> sum_axis a z
    else if decide (method = "mean" /\ k1 = "axis" /\ z = (-1)%Z)
    then VArr <$> mean_last a false
    else if decide (method = "std" /\ k1 = "axis" /\ z = (-1)%Z)
    then VArr <$> std_last a
    else Raises TypeError
| VModule m, [VArr a], [(k1, VInt z)] =>
    if decide (m = "bottleneck" /\ method = "rankdata" /\ k1 = "axis" /\ z = (-1)%Z)
    then VArr <$> rankdata a
    else Raises TypeError
| _, _, _ => Raises TypeError
end.

(** The names in scope and the functions defined so far. *)
Definition scope : Type := list (string * value).
Definition functions : Type := list (string * (list value -> result value)).

Fixpoint eval (fs : functions) (rho : scope) (e : expr) : result value :=
let eval_all :=
  fix go (es : list expr) : result (list value) :=
    match es with
    | [] => Returns []
    | e :: rest => v ← eval fs rho e; vs ← go rest; Returns (v :: vs)
    end in
let eval_kws :=
  fix go (kws : list (string * expr)) : result (list (string * value)) :=
    match kws with
    | [] => Returns []
    | (k, e) :: rest => v ← eval fs rho e; vs ← go rest; Returns ((k, v) :: vs)
    end in
match e with
| Name x => match assoc x rho with Some v => Returns v | None => Raises NameError end
| Num t => match int_literal t with Some z => Returns (VInt z) | None => Raises TypeError end
| NameConstant c =>
    if decide (c = "True") then Returns (VBool true)
    else if decide (c = "False") then Returns (VBool false)
    else Returns VNone
| USub v =>
    r ← eval fs rho v;
    match r with VInt z => Returns (VInt (- z)) | _ => Raises TypeError end
| BinOp l op r => a ← eval fs rho l; b ← eval fs rho r; binop op a b
| Call (Attribute obj method) args kws =>
    o ← eval fs rho obj;
    vs ← eval_all args;
    ks ← eval_kws kws;
    call_method o method vs ks
| Call (Name f) args [] =>
    vs ← eval_all args;
    match assoc f fs with Some g => g vs | None => Raises NameError end
| _ => Raises TypeError
end.

(** A function body: local assignments, then return. *)
Fixpoint exec (fs : functions) (rho : scope) (body : list stmt) : result value :=
match body with
| [] => Returns VNone
| Assign [Name x] e :: rest => v ← eval fs rho e; exec fs ((x, v) :: rho) rest
| Return e :: _ => eval fs rho e
| _ => Raises TypeError
end.

(** Calling a definition: the parameters bound to the arguments, in front
  of the module-level names. *)
Definition call (fs : functions) (globals : scope) (d : stmt) (args : list value)
  : result value :=
match d with
| FunctionDef _ params body =>
    if decide (length params = length args)
    then exec fs (zip params args ++ globals) body
    else Raises TypeError
| _ => Raises TypeError
end.

(** The module-level names the bodies use, and the functions of the
  notebook as they become defined, in cell order. *)
Definition notebook_globals : scope := [("bottleneck", VModule "bottleneck")].

Definition functions_1 : functions :=
[("covariance_gufunc", call [] notebook_globals def_covariance_gufunc)].
Definition functions_2 : functions :=
("correlation_gufunc", call functions_1 notebook_globals def_correlation_gufunc)
:: functions_1.

End Denotation.

(** ** Shapes that broadcast together *)

(** Two sizes of one dimension that numpy can run together. *)
Definition compatible (n1 n2 : nat) : Prop := n1 = n2 \/ n1 = 1 \/ n2 = 1.

(** [s1] and [s2], of one rank, broadcast to [s], dimension by dimension. *)
Definition broadcasts_to (s1 s2 s : list nat) : Prop :=
  Forall3 (fun n1 n2 d => broadcast_dim n1 n2 = Some d) s1 s2 s.

(** The values of x - x.mean(axis=-1, keepdims=True). *)
Definition centred_values (x : nparray) : list num :=
  broadcast_values num_sub (shape x) (leading (shape x) ++ [1])
                   (values x) (map num_mean (rows x)).

Definition centred_array (x : nparray) : nparray :=
  {| shape := shape x; values := centred_values x |}.

(** bottleneck.rankdata(x, axis=-1) for an array of rank at least 1. *)
Definition ranked (x : nparray) : nparray :=
  {| shape := shape x; values := concat (map rank_row (rows x)) |}.

(** A value that, when it is a real, lies between -1 and 1. *)
Definition in_unit_range (v : num) : Prop :=
  forall c : R, v = Some c -> (-1 <= c <= 1)%R.

(** A row whose entries are all one value. *)
Definition constant (r : list R) : Prop := exists c : R, Forall (fun x => x = c) r.

(** ** The dataset of the data-structures notebook *)

Definition temperature_attrs : gmap string string :=
  {["long_name" := "temperature"; "units" := "C"]}.
Definition precipitation_attrs : gmap string string :=
  {["long_name" := "precipitation"; "units" := "mm"]}.

(** The dataset as In [7] and as In [9] show it, for the two arrays drawn. *)
Definition shown_7 (myvar : nparray) : Dataset :=
  {| data_vars := {["temperature" :=
                      {| var_dims := ["lat"; "lon"; "time"];
                         var_values := myvar; var_attrs := temperature_attrs |}]};
     ds_dims := ∅ ∪ dim_sizes ["lat"; "lon"; "time"] (shape myvar);
     ds_coords := ∅ ∪ lat_lon;
     ds_attrs := ∅ |}.

Definition shown_9 (myvar noise : nparray) : Dataset :=
  {| data_vars :=
       <["precipitation" := {| var_dims := ["lat"; "lon"; "time"];
                                var_values := noise; var_attrs := precipitation_attrs |}]>
         (data_vars (shown_7 myvar));
     ds_dims := ds_dims (shown_7 myvar) ∪ dim_sizes ["lat"; "lon"; "time"] (shape noise);
     ds_coords := ds_coords (shown_7 myvar) ∪ lat_lon;
     ds_attrs := {["history" := "created for the xarray tutorial"]} |}.


(** ** What the notebook's functions take from outside themselves *)

(** For every function a notebook defines, the names its body reads that
    are neither parameters nor locals. *)
Definition function_reads (code : list (list stmt)) : list (string * list string) :=
  omap (fun s => match s with
                 | FunctionDef n _ _ => Some (n, remove_dups (stmt_reads s))
                 | _ => None
                 end)
       (flat_map cell_stmts code).

(** ** The library in binary64

    numpy's float64 is IEEE binary64, the kernel's primitive [float]: the
    operations round to nearest, a division by zero gives an infinity or
    nan, and nan compares unequal to everything.  Shapes, broadcasting and
    exceptions are those of the exact-real model; the values are computed
    in the order numpy computes them on arrays laid out in C order
    (contiguous along the last axis), as numpy's constructors and its
    arithmetic produce them. *)

(** A Python int as a double, for integers below 2^63 in size (here the
    literal 2 and the lengths of the axes). *)
Fixpoint int_of_positive (p : positive) : PrimInt63.int :=
  match p with
  | xH => 1%uint63
  | xO q => PrimInt63.lsl (int_of_positive q) 1%uint63
  | xI q => PrimInt63.lor (PrimInt63.lsl (int_of_positive q) 1%uint63) 1%uint63
  end.

Definition float_of_Z (z : Z) : float :=
  match z with
  | Z0 => PrimFloat.zero
  | Zpos p => PrimFloat.of_uint63 (int_of_positive p)
  | Zneg p => PrimFloat.opp (PrimFloat.of_uint63 (int_of_positive p))
  end.

Definition float_of_nat (n : nat) : float := float_of_Z (Z.of_nat n).

Record farray : Type := {
  fshape : list nat;
  fvalues : list float
}.

Definition fvec (l : list float) : farray := {| fshape := [length l]; fvalues := l |}.
Definition fscalar (v : float) : farray := {| fshape := []; fvalues := [v] |}.
Definition farray_map (f : float -> float) (a : farray) : farray :=
  {| fshape := fshape a; fvalues := map f (fvalues a) |}.

(** *** numpy's sum of a row

    numpy.add.reduce along a contiguous axis: fewer than 8 values are added
    in order; up to 128 values go into eight running sums, which are added
    as a tree before the remaining values follow in order; a longer row is
    split near its middle, at a multiple of 8, and the two sums are added.
    The result starts from 0. *)
Definition sum_in_order (start : float) (l : list float) : float :=
  foldl PrimFloat.add start l.

Fixpoint add_blocks (count : nat) (r l : list float) : list float :=
  match count with
  | 0 => r
  | S c => add_blocks c (zip_with PrimFloat.add r (take 8 l)) (drop 8 l)
  end.

Definition sum_unrolled (l : list float) : float :=
  let blocks := length l / 8 in
  match add_blocks (blocks - 1) (take 8 l) (drop 8 l) with
  | [r0; r1; r2; r3; r4; r5; r6; r7] =>
      sum_in_order (((r0 + r1) + (r2 + r3)) + ((r4 + r5) + (r6 + r7)))%float
                   (drop (8 * blocks) l)
  | _ => sum_in_order PrimFloat.zero l
  end.

Fixpoint pairwise_sum (fuel : nat) (l : list float) : float :=
  let n := length l in
  if decide (n < 8) then sum_in_order PrimFloat.zero l
  else if decide (n <= 128) then sum_unrolled l
  else match fuel with
       | 0 => sum_unrolled l
       | S k =>
           let n2 := n / 2 - (n / 2) mod 8 in
           (pairwise_sum k (take n2 l) + pairwise_sum k (drop n2 l))%float
       end.

Definition add_reduce (l : list float) : float :=
  (PrimFloat.zero + pairwise_sum (length l) l)%float.

(** mean: the sum divided by the count (0 / 0 = nan on an empty axis); var
    with ddof = 0: the mean of the squared deviations from the mean; std:
    its square root. *)
Definition mean64 (l : list float) : float :=
  (add_reduce l / float_of_nat (length l))%float.

Definition var64 (l : list float) : float :=
  let m := mean64 l in
  mean64 (map (fun x => let d := (x - m)%float in (d * d)%float) l).

Definition std64 (l : list float) : float := PrimFloat.sqrt (var64 l).

(** *** Reductions and broadcasting *)

Definition frows (a : farray) : list (list float) :=
  match last (fshape a) with
  | Some n => chunks n (product (leading (fshape a))) (fvalues a)
  | None => []
  end.

Definition reduce_last64 (g : list float -> float) (keepdims : bool) (a : farray)
    : result farray :=
  match last (fshape a) with
  | None => Raises AxisError
  | Some _ =>
      Returns {| fshape := if keepdims then leading (fshape a) ++ [1]
                           else leading (fshape a);
                 fvalues := map g (frows a) |}
  end.

(** da.sum(axis=axis): along the last axis the rows are summed as above;
    along another axis the slices are added one after the other. *)
Definition np_sum64 (a : farray) (axis : Z) : result farray :=
  match normalize_axis (length (fshape a)) axis with
  | None =>
      if decide (fshape a = [] /\ (axis = 0 \/ axis = -1)%Z) then Returns a
      else Raises AxisError
  | Some ax =>
      let outer := product (take ax (fshape a)) in
      let n := default 0 (fshape a !! ax) in
      let inner := product (drop (S ax) (fshape a)) in
      let total := if decide (S ax = length (fshape a)) then add_reduce
                   else sum_in_order PrimFloat.zero in
      Returns {| fshape := delete ax (fshape a);
                 fvalues :=
                   flat_map (fun o =>
                     map (fun i =>
                            total (map (fun k => default PrimFloat.nan
                                                   (fvalues a !! ((o * n + k) * inner + i)))
                                       (seq 0 n)))
                         (seq 0 inner))
                     (seq 0 outer) |}
  end.

Definition broadcast64 (f : float -> float -> float) (a b : farray) : result farray :=
  match broadcast_shapes (fshape a) (fshape b) with
  | None => Raises ValueError
  | Some s =>
      Returns {| fshape := s;
                 fvalues := broadcast_values f (pad_shape (length s) (fshape a))
                                             (pad_shape (length s) (fshape b))
                                             (fvalues a) (fvalues b) |}
  end.

(** *** bottleneck.rankdata

    bottleneck sorts the row (numpy's argsort: nan last) and gives every
    run of equal values the average of the positions it occupies, plus 1.
    nan equals nothing, so every nan has a rank of its own, in the order the
    sort leaves them: the order of the row, for the insertion sort numpy
    uses on rows of up to 16 values. *)
Definition sum_positions (first count : nat) : float :=
  foldl (fun acc j => (acc + float_of_nat j)%float) PrimFloat.zero (seq first count).

Definition rank_at (l : list float) (i : nat) (x : float) : float :=
  let first :=
    if PrimFloat.is_nan x
    then count_where (fun y => negb (PrimFloat.is_nan y)) l
         + count_where PrimFloat.is_nan (take i l)
    else count_where (fun y => PrimFloat.ltb y x) l in
  let count :=
    if PrimFloat.is_nan x then 1 else count_where (fun y => PrimFloat.eqb y x) l in
  (sum_positions first count / float_of_nat count + PrimFloat.one)%float.

Definition rank_row64 (l : list float) : list float := imap (rank_at l) l.

Definition bn_rankdata64 (a : farray) : result farray :=
  match last (fshape a) with
  | None => Raises ValueError
  | Some _ =>
      Returns {| fshape := fshape a; fvalues := concat (map rank_row64 (frows a)) |}
  end.

#[global] Instance numpy_binary64 : ArrayLib farray := {
  mean_last := fun a keepdims => reduce_last64 mean64 keepdims a;
  std_last := reduce_last64 std64 false;
  sum_axis := np_sum64;
  sub := broadcast64 PrimFloat.sub;
  mul := broadcast64 PrimFloat.mul;
  truediv := broadcast64 PrimFloat.div;
  of_int := fun z => fscalar (float_of_Z z);
  rankdata := bn_rankdata64
}.

(** An array that holds as many values as its shape counts. *)
Definition well_formed64 (a : farray) : Prop :=
  length (fvalues a) = product (fshape a).

(** An array given by its rows: the values along the last axis (of size
    [n]) for each index of the leading dimensions [lead]. *)
Definition of_rows64 (lead : list nat) (n : nat) (rws : list (list float)) : farray :=
  {| fshape := lead ++ [n]; fvalues := concat rws |}.

Definition rows_of_shape64 (lead : list nat) (n : nat) (rws : list (list float)) : Prop :=
  length rws = product lead /\ Forall (fun r => length r = n) rws.

(** What covariance_gufunc and correlation_gufunc compute for one pair of
    rows, operation by operation. *)
Definition cov64 (xs ys : list float) : float :=
  mean64 (zip_with (fun x y => ((x - mean64 xs) * (y - mean64 ys))%float) xs ys).

Definition corr64 (xs ys : list float) : float :=
  (cov64 xs ys / (std64 xs * std64 ys))%float.

(** [f], applied to the entries of [x], keeps their order and their ties. *)
Definition order_preserving (f : float -> float) (x : farray) : Prop :=
  forall a b : float, a ∈ fvalues x -> b ∈ fvalues x ->
    PrimFloat.ltb (f a) (f b) = PrimFloat.ltb a b
    /\ PrimFloat.eqb (f a) (f b) = PrimFloat.eqb a b.


(** Whether the divisor x.std(axis=-1) * y.std(axis=-1) of
    correlation_gufunc(x, y) holds a zero. *)
Definition divides_by_zero (x y : farray) : Prop :=
  exists d : farray,
    correlation_divisor x y = Returns d
    /\ Exists (fun v => PrimFloat.eqb v PrimFloat.zero = true) (fvalues d).


(** Invariance of the Spearman coefficient under t |-> t + c, a strictly
    increasing function of t for every finite c, as numpy applies it to the
    entries of x. *)
Definition shift_invariant : Prop :=
  forall (c : float) (x y : farray),
    PrimFloat.is_finite c = true ->
    spearman_correlation_gufunc (farray_map (fun t => (t + c)%float) x) y
    = spearman_correlation_gufunc x y.

(** "Any failure surfaces as an exception", for the failure the code leaves
    unguarded: a division by zero. *)
Definition failures_surface : Prop :=
  forall x y : farray,
    divides_by_zero x y -> exists e : exn, correlation_gufunc x y = Raises e.

(** ** Where a call of an authored function fails

    The library calls of each function in the order Python makes them; the
    call fails with [e] when one of them raises [e], those before it having
    returned. *)
Section Failures.
Context {arr : Type} `{ArrayLib arr}.

Definition sum_minus_2_fails (da : arr) (axis : Z) (e : exn) : Prop :=
  sum_axis da axis = Raises e
  \/ exists s, sum_axis da axis = Returns s /\ sub s (of_int 2) = Raises e.

Definition covariance_gufunc_fails (x y : arr) (e : exn) : Prop :=
  mean_last x true = Raises e
  \/ exists xm, mean_last x true = Returns xm /\
     (sub x xm = Raises e
      \/ exists dx, sub x xm = Returns dx /\
         (mean_last y true = Raises e
          \/ exists ym, mean_last y true = Returns ym /\
             (sub y ym = Raises e
              \/ exists dy, sub y ym = Returns dy /\
                 (mul dx dy = Raises e
                  \/ exists p, mul dx dy = Returns p /\
                     mean_last p false = Raises e)))).

Definition correlation_gufunc_fails (x y : arr) (e : exn) : Prop :=
  covariance_gufunc_fails x y e
  \/ exists c, covariance_gufunc x y = Returns c /\
     (std_last x = Raises e
      \/ exists sx, std_last x = Returns sx /\
         (std_last y = Raises e
          \/ exists sy, std_last y = Returns sy /\
             (mul sx sy = Raises e
              \/ exists d, mul sx sy = Returns d /\ truediv c d = Raises e))).

Definition spearman_correlation_gufunc_fails (x y : arr) (e : exn) : Prop :=
  rankdata x = Raises e
  \/ exists xr, rankdata x = Returns xr /\
     (rankdata y = Raises e
      \/ exists yr, rankdata y = Returns yr /\ correlation_gufunc_fails xr yr e).
End Failures.

(** ** The library interface the cells cross *)

(** The dotted name an expression spells: np.random.random. *)
Fixpoint dotted_name (e : expr) : option (list string) :=
  match e with
  | Name x => Some [x]
  | Attribute v a => (fun p => p ++ [a]) <$> dotted_name v
  | _ => None
  end.

Definition join_dots (p : list string) : string :=
  match p with
  | [] => EmptyString
  | x :: rest => foldl (fun acc y => acc +:+ "." +:+ y) x rest
  end.

(** The names under which the cells import the libraries. *)
Definition import_names (code : list (list stmt)) : list string :=
  omap (fun s => match s with
                 | Import m a => Some (default m a)
                 | _ => None
                 end)
       (flat_map cell_stmts code).

(** The calls of library functions through an imported module, as written. *)
Definition library_calls (code : list (list stmt)) : list string :=
  omap (fun e => match e with
                 | Call f _ _ =>
                     match dotted_name f with
                     | Some (root :: a :: rest) =>
                         if decide (root ∈ import_names code)
                         then Some (join_dots (root :: a :: rest))
                         else None
                     | _ => None
                     end
                 | _ => None
                 end)
       (flat_map cell_exprs code).

(** The methods called on values (the library's objects), as written. *)
Definition method_calls (code : list (list stmt)) : list string :=
  omap (fun e => match e with
                 | Call (Attribute v m) _ _ =>
                     match dotted_name v with
                     | Some (root :: _) =>
                         if decide (root ∈ import_names code) then None else Some m
                     | _ => Some m
                     end
                 | _ => None
                 end)
       (flat_map cell_exprs code).

(** The claim that the file format is the only boundary: the cells reach
    nothing outside the repository. *)
Definition file_format_is_only_boundary (code : list (list stmt)) : Prop :=
  imported_modules code = [] /\ library_calls code = [].

Definition has_captured_outputs (nb : notebook) : Prop :=
  flat_map cell_outputs (cells nb) ≠ [].

Definition is_call (e : expr) : bool :=
  match e with Call _ _ _ => true | _ => false end.

Definition is_error_output (o : output) : bool :=
  match o with error _ _ _ => true | _ => false end.

(** * Theorems *)

(** ** The error monad *)

Lemma bind_Returns {A B : Type} (a : A) (k : A -> result B) : (Returns a ≫= k) = k a.
Proof. reflexivity. Qed.

Lemma bind_Raises {A B : Type} (e : exn) (k : A -> result B) :
  (Raises e ≫= k) = Raises e.
Proof. reflexivity. Qed.

(** ** Statistics of one axis: the exact-real model on lists of reals *)

Lemma num_sum_vec (rs : list R) : num_sum (map Some rs) = Some (rsum rs).
Proof.
  induction rs as [|r rs IH]; [done|].
  unfold num_sum in *. simpl. rewrite IH. done.
Qed.

Lemma INR_length_nonzero {A} (l : list A) : l ≠ [] -> INR (length l) ≠ 0%R.
Proof.
  intros Hl. destruct l as [|a l]; [done|].
  apply not_0_INR. simpl. lia.
Qed.

Lemma num_mean_vec (rs : list R) :
  rs ≠ [] -> num_mean (map Some rs) = Some (rmean rs).
Proof.
  intros Hrs. unfold num_mean. rewrite num_sum_vec, length_map. simpl.
  rewrite decide_False by (by apply INR_length_nonzero). done.
Qed.

Lemma num_mean_nil : num_mean (@nil (option R)) = None.
Proof. unfold num_mean. simpl. rewrite decide_True; done. Qed.

Lemma num_var_vec (rs : list R) :
  rs ≠ [] -> num_var (map Some rs) = Some (rvar rs).
Proof.
  intros Hrs. unfold num_var. rewrite num_mean_vec by done.
  rewrite List.map_map. simpl.
  rewrite <- (List.map_map (fun x => (x - rmean rs) * (x - rmean rs))%R Some).
  rewrite num_mean_vec; [done|].
  destruct rs; done.
Qed.

Lemma num_var_nil : num_var (@nil (option R)) = None.
Proof. unfold num_var. simpl. apply num_mean_nil. Qed.

Lemma rsum_nonneg (rs : list R) :
  Forall (fun x => 0 <= x)%R rs -> (0 <= rsum rs)%R.
Proof.
  induction 1 as [|x rs Hx _ IH]; unfold rsum in *; simpl; lra.
Qed.

Lemma rvar_nonneg (rs : list R) : (0 <= rvar rs)%R.
Proof.
  unfold rvar, rmean at 1.
  destruct rs as [|r rs].
  - unfold rsum. simpl. unfold Rdiv. rewrite Rmult_0_l. apply Rle_refl.
  - apply Rmult_le_pos.
    + apply rsum_nonneg. apply Forall_forall. intros y Hy.
      apply list_elem_of_In, in_map_iff in Hy as (x & <- & _). cbv beta.
      generalize (x - rmean (r :: rs))%R. intros t. nra.
    + left. apply Rinv_0_lt_compat. rewrite length_map. apply lt_0_INR. simpl. lia.
Qed.

Lemma num_std_vec (rs : list R) :
  rs ≠ [] -> num_std (map Some rs) = Some (rstd rs).
Proof.
  intros Hrs. unfold num_std. rewrite num_var_vec by done. simpl.
  rewrite decide_False; [done|]. pose proof (rvar_nonneg rs). lra.
Qed.

Lemma num_std_nil : num_std (@nil (option R)) = None.
Proof. unfold num_std. rewrite num_var_nil. done. Qed.

(** A real standard deviation means a non-empty axis. *)
Lemma num_std_real (rs : list R) (s : R) :
  num_std (map Some rs) = Some s -> rs ≠ [] ∧ s = rstd rs.
Proof.
  intros Hs. destruct rs as [|r rs].
  - cbn [map] in Hs. rewrite num_std_nil in Hs. done.
  - rewrite num_std_vec in Hs by done. split; [done|]. congruence.
Qed.

Lemma zip_with_vec (f : R -> R -> R) (xs ys : list R) :
  zip_with (num_lift2 f) (map Some xs) (map Some ys) = map Some (zip_with f xs ys).
Proof.
  revert ys. induction xs as [|x xs IH]; intros [|y ys]; simpl; try done.
  rewrite IH. done.
Qed.

Lemma zip_with_centered (xs ys : list R) (mx my : R) :
  zip_with Rmult (map (fun x => x - mx)%R xs) (map (fun y => y - my)%R ys)
  = zip_with (fun x y => (x - mx) * (y - my))%R xs ys.
Proof.
  revert ys. induction xs as [|x xs IH]; intros [|y ys]; simpl; try done.
  rewrite IH. done.
Qed.

Lemma zip_with_diag {A B} (f : A -> A -> B) (l : list A) :
  zip_with f l l = map (fun x => f x x) l.
Proof. induction l as [|a l IH]; simpl; [done|]. by rewrite IH. Qed.

Lemma rcov_self (xs : list R) : rcov xs xs = rvar xs.
Proof. unfold rcov, rvar. by rewrite zip_with_diag. Qed.

Lemma rcov_comm (xs ys : list R) : rcov xs ys = rcov ys xs.
Proof.
  unfold rcov. f_equal.
  generalize (rmean xs) (rmean ys). intros mx my. revert ys.
  induction xs as [|x xs IH]; intros [|y ys]; simpl; try done.
  rewrite IH. f_equal. lra.
Qed.

(** A list constant along its length has mean [c] and variance 0. *)
Lemma rsum_const (c : R) (xs : list R) :
  Forall (fun x => x = c) xs -> rsum xs = (INR (length xs) * c)%R.
Proof.
  induction 1 as [|x xs -> _ IH].
  - unfold rsum. simpl. lra.
  - change (rsum (c :: xs)) with (c + rsum xs)%R. rewrite IH.
    rewrite length_cons, S_INR. lra.
Qed.

Lemma rmean_const (c : R) (xs : list R) :
  xs ≠ [] -> Forall (fun x => x = c) xs -> rmean xs = c.
Proof.
  intros Hxs Hc. unfold rmean. rewrite (rsum_const c) by done.
  field. by apply INR_length_nonzero.
Qed.

Lemma rvar_const (c : R) (xs : list R) :
  xs ≠ [] -> Forall (fun x => x = c) xs -> rvar xs = 0%R.
Proof.
  intros Hxs Hc. unfold rvar. rewrite (rmean_const c xs) by done.
  apply (rmean_const 0%R).
  - destruct xs; done.
  - apply Forall_forall. intros y Hy.
    apply list_elem_of_In, in_map_iff in Hy as (x & <- & Hx).
    apply list_elem_of_In in Hx. rewrite Forall_forall in Hc.
    rewrite (Hc x Hx). lra.
Qed.

Lemma rstd_const (c : R) (xs : list R) :
  xs ≠ [] -> Forall (fun x => x = c) xs -> rstd xs = 0%R.
Proof. intros Hxs Hc. unfold rstd. rewrite (rvar_const c) by done. apply sqrt_0. Qed.

(** The self-correlation of a list with nonzero standard deviation. *)
Lemma rstd_sqr (xs : list R) : (rstd xs * rstd xs)%R = rvar xs.
Proof. unfold rstd. apply sqrt_sqrt, rvar_nonneg. Qed.

Lemma rcorr_self (xs : list R) : rstd xs ≠ 0%R -> rcorr xs xs = 1%R.
Proof.
  intros Hnz. unfold rcorr. rewrite rcov_self, <- rstd_sqr. by field.
Qed.

(** ** Ranks under a strictly increasing map *)

Section RankInvariance.
Variable f : R -> R.
Hypothesis f_increasing : forall a b : R, (a < b)%R -> (f a < f b)%R.

Lemma increasing_lt_iff (a b : R) : (f a < f b)%R <-> (a < b)%R.
Proof.
  split; [|apply f_increasing].
  intros Hf. destruct (Rtotal_order a b) as [Hlt|[->|Hgt]]; [done|lra|].
  apply f_increasing in Hgt. lra.
Qed.

Lemma increasing_eq_iff (a b : R) : f a = f b <-> a = b.
Proof.
  split; [|by intros ->].
  intros Hf. destruct (Rtotal_order a b) as [Hlt|[->|Hgt]]; [|done|].
  - apply f_increasing in Hlt. lra.
  - apply f_increasing in Hgt. lra.
Qed.

Lemma count_lt_increasing (l : list R) (x : R) :
  count_lt (map f l) (f x) = count_lt l x.
Proof.
  unfold count_lt. induction l as [|a l IH]; [done|].
  cbn [map]. rewrite !filter_cons.
  destruct (decide (f a < f x)%R) as [H1|H1], (decide (a < x)%R) as [H2|H2];
    simpl; rewrite ?IH; try done.
  - exfalso. apply H2. by apply increasing_lt_iff.
  - exfalso. apply H1. by apply f_increasing.
Qed.

Lemma count_eq_increasing (l : list R) (x : R) :
  count_eq (map f l) (f x) = count_eq l x.
Proof.
  unfold count_eq. induction l as [|a l IH]; [done|].
  cbn [map]. rewrite !filter_cons.
  destruct (decide (f a = f x)) as [H1|H1], (decide (a = x)) as [H2|H2];
    simpl; rewrite ?IH; try done.
  - exfalso. apply H2. by apply increasing_eq_iff.
  - exfalso. apply H1. by subst.
Qed.

Lemma rank_of_increasing (l : list R) (x : R) :
  rank_of (map f l) (f x) = rank_of l x.
Proof. unfold rank_of. by rewrite count_lt_increasing, count_eq_increasing. Qed.

Lemma rank_list_increasing (l : list R) : rank_list (map f l) = rank_list l.
Proof.
  unfold rank_list. rewrite List.map_map.
  apply List.map_ext. intros x. apply rank_of_increasing.
Qed.

Lemma reals_of_fmap (l : list num) :
  reals_of (map (fmap f) l) = map f <$> reals_of l.
Proof.
  induction l as [|[x|] l IH]; simpl; [done| |done].
  rewrite IH. by destruct (reals_of l).
Qed.

(** The ranks along an axis are those of order-isomorphic data. *)
Lemma rank_row_increasing (row : list num) :
  rank_row (map (fmap f) row) = rank_row row.
Proof.
  unfold rank_row. rewrite reals_of_fmap.
  destruct (reals_of row) as [rs|]; simpl.
  - by rewrite rank_list_increasing.
  - by rewrite List.map_map.
Qed.
End RankInvariance.

Lemma reals_of_vec (rs : list R) : reals_of (map Some rs) = Some rs.
Proof. induction rs as [|r rs IH]; simpl; [done|]. by rewrite IH. Qed.

Lemma rank_row_vec (rs : list R) : rank_row (map Some rs) = map Some (rank_list rs).
Proof. unfold rank_row. by rewrite reals_of_vec. Qed.

(** ** Rows of a row-major array *)

Lemma chunks_length {A} (k count : nat) (v : list A) :
  length (chunks k count v) = count.
Proof. revert v. induction count as [|c IH]; intros v; simpl; [done|]. by rewrite IH. Qed.

Lemma chunks_concat {A} (k : nat) (rws : list (list A)) :
  Forall (fun r => length r = k) rws ->
  chunks k (length rws) (concat rws) = rws.
Proof.
  induction 1 as [|r rws Hr _ IH]; simpl; [done|].
  rewrite take_app_length', drop_app_length' by done. by rewrite IH.
Qed.

Lemma concat_chunks {A} (k count : nat) (v : list A) :
  length v = count * k -> concat (chunks k count v) = v.
Proof.
  revert v. induction count as [|c IH]; intros v Hv; simpl in *.
  - by destruct v.
  - rewrite IH by (rewrite length_drop; lia). apply take_drop.
Qed.

Lemma chunks_Forall_length {A} (k count : nat) (v : list A) :
  count * k <= length v -> Forall (fun r => length r = k) (chunks k count v).
Proof.
  revert v. induction count as [|c IH]; intros v Hv; simpl in *; constructor.
  - rewrite length_take. lia.
  - apply IH. rewrite length_drop. lia.
Qed.

Lemma chunks_map {A B} (g : A -> B) (k count : nat) (v : list A) :
  chunks k count (map g v) = map (map g) (chunks k count v).
Proof.
  revert v. induction count as [|c IH]; intros v; simpl; [done|].
  rewrite List.firstn_map, List.skipn_map. by rewrite IH.
Qed.

Lemma chunks_Forall {A} (P : A -> Prop) (k count : nat) (v : list A) :
  Forall P v -> Forall (Forall P) (chunks k count v).
Proof.
  revert v. induction count as [|c IH]; intros v Hv; simpl; constructor.
  - by apply Forall_take.
  - apply IH. by apply Forall_drop.
Qed.

Lemma concat_singletons {A B} (g : A -> B) (l : list A) :
  concat (map (fun x => [g x]) l) = map g l.
Proof. induction l as [|a l IH]; simpl; [done|]. by rewrite IH. Qed.

Lemma length_concat_uniform {A} (k : nat) (rws : list (list A)) :
  Forall (fun r => length r = k) rws -> length (concat rws) = length rws * k.
Proof.
  induction 1 as [|r rws Hr _ IH]; simpl; [done|].
  rewrite length_app, IH, Hr. lia.
Qed.

Lemma take_concat_uniform {A} (k p : nat) (rws : list (list A)) :
  Forall (fun r => length r = k) rws ->
  take (p * k) (concat rws) = concat (take p rws).
Proof.
  intros Hr. revert p. induction Hr as [|r rws Hr _ IH]; intros p.
  - cbn [concat]. by rewrite !take_nil.
  - destruct p as [|p]; [done|]. cbn [concat take].
    change (S p * k) with (k + p * k).
    rewrite take_app_add' by done. by rewrite IH.
Qed.

Lemma drop_concat_uniform {A} (k p : nat) (rws : list (list A)) :
  Forall (fun r => length r = k) rws ->
  drop (p * k) (concat rws) = concat (drop p rws).
Proof.
  intros Hr. revert p. induction Hr as [|r rws Hr _ IH]; intros p.
  - cbn [concat]. by rewrite !drop_nil.
  - destruct p as [|p]; [done|]. cbn [concat drop].
    change (S p * k) with (k + p * k).
    rewrite drop_app_add' by done. by rewrite IH.
Qed.

(** Rows grouped by the leading dimension. *)
Lemma chunks_concat_groups {A} (k p count : nat) (rws : list (list A)) :
  Forall (fun r => length r = k) rws ->
  chunks (p * k) count (concat rws) = map (fun g => concat g) (chunks p count rws).
Proof.
  revert rws. induction count as [|c IH]; intros rws Hr; simpl; [done|].
  rewrite take_concat_uniform, drop_concat_uniform by done.
  rewrite IH by (by apply Forall_drop). done.
Qed.

(** ** Shapes and broadcasting *)

Lemma product_app (s t : list nat) : product (s ++ t) = product s * product t.
Proof.
  induction s as [|d s IH]; simpl; [lia|].
  unfold product in *. simpl. rewrite IH. lia.
Qed.

Lemma product_snoc (s : list nat) (n : nat) : product (s ++ [n]) = product s * n.
Proof. rewrite product_app. unfold product. simpl. lia. Qed.

Lemma leading_snoc (lead : list nat) (n : nat) : leading (lead ++ [n]) = lead.
Proof.
  unfold leading. rewrite length_app. simpl.
  replace (length lead + 1 - 1) with (length lead) by lia.
  apply take_app_length.
Qed.

Lemma pad_shape_same (s : list nat) : pad_shape (length s) s = s.
Proof. unfold pad_shape. by rewrite Nat.sub_diag. Qed.

Lemma pad_shape_same_length (r : nat) (s : list nat) :
  length s = r -> pad_shape r s = s.
Proof. intros <-. apply pad_shape_same. Qed.

Lemma broadcast_dim_same (n : nat) : broadcast_dim n n = Some n.
Proof. unfold broadcast_dim. by rewrite decide_True. Qed.

Lemma broadcast_dim_1 (n : nat) : broadcast_dim n 1 = Some n.
Proof.
  unfold broadcast_dim. destruct (decide (n = 1)) as [->|Hn]; [done|].
  by rewrite decide_True.
Qed.

Lemma broadcast_reversed_same (r : list nat) : broadcast_reversed r r = Some r.
Proof.
  induction r as [|n r IH]; [done|].
  cbn [broadcast_reversed]. rewrite broadcast_dim_same, IH. done.
Qed.

Lemma broadcast_shapes_same (s : list nat) : broadcast_shapes s s = Some s.
Proof.
  unfold broadcast_shapes. rewrite broadcast_reversed_same. simpl.
  by rewrite reverse_involutive.
Qed.

Lemma broadcast_shapes_keepdims (lead : list nat) (n : nat) :
  broadcast_shapes (lead ++ [n]) (lead ++ [1]) = Some (lead ++ [n]).
Proof.
  unfold broadcast_shapes. rewrite !reverse_snoc. cbn [broadcast_reversed].
  rewrite broadcast_dim_1, broadcast_reversed_same. simpl.
  by rewrite reverse_cons, reverse_involutive.
Qed.

Lemma zip_with_take_drop {A B C} (f : A -> B -> C) (k : nat) (l1 : list A) (l2 : list B) :
  zip_with f (take k l1) (take k l2) ++ zip_with f (drop k l1) (drop k l2)
  = zip_with f l1 l2.
Proof.
  revert k l2. induction l1 as [|a l1 IH]; intros k l2.
  - by rewrite take_nil, drop_nil.
  - destruct k as [|k]; [done|]. destruct l2 as [|b l2]; simpl.
    + by rewrite !zip_with_nil_r.
    + by rewrite IH.
Qed.

Lemma concat_zip_chunks {A B C} (g : list A -> list B -> list C) (f : A -> B -> C)
    (k count : nat) (v1 : list A) (v2 : list B) :
  (forall w1 w2, length w1 = k -> length w2 = k -> g w1 w2 = zip_with f w1 w2) ->
  length v1 = count * k -> length v2 = count * k ->
  concat (zip_with g (chunks k count v1) (chunks k count v2)) = zip_with f v1 v2.
Proof.
  intros Hg. revert v1 v2. induction count as [|c IH]; intros v1 v2 H1 H2.
  - destruct v1; [done|discriminate].
  - cbn [chunks zip_with concat].
    rewrite Hg by (rewrite length_take; lia).
    rewrite IH by (rewrite length_drop; lia).
    apply zip_with_take_drop.
Qed.

(** Two arrays of one shape: the operation runs along both. *)
Lemma broadcast_values_same {A B C} (f : A -> B -> C) (s : list nat)
    (v1 : list A) (v2 : list B) :
  length v1 = product s -> length v2 = product s ->
  broadcast_values f s s v1 v2 = zip_with f v1 v2.
Proof.
  revert v1 v2. induction s as [|n s IH]; intros v1 v2 H1 H2; [done|].
  cbn [broadcast_values]. rewrite decide_True by done.
  by apply concat_zip_chunks.
Qed.

Lemma chunks_singletons {A} (v : list A) :
  chunks 1 (length v) v = map (fun x => [x]) v.
Proof. induction v as [|a v IH]; simpl; [done|]. rewrite drop_0. by rewrite IH. Qed.

(** An array against its reduction with keepdims: every row runs against
    its own value. *)
Lemma broadcast_values_keepdims {A B C} (f : A -> B -> C) (lead : list nat) (n : nat)
    (rws : list (list A)) (ms : list B) :
  length rws = product lead -> length ms = product lead ->
  Forall (fun r => length r = n) rws ->
  broadcast_values f (lead ++ [n]) (lead ++ [1]) (concat rws) ms
  = concat (zip_with (fun r m => map (fun x => f x m) r) rws ms).
Proof.
  revert rws ms. induction lead as [|d lead IH]; intros rws ms Hr Hm Hn.
  - destruct rws as [|r [|? ?]]; try discriminate.
    destruct ms as [|m [|? ?]]; try discriminate.
    inversion_clear Hn as [|? ? Hlen _]. cbn [app concat zip_with]. rewrite !app_nil_r.
    cbn [broadcast_values product foldr chunks take drop].
    destruct (decide (n = 1)) as [->|Hn1].
    + destruct r as [|x [|? ?]]; try discriminate. reflexivity.
    + rewrite <- Hlen, chunks_singletons.
      rewrite List.map_map. cbn [zip_with]. apply concat_singletons.
  - cbn [app broadcast_values]. rewrite decide_True by done.
    rewrite !product_snoc, Nat.mul_1_r.
    rewrite chunks_concat_groups by done.
    change (product (d :: lead)) with (d * product lead) in Hr, Hm.
    revert IH rws ms Hr Hm Hn. generalize (product lead) as p.
    intros p IH. induction d as [|d IHd]; intros rws ms Hr Hm Hn.
    + destruct rws; [done|discriminate].
    + cbn [chunks map zip_with concat].
      rewrite IH by (rewrite ?length_take; try lia; by apply Forall_take).
      rewrite IHd by (rewrite ?length_drop; try lia; by apply Forall_drop).
      rewrite <- concat_app. by rewrite zip_with_take_drop.
Qed.

(** What holds of the values of both arrays, pairwise, holds of the values
    of their broadcast. *)
Lemma zip_with_Forall {A B C} (P : A -> Prop) (Q : B -> Prop) (T : C -> Prop)
    (f : A -> B -> C) (l1 : list A) (l2 : list B) :
  (forall a b, P a -> Q b -> T (f a b)) ->
  Forall P l1 -> Forall Q l2 -> Forall T (zip_with f l1 l2).
Proof.
  intros Hf H1. revert l2. induction H1 as [|a l1 Ha _ IH]; intros l2 H2; [constructor|].
  destruct H2 as [|b l2 Hb H2]; simpl; constructor; auto.
Qed.


(** ** correlation_gufunc as a quotient by its divisor *)

Lemma correlation_gufunc_divisor {arr : Type} `{ArrayLib arr} (x y : arr) :
  correlation_gufunc x y
  = (c ← covariance_gufunc x y; d ← correlation_divisor x y; truediv c d).
Proof.
  unfold correlation_gufunc, correlation_divisor.
  destruct (covariance_gufunc x y); [|done]. rewrite !bind_Returns.
  destruct (std_last x); [|done]. rewrite !bind_Returns.
  destruct (std_last y); [|done]. reflexivity.
Qed.

(** ** The library operations on real arrays given by their rows *)

Lemma map_concat_Some (rws : list (list R)) :
  map Some (concat rws) = concat (map (map Some) rws).
Proof. induction rws as [|r rws IH]; simpl; [done|]. by rewrite List.map_app, IH. Qed.

Lemma rows_of_rows (lead : list nat) (n : nat) (rws : list (list R)) :
  rows_of_shape lead n rws -> rows (of_rows lead n rws) = map (map Some) rws.
Proof.
  intros [Hlen Hn]. unfold rows, of_rows, arr. cbn [shape values].
  rewrite last_snoc, leading_snoc, <- Hlen, chunks_map, chunks_concat by done.
  done.
Qed.

Lemma arr_of_rows (lead : list nat) (n : nat) (xs : list R) :
  length xs = product (lead ++ [n]) ->
  arr (lead ++ [n]) xs = of_rows lead n (chunks n (product lead) xs)
  /\ rows_of_shape lead n (chunks n (product lead) xs).
Proof.
  intros Hlen. rewrite product_snoc in Hlen. split.
  - unfold of_rows. by rewrite concat_chunks.
  - split; [apply chunks_length|]. apply chunks_Forall_length. lia.
Qed.

Lemma vec_of_rows (xs : list R) :
  vec xs = of_rows [] (length xs) [xs] /\ rows_of_shape [] (length xs) [xs].
Proof.
  split.
  - unfold vec, of_rows. cbn [concat app]. by rewrite app_nil_r.
  - split; [done|]. by constructor.
Qed.

Lemma shape_of_rows (lead : list nat) (n : nat) (rws : list (list R)) :
  shape (of_rows lead n rws) = lead ++ [n].
Proof. reflexivity. Qed.

Lemma map_Forall_eq {A B} (g h : A -> B) (l : list A) :
  Forall (fun x => g x = h x) l -> map g l = map h l.
Proof. induction 1 as [|x l Hx _ IH]; simpl; [done|]. by rewrite Hx, IH. Qed.

Lemma reduce_last_rows (g : list num -> num) (h : list R -> R) (keepdims : bool)
    (lead : list nat) (n : nat) (rws : list (list R)) :
  rows_of_shape lead n rws ->
  Forall (fun r => g (map Some r) = Some (h r)) rws ->
  reduce_last g keepdims (of_rows lead n rws)
  = Returns (if keepdims then of_rows lead 1 (map (fun r => [h r]) rws)
             else arr lead (map h rws)).
Proof.
  intros Hs Hg. unfold reduce_last. rewrite rows_of_rows by done.
  rewrite shape_of_rows, last_snoc, leading_snoc.
  assert (Hv : map g (map (map Some) rws) = map Some (map h rws)).
  { rewrite !List.map_map. by apply map_Forall_eq. }
  rewrite Hv. destruct keepdims; [|done].
  unfold of_rows, arr. by rewrite concat_singletons.
Qed.

Lemma np_mean_rows (keepdims : bool) (lead : list nat) (n : nat) (rws : list (list R)) :
  rows_of_shape lead n rws -> Forall (fun r => r ≠ []) rws ->
  np_mean (of_rows lead n rws) keepdims
  = Returns (if keepdims then of_rows lead 1 (map (fun r => [rmean r]) rws)
             else arr lead (map rmean rws)).
Proof.
  intros Hs Hne. apply reduce_last_rows; [done|].
  eapply Forall_impl; [exact Hne|]. intros r Hr. by apply num_mean_vec.
Qed.

Lemma np_std_rows (lead : list nat) (n : nat) (rws : list (list R)) :
  rows_of_shape lead n rws -> Forall (fun r => r ≠ []) rws ->
  np_std (of_rows lead n rws) = Returns (arr lead (map rstd rws)).
Proof.
  intros Hs Hne. apply (reduce_last_rows num_std rstd false); [done|].
  eapply Forall_impl; [exact Hne|]. intros r Hr. by apply num_std_vec.
Qed.

Lemma zip_with_map_same {A B C D} (f : B -> C -> D) (g : A -> B) (h : A -> C) (l : list A) :
  zip_with f (map g l) (map h l) = map (fun x => f (g x) (h x)) l.
Proof. induction l as [|a l IH]; simpl; [done|]. by rewrite IH. Qed.

(** x - x.mean(axis=-1, keepdims=True), row by row. *)
Lemma sub_keepdims_rows (lead : list nat) (n : nat) (rws : list (list R)) (m : list R -> R) :
  rows_of_shape lead n rws ->
  broadcast num_sub (of_rows lead n rws) (of_rows lead 1 (map (fun r => [m r]) rws))
  = Returns (of_rows lead n (map (fun r => map (fun x => x - m r)%R r) rws)).
Proof.
  intros [Hlen Hn]. unfold broadcast. rewrite !shape_of_rows, broadcast_shapes_keepdims.
  rewrite !length_app, !pad_shape_same_length by (by rewrite !length_app).
  unfold of_rows, arr. cbn [values]. f_equal. f_equal.
  rewrite concat_singletons, (map_concat_Some rws).
  rewrite broadcast_values_keepdims;
    [|by rewrite length_map|by rewrite !length_map|].
  - rewrite (List.map_map m Some), zip_with_map_same, map_concat_Some, List.map_map.
    f_equal. apply List.map_ext. intros r. by rewrite !List.map_map.
  - apply Forall_forall. intros r Hr.
    apply list_elem_of_In, in_map_iff in Hr as (r' & <- & Hr').
    rewrite length_map. rewrite Forall_forall in Hn. apply Hn. by apply list_elem_of_In.
Qed.

Lemma concat_zip_with_rows {A B C} (f : A -> B -> C) (n : nat)
    (r1 : list (list A)) (r2 : list (list B)) :
  Forall (fun r => length r = n) r1 -> Forall (fun r => length r = n) r2 ->
  zip_with f (concat r1) (concat r2) = concat (zip_with (zip_with f) r1 r2).
Proof.
  intros H1. revert r2. induction H1 as [|a r1 Ha _ IH]; intros r2 H2; [done|].
  destruct H2 as [|b r2 Hb H2].
  - cbn [concat zip_with]. by rewrite zip_with_nil_r.
  - cbn [concat zip_with]. rewrite zip_with_app by congruence. by rewrite IH.
Qed.

Lemma zip_with_rows_shape {A} (f : A -> A -> A) (lead : list nat) (n : nat)
    (r1 r2 : list (list A)) :
  length r1 = product lead -> length r2 = product lead ->
  Forall (fun r => length r = n) r1 -> Forall (fun r => length r = n) r2 ->
  length (zip_with (zip_with f) r1 r2) = product lead
  /\ Forall (fun r => length r = n) (zip_with (zip_with f) r1 r2).
Proof.
  intros L1 L2 H1 H2. split; [rewrite length_zip_with; lia|].
  clear L1 L2. revert r2 H2. induction H1 as [|a r1 Ha _ IH]; intros r2 H2; [constructor|].
  destruct H2 as [|b r2 Hb H2]; simpl; constructor; [|by apply IH].
  rewrite length_zip_with. lia.
Qed.

(** Elementwise operations on two real arrays of one shape. *)
Lemma broadcast_same_shape (f : num -> num -> num) (s : list nat) (v1 v2 : list num) :
  length v1 = product s -> length v2 = product s ->
  broadcast f {| shape := s; values := v1 |} {| shape := s; values := v2 |}
  = Returns {| shape := s; values := zip_with f v1 v2 |}.
Proof.
  intros H1 H2. unfold broadcast. cbn [shape values].
  rewrite broadcast_shapes_same, pad_shape_same, broadcast_values_same by done. done.
Qed.

Lemma broadcast_lift2_arr (f : R -> R -> R) (s : list nat) (xs ys : list R) :
  length xs = product s -> length ys = product s ->
  broadcast (num_lift2 f) (arr s xs) (arr s ys) = Returns (arr s (zip_with f xs ys)).
Proof.
  intros H1 H2. unfold arr. rewrite broadcast_same_shape by (by rewrite length_map).
  by rewrite zip_with_vec.
Qed.

Lemma mul_rows (lead : list nat) (n : nat) (r1 r2 : list (list R)) :
  rows_of_shape lead n r1 -> rows_of_shape lead n r2 ->
  broadcast num_mul (of_rows lead n r1) (of_rows lead n r2)
  = Returns (of_rows lead n (zip_with (zip_with Rmult) r1 r2)).
Proof.
  intros [L1 H1] [L2 H2]. unfold of_rows, num_mul.
  rewrite broadcast_lift2_arr.
  - by rewrite (concat_zip_with_rows Rmult n).
  - rewrite (length_concat_uniform n), product_snoc by done. lia.
  - rewrite (length_concat_uniform n), product_snoc by done. lia.
Qed.

Lemma rows_of_shape_centre (lead : list nat) (n : nat) (rws : list (list R)) :
  rows_of_shape lead n rws -> rows_of_shape lead n (map centre rws).
Proof.
  intros [Hlen Hn]. split; [by rewrite length_map|].
  apply Forall_forall. intros r Hr.
  apply list_elem_of_In, in_map_iff in Hr as (r' & <- & Hr').
  unfold centre. rewrite length_map. rewrite Forall_forall in Hn.
  apply Hn. by apply list_elem_of_In.
Qed.

(** Rows of one shape are empty together. *)
Lemma rows_nonempty_same_shape (lead : list nat) (n : nat) (r1 r2 : list (list R)) :
  rows_of_shape lead n r1 -> rows_of_shape lead n r2 ->
  Forall (fun r => r ≠ []) r1 -> Forall (fun r => r ≠ []) r2.
Proof.
  intros [L1 H1] [L2 H2] Hne.
  destruct r1 as [|a r1].
  - destruct r2; [constructor|]. simpl in *. congruence.
  - inversion_clear H1 as [|? ? Ha _]. inversion_clear Hne as [|? ? Hna _].
    eapply Forall_impl; [exact H2|]. intros r Hr ->. simpl in Hr. subst n.
    by destruct a.
Qed.

Lemma rmean_products (r1 r2 : list (list R)) :
  map rmean (zip_with (zip_with Rmult) (map centre r1) (map centre r2))
  = zip_with rcov r1 r2.
Proof.
  revert r2. induction r1 as [|a r1 IH]; intros [|b r2]; simpl; try done.
  rewrite IH. f_equal. unfold centre, rcov. by rewrite zip_with_centered.
Qed.

Lemma zip_rows_nonempty (n : nat) (r1 r2 : list (list R)) :
  Forall (fun r => length r = n) r1 -> Forall (fun r => length r = n) r2 ->
  Forall (fun r => r ≠ []) r1 ->
  Forall (fun r => r ≠ []) (zip_with (zip_with Rmult) r1 r2).
Proof.
  intros H1. revert r2. induction H1 as [|a r1 Ha _ IH]; intros r2 H2 Hne; [constructor|].
  destruct H2 as [|b r2 Hb H2]; [constructor|].
  inversion_clear Hne as [|? ? Hna Hne']. simpl. constructor; [|by apply IH].
  destruct a, b; simpl in *; congruence.
Qed.

(** covariance_gufunc on two real arrays of one shape: the covariance of
    each pair of rows. *)
Lemma covariance_gufunc_rows (lead : list nat) (n : nat) (r1 r2 : list (list R)) :
  rows_of_shape lead n r1 -> rows_of_shape lead n r2 ->
  Forall (fun r => r ≠ []) r1 ->
  covariance_gufunc (of_rows lead n r1) (of_rows lead n r2)
  = Returns (arr lead (zip_with rcov r1 r2)).
Proof.
  intros S1 S2 Hne1.
  pose proof (rows_nonempty_same_shape lead n r1 r2 S1 S2 Hne1) as Hne2.
  pose proof (rows_of_shape_centre lead n r1 S1) as C1.
  pose proof (rows_of_shape_centre lead n r2 S2) as C2.
  unfold covariance_gufunc. cbn [mean_last sub mul numpy_real].
  rewrite (np_mean_rows true lead n r1), bind_Returns by done.
  rewrite (sub_keepdims_rows lead n r1 rmean), bind_Returns by done.
  rewrite (np_mean_rows true lead n r2), bind_Returns by done.
  rewrite (sub_keepdims_rows lead n r2 rmean), bind_Returns by done.
  fold centre. rewrite mul_rows, bind_Returns by done.
  destruct C1 as [L1 H1], C2 as [L2 H2].
  rewrite (np_mean_rows false lead n).
  - by rewrite rmean_products.
  - by apply zip_with_rows_shape.
  - apply (zip_rows_nonempty n); [done..|].
    apply Forall_forall. intros r Hr.
    apply list_elem_of_In, in_map_iff in Hr as (r' & <- & Hr').
    rewrite Forall_forall in Hne1. apply list_elem_of_In, Hne1 in Hr'.
    unfold centre. by destruct r'.
Qed.

Lemma correlation_divisor_rows (lead : list nat) (n : nat) (r1 r2 : list (list R)) :
  rows_of_shape lead n r1 -> rows_of_shape lead n r2 ->
  Forall (fun r => r ≠ []) r1 ->
  correlation_divisor (of_rows lead n r1) (of_rows lead n r2)
  = Returns (arr lead (zip_with (fun a b => rstd a * rstd b)%R r1 r2)).
Proof.
  intros S1 S2 Hne1.
  pose proof (rows_nonempty_same_shape lead n r1 r2 S1 S2 Hne1) as Hne2.
  unfold correlation_divisor. cbn [std_last mul numpy_real].
  rewrite !np_std_rows, !bind_Returns by done.
  destruct S1 as [L1 _], S2 as [L2 _].
  unfold num_mul. rewrite broadcast_lift2_arr by (by rewrite length_map).
  f_equal. f_equal. clear. revert r2.
  induction r1 as [|a r1 IH]; intros [|b r2]; simpl; try done. by rewrite IH.
Qed.

(** correlation_gufunc on two real arrays of one shape: for each pair of
    rows the quotient of their covariance by the product of their standard
    deviations, whatever numpy's division makes of it. *)
Lemma correlation_gufunc_rows (lead : list nat) (n : nat) (r1 r2 : list (list R)) :
  rows_of_shape lead n r1 -> rows_of_shape lead n r2 ->
  Forall (fun r => r ≠ []) r1 ->
  correlation_gufunc (of_rows lead n r1) (of_rows lead n r2)
  = Returns {| shape := lead; values := zip_with num_corr r1 r2 |}.
Proof.
  intros S1 S2 Hne1.
  rewrite correlation_gufunc_divisor.
  rewrite covariance_gufunc_rows, bind_Returns by done.
  rewrite correlation_divisor_rows, bind_Returns by done.
  destruct S1 as [L1 _], S2 as [L2 _].
  cbn [truediv numpy_real]. unfold arr.
  rewrite broadcast_same_shape by (rewrite length_map, length_zip_with; lia).
  f_equal. f_equal. clear. revert r2.
  induction r1 as [|a r1 IH]; intros [|b r2]; simpl; try done. by rewrite IH.
Qed.

(** ** Real arrays of any shape, through their rows *)

Lemma shape_snoc_or_nil (s : list nat) :
  s = [] \/ exists lead n, s = lead ++ [n].
Proof.
  destruct s as [|d s] using rev_ind; [by left|]. right. eauto.
Qed.

Lemma row_lists_snoc (lead : list nat) (n : nat) (xs : list R) :
  row_lists (lead ++ [n]) xs = chunks n (product lead) xs.
Proof. unfold row_lists. by rewrite last_snoc, leading_snoc. Qed.

(** A real array of rank at least 1 is the array of its rows. *)
Lemma arr_row_lists (lead : list nat) (n : nat) (xs : list R) :
  length xs = product (lead ++ [n]) ->
  arr (lead ++ [n]) xs = of_rows lead n (row_lists (lead ++ [n]) xs)
  /\ rows_of_shape lead n (row_lists (lead ++ [n]) xs).
Proof. intros Hlen. rewrite row_lists_snoc. by apply arr_of_rows. Qed.

Lemma std_last_scalar (xs : list R) (r : nparray) :
  std_last (arr [] xs) ≠ Returns r.
Proof. done. Qed.

(** The standard deviations being reals, the rows are not empty and the
    standard deviations are theirs. *)
Lemma std_rows_real (rws : list (list R)) (sd : list R) :
  map num_std (map (map Some) rws) = map Some sd ->
  Forall (fun r => r ≠ []) rws /\ sd = map rstd rws.
Proof.
  revert sd. induction rws as [|r rws IH]; intros [|s sd] Heq; try discriminate.
  - by split.
  - cbn [map] in Heq. injection Heq as Hs Hrest.
    apply num_std_real in Hs as [Hr ->]. destruct (IH _ Hrest) as [Hne ->].
    split; [by constructor|done].
Qed.

Lemma std_last_real (lead : list nat) (n : nat) (rws : list (list R))
    (t : list nat) (sd : list R) :
  rows_of_shape lead n rws ->
  std_last (of_rows lead n rws) = Returns (arr t sd) ->
  t = lead /\ Forall (fun r => r ≠ []) rws /\ sd = map rstd rws.
Proof.
  intros Hs. cbn [std_last numpy_real]. unfold np_std, reduce_last.
  rewrite rows_of_rows, shape_of_rows, last_snoc, leading_snoc by done.
  unfold arr. intros [= -> Hv]. split; [done|]. by apply std_rows_real.
Qed.

Lemma num_corr_self (r : list R) : rstd r ≠ 0%R -> num_corr r r = Some 1%R.
Proof.
  intros Hnz. unfold num_corr, num_div.
  rewrite decide_False by (by apply Rmult_integral_contrapositive).
  f_equal. by apply rcorr_self.
Qed.


Lemma num_corr_zero (a b : list R) : rstd a = 0%R -> num_corr a b = None.
Proof.
  intros Ha. unfold num_corr, num_div. rewrite Ha, Rmult_0_l.
  by rewrite decide_True.
Qed.

(** C4. For every real-valued array x (of any shape) whose standard
    deviation along the last axis is an array of nonzero reals [sd], the
    covariance of x with itself is the array of their squares and
    correlation_gufunc(x, x) is 1 at every index. *)
Theorem correlation_gufunc_self (s : list nat) (xs : list R) (t : list nat) (sd : list R) :
  length xs = product s ->
  std_last (arr s xs) = Returns (arr t sd) ->
  Forall (fun d => d ≠ 0%R) sd ->
  covariance_gufunc (arr s xs) (arr s xs) = Returns (arr t (map (fun d => d * d)%R sd))
  /\ correlation_gufunc (arr s xs) (arr s xs) = Returns (arr t (map (fun _ => 1%R) sd)).
Proof.
  intros Hlen Hstd Hnz.
  destruct (shape_snoc_or_nil s) as [->|(lead & n & ->)]; [done|].
  destruct (arr_row_lists lead n xs Hlen) as [Hx Hrows].
  rewrite Hx in *. set (rws := row_lists (lead ++ [n]) xs) in *. clearbody rws.
  destruct (std_last_real lead n rws t sd Hrows Hstd) as (-> & Hne & ->).
  rewrite Forall_forall in Hnz.
  split.
  - rewrite covariance_gufunc_rows by done. do 2 f_equal.
    rewrite zip_with_diag, !List.map_map. apply List.map_ext.
    intros r. by rewrite rcov_self, rstd_sqr.
  - rewrite correlation_gufunc_rows by done. unfold arr. do 2 f_equal.
    rewrite zip_with_diag, !List.map_map. apply map_Forall_eq.
    apply Forall_forall. intros r Hr. apply num_corr_self, Hnz.
    apply list_elem_of_In, in_map. by apply list_elem_of_In.
Qed.



Lemma rows_vec_map (f : R -> R) (x : nparray) :
  rows (vec_map f x) = map (map (fmap f)) (rows x).
Proof.
  unfold rows, vec_map. cbn [shape values].
  destruct (last (shape x)); [|done]. apply chunks_map.
Qed.

(** rankdata assigns the same ranks to order-isomorphic data. *)
Lemma bn_rankdata_increasing (f : R -> R) (x : nparray) :
  (forall a b : R, (a < b)%R -> (f a < f b)%R) ->
  bn_rankdata (vec_map f x) = bn_rankdata x.
Proof.
  intros Hf. unfold bn_rankdata. rewrite rows_vec_map.
  change (shape (vec_map f x)) with (shape x).
  destruct (last (shape x)); [|done]. do 3 f_equal.
  rewrite List.map_map. apply List.map_ext. intros row.
  by apply rank_row_increasing.
Qed.

(** rankdata on a real array: the ranks of each row. *)
Lemma rankdata_rows (lead : list nat) (n : nat) (rws : list (list R)) :
  rows_of_shape lead n rws ->
  rankdata (of_rows lead n rws) = Returns (of_rows lead n (map rank_list rws)).
Proof.
  intros Hs. cbn [rankdata numpy_real]. unfold bn_rankdata.
  rewrite rows_of_rows, shape_of_rows, last_snoc by done.
  unfold of_rows, arr. do 2 f_equal.
  rewrite map_concat_Some, !List.map_map. f_equal.
  apply List.map_ext. intros r. apply rank_row_vec.
Qed.

Lemma vec_map_arr (f : R -> R) (s : list nat) (xs : list R) :
  vec_map f (arr s xs) = arr s (map f xs).
Proof. unfold vec_map, arr. cbn [shape values]. by rewrite !List.map_map. Qed.

(** Over exact reals: applying a strictly increasing f elementwise to a real
    array x leaves bottleneck.rankdata(x), and hence the Spearman
    coefficient, unchanged, for every y (even where the call raises). *)
Lemma spearman_real_increasing (f : R -> R) (s : list nat) (xs : list R) (y : nparray) :
  (forall a b : R, (a < b)%R -> (f a < f b)%R) ->
  rankdata (arr s (map f xs)) = rankdata (arr s xs)
  /\ spearman_correlation_gufunc (arr s (map f xs)) y
     = spearman_correlation_gufunc (arr s xs) y.
Proof.
  intros Hf. rewrite <- vec_map_arr.
  assert (Hr : rankdata (vec_map f (arr s xs)) = rankdata (arr s xs))
    by (by apply bn_rankdata_increasing).
  split; [done|].
  unfold spearman_correlation_gufunc. by rewrite Hr.
Qed.

(** ** Instances *)

Ltac rank_cases :=
  unfold rank_list, rank_of, count_lt, count_eq; cbn [map];
  rewrite ?filter_cons, ?filter_nil;
  repeat (case_decide; try lra); cbn [length INR];
  repeat f_equal; try lra.

Example rank_list_distinct : rank_list [3; 1; 2]%R = [3; 1; 2]%R.
Proof. rank_cases. Qed.

Example rank_list_ties : rank_list [5; 1; 5]%R = [5 / 2; 1; 5 / 2]%R.
Proof. rank_cases. Qed.

Lemma rstd_0_2 : rstd [0; 2]%R = 1%R.
Proof.
  unfold rstd. replace (rvar [0; 2]%R) with 1%R; [apply sqrt_1|].
  unfold rvar. replace (rmean [0; 2]%R) with 1%R by (unfold rmean, rsum; simpl; lra).
  unfold rmean, rsum. simpl. lra.
Qed.

Lemma rstd_1_3 : rstd [1; 3]%R = 1%R.
Proof.
  unfold rstd. replace (rvar [1; 3]%R) with 1%R; [apply sqrt_1|].
  unfold rvar. replace (rmean [1; 3]%R) with 2%R by (unfold rmean, rsum; simpl; lra).
  unfold rmean, rsum. simpl. lra.
Qed.

(** A 2 x 2 array with rows 0, 2 and 1, 3: both standard deviations are 1. *)
Lemma std_last_2x2 :
  std_last (arr [2; 2] [0; 2; 1; 3]%R) = Returns (arr [2] [1; 1]%R).
Proof.
  change [2; 2] with ([2] ++ [2]).
  rewrite (proj1 (arr_row_lists [2] 2 [0; 2; 1; 3]%R eq_refl)).
  cbn [std_last numpy_real]. rewrite np_std_rows.
  - cbn [row_lists chunks map]. cbn. by rewrite rstd_0_2, rstd_1_3.
  - by apply arr_row_lists.
  - cbn. by repeat constructor.
Qed.

Lemma nonzero_1_1 : Forall (fun d => d ≠ 0%R) [1; 1]%R.
Proof. repeat constructor; exact R1_neq_R0. Qed.

Lemma correlation_gufunc_self_witness :
  correlation_gufunc (arr [2; 2] [0; 2; 1; 3]%R) (arr [2; 2] [0; 2; 1; 3]%R)
  = Returns (arr [2] [1; 1]%R).
Proof.
  exact (proj2 (correlation_gufunc_self [2; 2] [0; 2; 1; 3]%R [2] [1; 1]%R
                  eq_refl std_last_2x2 nonzero_1_1)).
Defined.

(** Two vectors numpy cannot broadcast: the ValueError of the product in
    covariance_gufunc is the outcome of correlation_gufunc. *)
Lemma correlation_gufunc_mismatch_example :
  correlation_gufunc (vec [0; 2]%R) (vec [0; 2; 4]%R) = Raises ValueError.
Proof. reflexivity. Qed.

(** ** The functions in binary64 *)

Lemma count_where_map {A B} (p : B -> bool) (f : A -> B) (l : list A) :
  count_where p (map f l) = count_where (fun a => p (f a)) l.
Proof.
  unfold count_where. induction l as [|a l IH]; [done|].
  cbn [map List.filter]. destruct (p (f a)); cbn [length]; by rewrite IH.
Qed.

Lemma count_where_ext {A} (p q : A -> bool) (l : list A) :
  (forall a, a ∈ l -> p a = q a) -> count_where p l = count_where q l.
Proof.
  unfold count_where. induction l as [|a l IH]; intros Hpq; [done|].
  cbn [List.filter]. rewrite (Hpq a) by (apply elem_of_cons; by left).
  assert (IH' : length (List.filter p l) = length (List.filter q l)).
  { apply IH. intros b Hb. apply Hpq. apply elem_of_cons. by right. }
  destruct (q a); cbn [length]; by rewrite IH'.
Qed.

Lemma elem_of_take_list {A} (a : A) (i : nat) (l : list A) : a ∈ take i l -> a ∈ l.
Proof. intros Ha. rewrite <- (take_drop i l). apply elem_of_app. by left. Qed.

Lemma elem_of_drop_list {A} (a : A) (i : nat) (l : list A) : a ∈ drop i l -> a ∈ l.
Proof. intros Ha. rewrite <- (take_drop i l). apply elem_of_app. by right. Qed.

Lemma is_nan_eqb (v : float) : PrimFloat.is_nan v = negb (PrimFloat.eqb v v).
Proof. reflexivity. Qed.

(** The ranks of a row are those of any row in the same order with the
    same ties. *)
Lemma rank_row64_order (f : float -> float) (l : list float) :
  (forall a b : float, a ∈ l -> b ∈ l ->
     PrimFloat.ltb (f a) (f b) = PrimFloat.ltb a b
     /\ PrimFloat.eqb (f a) (f b) = PrimFloat.eqb a b) ->
  rank_row64 (map f l) = rank_row64 l.
Proof.
  intros Hf. unfold rank_row64. rewrite imap_fmap. apply imap_ext.
  intros i x Hx. cbn. apply list_elem_of_lookup_2 in Hx as Hin.
  assert (Hnan : forall a, a ∈ l -> PrimFloat.is_nan (f a) = PrimFloat.is_nan a).
  { intros a Ha. rewrite !is_nan_eqb. f_equal. by apply Hf. }
  unfold rank_at. rewrite (Hnan x Hin).
  rewrite <- fmap_take, !count_where_map.
  rewrite (count_where_ext (fun a => negb (PrimFloat.is_nan (f a)))
                           (fun a => negb (PrimFloat.is_nan a)) l)
    by (intros a Ha; f_equal; by apply Hnan).
  rewrite (count_where_ext (fun a => PrimFloat.is_nan (f a)) PrimFloat.is_nan (take i l))
    by (intros a Ha; apply Hnan; by eapply elem_of_take_list).
  rewrite (count_where_ext (fun a => PrimFloat.ltb (f a) (f x))
                           (fun a => PrimFloat.ltb a x) l)
    by (intros a Ha; by apply Hf).
  rewrite (count_where_ext (fun a => PrimFloat.eqb (f a) (f x))
                           (fun a => PrimFloat.eqb a x) l)
    by (intros a Ha; by apply Hf).
  reflexivity.
Qed.

Lemma frows_map (f : float -> float) (x : farray) :
  frows (farray_map f x) = map (map f) (frows x).
Proof.
  unfold frows, farray_map. cbn [fshape fvalues].
  destruct (last (fshape x)); [|done]. apply chunks_map.
Qed.

Lemma chunks_elem_of {A} (k count : nat) (v r : list A) (a : A) :
  r ∈ chunks k count v -> a ∈ r -> a ∈ v.
Proof.
  revert v. induction count as [|c IH]; intros v Hr Ha; cbn [chunks] in Hr.
  - by apply elem_of_nil in Hr.
  - apply elem_of_cons in Hr as [->|Hr].
    + by eapply elem_of_take_list.
    + eapply elem_of_drop_list. by eapply IH.
Qed.

Lemma frows_elem_of (x : farray) (r : list float) (a : float) :
  r ∈ frows x -> a ∈ r -> a ∈ fvalues x.
Proof.
  unfold frows. destruct (last (fshape x)); [|by intros ?%elem_of_nil].
  apply chunks_elem_of.
Qed.

(** bottleneck.rankdata assigns the same ranks to data in the same order. *)
Lemma bn_rankdata64_order (f : float -> float) (x : farray) :
  order_preserving f x -> bn_rankdata64 (farray_map f x) = bn_rankdata64 x.
Proof.
  intros Hf. unfold bn_rankdata64. rewrite frows_map.
  change (fshape (farray_map f x)) with (fshape x).
  destruct (last (fshape x)); [|done]. do 3 f_equal.
  rewrite List.map_map. apply map_Forall_eq, Forall_forall. intros r Hr.
  apply rank_row64_order. intros a b Ha Hb.
  apply Hf; eapply frows_elem_of; eauto.
Qed.

(** ** The functions in binary64, row by row *)

Section Rows64.
Variables (lead : list nat) (n : nat).

Lemma frows_of_rows (rws : list (list float)) :
  rows_of_shape64 lead n rws -> frows (of_rows64 lead n rws) = rws.
Proof.
  intros [Hlen Hn]. unfold frows, of_rows64. cbn [fshape fvalues].
  by rewrite last_snoc, leading_snoc, <- Hlen, chunks_concat.
Qed.

Lemma reduce_last64_rows (g : list float -> float) (keepdims : bool)
    (rws : list (list float)) :
  rows_of_shape64 lead n rws ->
  reduce_last64 g keepdims (of_rows64 lead n rws)
  = Returns (if keepdims
             then {| fshape := lead ++ [1]; fvalues := concat (map (fun r => [g r]) rws) |}
             else {| fshape := lead; fvalues := map g rws |}).
Proof.
  intros Hs. unfold reduce_last64. rewrite frows_of_rows by done.
  cbn [fshape of_rows64]. rewrite last_snoc, leading_snoc.
  destruct keepdims; [|done]. by rewrite concat_singletons.
Qed.

(** x - x.mean(axis=-1, keepdims=True), row by row. *)
Lemma broadcast64_keepdims (f : float -> float -> float) (m : list float -> float)
    (rws : list (list float)) :
  rows_of_shape64 lead n rws ->
  broadcast64 f (of_rows64 lead n rws)
              {| fshape := lead ++ [1]; fvalues := concat (map (fun r => [m r]) rws) |}
  = Returns (of_rows64 lead n (map (fun r => map (fun x => f x (m r)) r) rws)).
Proof.
  intros [Hlen Hn]. unfold broadcast64, of_rows64. cbn [fshape fvalues].
  rewrite broadcast_shapes_keepdims.
  rewrite !length_app, !pad_shape_same_length by (by rewrite !length_app).
  do 2 f_equal. rewrite concat_singletons.
  rewrite broadcast_values_keepdims by (by rewrite ?length_map).
  f_equal. rewrite zip_with_fmap_r, zip_with_diag. done.
Qed.

Lemma broadcast64_rows (f : float -> float -> float) (r1 r2 : list (list float)) :
  rows_of_shape64 lead n r1 -> rows_of_shape64 lead n r2 ->
  broadcast64 f (of_rows64 lead n r1) (of_rows64 lead n r2)
  = Returns (of_rows64 lead n (zip_with (zip_with f) r1 r2)).
Proof.
  intros [L1 H1] [L2 H2]. unfold broadcast64, of_rows64. cbn [fshape fvalues].
  rewrite broadcast_shapes_same, pad_shape_same.
  rewrite broadcast_values_same
    by (rewrite (length_concat_uniform n), product_snoc by done; lia).
  by rewrite (concat_zip_with_rows f n).
Qed.

Lemma rows_of_shape64_map (g : list float -> list float) (rws : list (list float)) :
  (forall r, length (g r) = length r) ->
  rows_of_shape64 lead n rws -> rows_of_shape64 lead n (map g rws).
Proof.
  intros Hg [Hlen Hn]. split; [by rewrite length_map|].
  apply Forall_forall. intros r Hr.
  apply list_elem_of_In, in_map_iff in Hr as (r' & <- & Hr').
  rewrite Hg. rewrite Forall_forall in Hn. apply Hn. by apply list_elem_of_In.
Qed.

Lemma mean64_products (r1 r2 : list (list float)) :
  map mean64
      (zip_with (zip_with PrimFloat.mul)
                (map (fun r => map (fun x => PrimFloat.sub x (mean64 r)) r) r1)
                (map (fun r => map (fun x => PrimFloat.sub x (mean64 r)) r) r2))
  = zip_with cov64 r1 r2.
Proof.
  revert r2. induction r1 as [|a r1 IH]; intros [|b r2]; simpl; try done.
  rewrite IH. f_equal. unfold cov64. f_equal.
  by rewrite zip_with_fmap_l, zip_with_fmap_r.
Qed.

(** covariance_gufunc on two arrays of one shape: [cov64] of each pair of
    rows. *)
Lemma covariance_gufunc_rows64 (r1 r2 : list (list float)) :
  rows_of_shape64 lead n r1 -> rows_of_shape64 lead n r2 ->
  covariance_gufunc (of_rows64 lead n r1) (of_rows64 lead n r2)
  = Returns {| fshape := lead; fvalues := zip_with cov64 r1 r2 |}.
Proof.
  intros S1 S2.
  assert (C1 : rows_of_shape64 lead n (map (fun r => map (fun x => PrimFloat.sub x (mean64 r)) r) r1))
    by (apply rows_of_shape64_map; [intros r; by rewrite length_map|done]).
  assert (C2 : rows_of_shape64 lead n (map (fun r => map (fun x => PrimFloat.sub x (mean64 r)) r) r2))
    by (apply rows_of_shape64_map; [intros r; by rewrite length_map|done]).
  unfold covariance_gufunc. cbn [mean_last sub mul numpy_binary64].
  rewrite (reduce_last64_rows mean64 true r1), bind_Returns by done.
  rewrite (broadcast64_keepdims PrimFloat.sub mean64 r1), bind_Returns by done.
  rewrite (reduce_last64_rows mean64 true r2), bind_Returns by done.
  rewrite (broadcast64_keepdims PrimFloat.sub mean64 r2), bind_Returns by done.
  rewrite broadcast64_rows, bind_Returns by done.
  destruct C1 as [L1 H1], C2 as [L2 H2].
  rewrite (reduce_last64_rows mean64 false).
  - by rewrite mean64_products.
  - by apply zip_with_rows_shape.
Qed.

Lemma correlation_divisor_rows64 (r1 r2 : list (list float)) :
  rows_of_shape64 lead n r1 -> rows_of_shape64 lead n r2 ->
  correlation_divisor (of_rows64 lead n r1) (of_rows64 lead n r2)
  = Returns {| fshape := lead;
               fvalues := zip_with (fun a b => PrimFloat.mul (std64 a) (std64 b)) r1 r2 |}.
Proof.
  intros S1 S2. unfold correlation_divisor. cbn [std_last mul numpy_binary64].
  rewrite !(reduce_last64_rows std64 false), !bind_Returns by done.
  destruct S1 as [L1 _], S2 as [L2 _].
  unfold broadcast64. cbn [fshape fvalues].
  rewrite broadcast_shapes_same, pad_shape_same.
  rewrite broadcast_values_same by (by rewrite length_map).
  by rewrite zip_with_fmap_l, zip_with_fmap_r.
Qed.

(** correlation_gufunc on two arrays of one shape: [corr64] of each pair
    of rows, whatever the divisor is. *)
Lemma correlation_gufunc_rows64 (r1 r2 : list (list float)) :
  rows_of_shape64 lead n r1 -> rows_of_shape64 lead n r2 ->
  correlation_gufunc (of_rows64 lead n r1) (of_rows64 lead n r2)
  = Returns {| fshape := lead; fvalues := zip_with corr64 r1 r2 |}.
Proof.
  intros S1 S2. rewrite correlation_gufunc_divisor.
  rewrite covariance_gufunc_rows64, bind_Returns by done.
  rewrite correlation_divisor_rows64, bind_Returns by done.
  destruct S1 as [L1 _], S2 as [L2 _].
  cbn [truediv numpy_binary64]. unfold broadcast64. cbn [fshape fvalues].
  rewrite broadcast_shapes_same, pad_shape_same.
  rewrite broadcast_values_same by (rewrite length_zip_with; lia).
  do 2 f_equal. clear. revert r2.
  induction r1 as [|a r1 IH]; intros [|b r2]; simpl; try done. by rewrite IH.
Qed.
End Rows64.

Lemma farray_as_rows (x : farray) (lead : list nat) (n : nat) :
  well_formed64 x -> fshape x = lead ++ [n] ->
  x = {| fshape := lead ++ [n]; fvalues := concat (frows x) |}
  /\ length (frows x) = product lead
  /\ Forall (fun r => length r = n) (frows x).
Proof.
  unfold well_formed64, frows. destruct x as [s v]. cbn [fshape fvalues].
  intros Hwf ->. rewrite product_snoc in Hwf.
  rewrite last_snoc, leading_snoc.
  split; [by rewrite concat_chunks|].
  split; [apply chunks_length|]. apply chunks_Forall_length. lia.
Qed.

(** On two arrays of one shape, of rank at least 1, covariance_gufunc and
    correlation_gufunc return, for every pair of rows, what the operations
    of the source give in binary64. *)
Lemma gufuncs_by_rows64 (x y : farray) :
  well_formed64 x -> well_formed64 y ->
  fshape x = fshape y -> fshape x ≠ [] ->
  covariance_gufunc x y
  = Returns {| fshape := leading (fshape x);
               fvalues := zip_with cov64 (frows x) (frows y) |}
  /\ correlation_divisor x y
     = Returns {| fshape := leading (fshape x);
                  fvalues := zip_with (fun a b => PrimFloat.mul (std64 a) (std64 b))
                                      (frows x) (frows y) |}
  /\ correlation_gufunc x y
     = Returns {| fshape := leading (fshape x);
                  fvalues := zip_with corr64 (frows x) (frows y) |}.
Proof.
  intros Hx Hy Hs Hne.
  destruct (shape_snoc_or_nil (fshape x)) as [?|(lead & n & Hsx)]; [done|].
  destruct (farray_as_rows x lead n Hx Hsx) as (Ex & Lx & Fx).
  destruct (farray_as_rows y lead n Hy) as (Ey & Ly & Fy); [congruence|].
  rewrite Hsx, leading_snoc.
  set (r1 := frows x) in *. set (r2 := frows y) in *. clearbody r1 r2.
  rewrite Ex, Ey.
  split; [by apply covariance_gufunc_rows64|].
  split; [by apply correlation_divisor_rows64|by apply correlation_gufunc_rows64].
Qed.

(** ** Division by zero in binary64 *)




(** The division itself raises only when the shapes of its operands do not
    broadcast: no value of the divisor stops it. *)
Lemma truediv64_raises (c d : farray) (e : exn) :
  truediv c d = Raises e
  <-> e = ValueError /\ broadcast_shapes (fshape c) (fshape d) = None.
Proof.
  cbn [truediv numpy_binary64]. unfold broadcast64.
  destruct (broadcast_shapes (fshape c) (fshape d)); split.
  - discriminate.
  - by intros [_ ?].
  - by intros [= <-].
  - by intros [-> _].
Qed.





(** C5, as stated, fails: t + 1e16 is strictly increasing in t, but numpy,
    adding in binary64, takes 0 and 0.5 to the same number; the ranks 1, 2
    of x become the tie 1.5, 1.5 and the coefficient 1 becomes nan. *)
Lemma spearman_correlation_gufunc_not_shift_invariant :
  farray_map (fun t => t + 1e16)%float (fvec [0; 0.5]%float) = fvec [1e16; 1e16]%float
  /\ rankdata (fvec [0; 0.5]%float) = Returns (fvec [1; 2]%float)
  /\ rankdata (fvec [1e16; 1e16]%float) = Returns (fvec [1.5; 1.5]%float)
  /\ spearman_correlation_gufunc (fvec [0; 0.5]%float) (fvec [0; 1]%float)
     = Returns (fscalar 1%float)
  /\ spearman_correlation_gufunc (farray_map (fun t => t + 1e16)%float (fvec [0; 0.5]%float))
                                 (fvec [0; 1]%float)
     = Returns (fscalar PrimFloat.nan)
  /\ ~ shift_invariant.
Proof.
  split; [by vm_compute|]. split; [by vm_compute|]. split; [by vm_compute|].
  split; [by vm_compute|]. split; [by vm_compute|].
  intros Hinv.
  specialize (Hinv 1e16%float (fvec [0; 0.5]%float) (fvec [0; 1]%float) eq_refl).
  vm_compute in Hinv. discriminate Hinv.
Qed.

(** C5, amended.  spearman_correlation_gufunc depends on x only through
    the rank order of its entries along the last axis.  In binary64: for
    every f that, applied elementwise, keeps the order and the ties of the
    entries of x as numpy compares them (a < b and a == b; nan, equal to
    nothing, stays nan), bottleneck.rankdata gives f(x) the ranks of x, and
    spearman_correlation_gufunc(f(x), y) = spearman_correlation_gufunc(x, y)
    for every y, even where the call raises.  Over exact reals, where no
    rounding merges two entries: the same for every strictly increasing f
    and all real arrays x and y. *)
Theorem spearman_correlation_gufunc_monotone :
  (forall (f : float -> float) (x y : farray),
      order_preserving f x ->
      rankdata (farray_map f x) = rankdata x
      /\ spearman_correlation_gufunc (farray_map f x) y
         = spearman_correlation_gufunc x y)
  /\
  (forall (f : R -> R) (s t : list nat) (xs ys : list R),
      (forall a b : R, (a < b)%R -> (f a < f b)%R) ->
      rankdata (arr s (map f xs)) = rankdata (arr s xs)
      /\ spearman_correlation_gufunc (arr s (map f xs)) (arr t ys)
         = spearman_correlation_gufunc (arr s xs) (arr t ys)).
Proof.
  split.
  - intros f x y Hf.
    assert (Hr : rankdata (farray_map f x) = rankdata x)
      by (by apply bn_rankdata64_order).
    split; [done|].
    unfold spearman_correlation_gufunc. by rewrite Hr.
  - intros f s t xs ys. apply spearman_real_increasing.
Qed.

Lemma spearman_correlation_gufunc_monotone_witness :
  spearman_correlation_gufunc
    (farray_map (fun t => 2 * t + 1)%float
                {| fshape := [2; 2]; fvalues := [3; 1; 2; 2]%float |})
    {| fshape := [2; 2]; fvalues := [0; 2; 1; 3]%float |}
  = spearman_correlation_gufunc
      {| fshape := [2; 2]; fvalues := [3; 1; 2; 2]%float |}
      {| fshape := [2; 2]; fvalues := [0; 2; 1; 3]%float |}
  /\ spearman_correlation_gufunc (arr [2; 2] (map (fun t => 2 * t + 1)%R [3; 1; 2; 2]%R))
                                 (arr [2; 2] [0; 2; 1; 3]%R)
     = spearman_correlation_gufunc (arr [2; 2] [3; 1; 2; 2]%R) (arr [2; 2] [0; 2; 1; 3]%R).
Proof.
  split.
  - refine (proj2 (proj1 spearman_correlation_gufunc_monotone
                     (fun t => 2 * t + 1)%float
                     {| fshape := [2; 2]; fvalues := [3; 1; 2; 2]%float |}
                     {| fshape := [2; 2]; fvalues := [0; 2; 1; 3]%float |} _)).
    intros a b Ha Hb. cbn [fvalues] in Ha, Hb.
    repeat (apply elem_of_cons in Ha as [->|Ha]);
      try (by apply elem_of_nil in Ha);
      repeat (apply elem_of_cons in Hb as [->|Hb]);
      try (by apply elem_of_nil in Hb);
      by vm_compute.
  - refine (proj2 (proj2 spearman_correlation_gufunc_monotone
                     (fun t => 2 * t + 1)%R [2; 2] [2; 2] [3; 1; 2; 2]%R
                     [0; 2; 1; 3]%R _)).
    intros a b Hab. lra.
Defined.

(** Rounding in the coefficient itself: in binary64 the correlation of a
    row with itself can miss 1 in the last place, on either side. *)
Example spearman_correlation_gufunc_self_below_1 :
  spearman_correlation_gufunc (fvec [1; 2; 3; 4]%float) (fvec [1; 2; 3; 4]%float)
  = Returns (fscalar 0x1.ffffffffffffep-1%float).
Proof. by vm_compute. Qed.

Example spearman_correlation_gufunc_self_above_1 :
  spearman_correlation_gufunc (fvec [0; 0; 0; 1]%float) (fvec [0; 0; 0; 1]%float)
  = Returns (fscalar 0x1.0000000000001p+0%float).
Proof. by vm_compute. Qed.

(** bottleneck ranks nan last, each nan on its own. *)
Example rankdata_nan_last :
  rankdata (fvec [1; PrimFloat.nan; 0]%float) = Returns (fvec [2; 3; 1]%float).
Proof. by vm_compute. Qed.

(** ** The syntax trees denote the embedded functions *)

Section DenotationTheorems.
Context {arr : Type} `{ArrayLib arr}.

(** Both sides run the same library calls in the same order: follow them
  one result at a time. *)
Ltac evaluate :=
cbv -[mean_last std_last sum_axis sub mul truediv of_int rankdata].
Ltac follow call := destruct call; evaluate; try reflexivity.
Ltac run_library :=
evaluate;
repeat match goal with
       | |- context [mean_last ?a ?k] => follow (mean_last a k)
       | |- context [std_last ?a] => follow (std_last a)
       | |- context [sum_axis ?a ?z] => follow (sum_axis a z)
       | |- context [rankdata ?a] => follow (rankdata a)
       | |- context [sub ?a ?b] => follow (sub a b)
       | |- context [mul ?a ?b] => follow (mul a b)
       | |- context [truediv ?a ?b] => follow (truediv a b)
       end.

Lemma sum_minus_2_denotes (da : arr) (axis : Z) :
call [] notebook_globals def_sum_minus_2 [VArr da; VInt axis]
= VArr <$> sum_minus_2 da axis.
Proof. run_library. Qed.

Lemma covariance_gufunc_denotes (x y : arr) :
call [] notebook_globals def_covariance_gufunc [VArr x; VArr y]
= VArr <$> covariance_gufunc x y.
Proof. run_library. Qed.

Lemma correlation_gufunc_denotes (x y : arr) :
call functions_1 notebook_globals def_correlation_gufunc [VArr x; VArr y]
= VArr <$> correlation_gufunc x y.
Proof. run_library. Qed.

Lemma spearman_correlation_gufunc_denotes (x y : arr) :
call functions_2 notebook_globals def_spearman_correlation_gufunc [VArr x; VArr y]
= VArr <$> spearman_correlation_gufunc x y.
Proof. run_library. Qed.

End DenotationTheorems.

(** ** The notebook documents and their code *)

(** The syntax trees are the code of the cells: token for token, the source
    text of each code cell is the text of its tree. *)
Lemma data_structures_code_matches_source :
  map tokenize <$> (code_sources <$> decode_notebook data_structures_ipynb)
  = Some (map cell_tokens data_structures_code).
Proof. vm_compute. reflexivity. Qed.

Lemma computation_toolkit_code_matches_source :
  map tokenize <$> (code_sources <$> decode_notebook computation_toolkit_ipynb)
  = Some (map cell_tokens computation_toolkit_code).
Proof. vm_compute. reflexivity. Qed.

Lemma notebooks_decode :
  exists nb1 nb2 : notebook,
    decode_notebook data_structures_ipynb = Some nb1
    /\ decode_notebook computation_toolkit_ipynb = Some nb2
    /\ forallb (fun c => is_markdown c || is_code c) (cells nb1 ++ cells nb2) = true.
Proof.
  destruct (decode_notebook data_structures_ipynb) as [nb1|] eqn:E1;
    [|by vm_compute in E1].
  destruct (decode_notebook computation_toolkit_ipynb) as [nb2|] eqn:E2;
    [|by vm_compute in E2].
  exists nb1, nb2.
  vm_compute in E1. vm_compute in E2.
  injection E1 as <-. injection E2 as <-.
  repeat split; vm_compute; reflexivity.
Qed.

(** C10, as stated, fails: the file format is not the only boundary.  The
    cells import numpy, xarray and bottleneck and call into them (the second
    code cell of the computation notebook calls xr.tutorial.load_dataset,
    which reads a dataset from outside the repository); and the checkpoint
    of the computation notebook holds no captured output. *)
Lemma notebooks_cross_the_library_interface :
  imported_modules (data_structures_code ++ computation_toolkit_code)
  = ["numpy"; "xarray"; "numpy"; "xarray"; "bottleneck"]
  /\ computation_toolkit_code !! 1
     = Some [Assign [Name "ds"]
               (Call (Attribute (Attribute (Name "xr") "tutorial") "load_dataset")
                     [Str "rasm"] []);
             Assign [Name "da"] (Subscript (Name "ds") (Str "Tair"));
             Expr (Name "ds")]
  /\ "xr.tutorial.load_dataset" ∈ library_calls computation_toolkit_code
  /\ ~ file_format_is_only_boundary computation_toolkit_code
  /\ ~ file_format_is_only_boundary data_structures_code
  /\ (exists nb2 : notebook,
        decode_notebook computation_toolkit_ipynb = Some nb2
        /\ ~ has_captured_outputs nb2).
Proof.
  split; [by vm_compute|]. split; [by vm_compute|].
  split; [vm_compute; set_solver|].
  split; [intros [H _]; by vm_compute in H|].
  split; [intros [H _]; by vm_compute in H|].
  destruct (decode_notebook computation_toolkit_ipynb) as [nb2|] eqn:E2;
    [|by vm_compute in E2].
  exists nb2. split; [done|].
  vm_compute in E2. injection E2 as <-.
  intros H. apply H. by vm_compute.
Qed.

(** C10, amended.  The repository has two boundaries: the notebook file
    format and the interface of the libraries its cells import.  Both files
    are nbformat-4 documents (minor version 2): a sequence of cells, each a
    markdown cell or a code cell, 16 of them (6 markdown, 10 code) in the
    data-structures notebook and 26 (9 markdown, 17 code) in the computation
    notebook; every code cell carries its list of captured outputs, and
    every captured output is an execute_result with a text/plain rendering
    under the execution count of its cell: 7 outputs in the first notebook,
    none in the checkpoint of the second.  The cells import numpy (as np),
    xarray (as xr) and bottleneck, and every call in them is a call of a
    library function through one of these modules (the ones listed), a
    method call on a value, or a call of a function the notebook defines. *)
Theorem notebooks_are_nbformat_documents :
  (exists nb1 nb2 : notebook,
    decode_notebook data_structures_ipynb = Some nb1
    /\ decode_notebook computation_toolkit_ipynb = Some nb2
    /\ (nbformat nb1, nbformat_minor nb1) = (4%Z, 2%Z)
    /\ (nbformat nb2, nbformat_minor nb2) = (4%Z, 2%Z)
    /\ forallb (fun c => is_markdown c || is_code c) (cells nb1 ++ cells nb2) = true
    /\ (count_where is_markdown (cells nb1), count_where is_code (cells nb1)) = (6, 10)
    /\ (count_where is_markdown (cells nb2), count_where is_code (cells nb2)) = (9, 17)
    /\ forallb outputs_captured (cells nb1 ++ cells nb2) = true
    /\ length (flat_map cell_outputs (cells nb1)) = 7
    /\ length (flat_map cell_outputs (cells nb2)) = 0)
  /\ import_names data_structures_code = ["np"; "xr"]
  /\ import_names computation_toolkit_code = ["np"; "xr"; "bottleneck"]
  /\ library_calls data_structures_code
     = ["np.random.random"; "xr.DataArray"; "xr.DataArray"; "xr.Dataset";
        "xr.Dataset"; "xr.DataArray"; "np.random.random"]
  /\ library_calls computation_toolkit_code
     = ["xr.tutorial.load_dataset"; "np.random.random"; "bottleneck.rankdata";
        "bottleneck.rankdata"; "xr.apply_ufunc"; "xr.where"]
  /\ method_calls data_structures_code = []
  /\ method_calls computation_toolkit_code
     = ["mean"; "mean"; "mean"; "groupby"; "rolling"; "mean"; "sum"; "reduce";
        "mean"; "mean"; "mean"; "std"; "std"; "where"]
  /\ flat_map bare_callees (data_structures_code ++ computation_toolkit_code)
     = ["covariance_gufunc"; "correlation_gufunc"; "spearman_correlation"]
  /\ count_where is_call (all_exprs data_structures_code) = 7 + 0 + 0
  /\ count_where is_call (all_exprs computation_toolkit_code) = 6 + 14 + 3.
Proof.
  split.
  { destruct (decode_notebook data_structures_ipynb) as [nb1|] eqn:E1;
      [|by vm_compute in E1].
    destruct (decode_notebook computation_toolkit_ipynb) as [nb2|] eqn:E2;
      [|by vm_compute in E2].
    exists nb1, nb2.
    vm_compute in E1. vm_compute in E2.
    injection E1 as <-. injection E2 as <-.
    repeat split; vm_compute; reflexivity. }
  repeat split; vm_compute; reflexivity.
Qed.

(** C1, as stated, fails: the tenth code cell of the computation notebook
    defines sum_minus_2, so it is not a sequence of library calls, and the
    notebook defines functions of its own. *)
Lemma computation_toolkit_not_delegated_entirely :
  computation_toolkit_code !! 9
  = Some [def_sum_minus_2;
          Expr (Call (Attribute (Name "roller") "reduce") [Name "sum_minus_2"] [])]
  /\ sequential_calls_only
       [def_sum_minus_2;
        Expr (Call (Attribute (Name "roller") "reduce") [Name "sum_minus_2"] [])] = false
  /\ ~ delegated_entirely computation_toolkit_code.
Proof.
  split; [reflexivity|]. split; [reflexivity|].
  intros [Hseq _].
  specialize (Hseq _ (list_elem_of_lookup_2 computation_toolkit_code 9 _ eq_refl)).
  discriminate Hseq.
Qed.

(** C1, amended.  The libraries the cells import are numpy, xarray and
    bottleneck.  Every code cell of the data-structures notebook, and every
    code cell of the computation notebook but the tenth, twelfth and
    thirteenth, is a sequence of imports, assignments and expression
    statements.  Those three cells define the five functions of the
    repository; no cell or function body holds control flow; the only calls
    to bare names are calls of these functions from one another and from a
    cell; and the function bodies apply arithmetic of their own: a
    subtraction in sum_minus_2, a product of two differences in
    covariance_gufunc, a quotient by a product in correlation_gufunc. *)
Theorem notebooks_delegate_except_defined_functions :
  imported_modules (data_structures_code ++ computation_toolkit_code)
  = ["numpy"; "xarray"; "numpy"; "xarray"; "bottleneck"]
  /\ cells_with_logic data_structures_code = []
  /\ cells_with_logic computation_toolkit_code = [9; 11; 12]
  /\ defined_functions data_structures_code = []
  /\ defined_functions computation_toolkit_code
     = ["sum_minus_2"; "covariance_gufunc"; "correlation_gufunc";
        "spearman_correlation_gufunc"; "spearman_correlation"]
  /\ forallb (fun s => negb (is_control_flow s))
             (all_stmts (data_structures_code ++ computation_toolkit_code)) = true
  /\ flat_map bare_callees (data_structures_code ++ computation_toolkit_code)
     = ["covariance_gufunc"; "correlation_gufunc"; "spearman_correlation"]
  /\ map body_operators
         [def_sum_minus_2; def_covariance_gufunc; def_correlation_gufunc;
          def_spearman_correlation_gufunc; def_spearman_correlation]
     = [[Sub]; [Mult; Sub; Sub]; [Div; Mult]; []; []].
Proof. repeat split; vm_compute; reflexivity. Qed.

(** ** Exceptions *)

(** A sequence of two steps fails where its first step fails, or where the
    first step returns and the rest fails. *)
Lemma bind_raises_iff {A B : Type} (m : result A) (k : A -> result B) (e : exn) :
  (m ≫= k) = Raises e
  <-> m = Raises e \/ exists v, m = Returns v /\ k v = Raises e.
Proof.
  destruct m as [v|e']; rewrite ?bind_Returns, ?bind_Raises; split.
  - intros Hk. right. by exists v.
  - intros [?|(v' & [= <-] & Hk)]; [discriminate|done].
  - intros [= ->]. by left.
  - intros [[= ->]|(v' & ? & _)]; [done|discriminate].
Qed.

Section Propagation.
Context {arr : Type} `{ArrayLib arr}.

Lemma sum_minus_2_raises (da : arr) (axis : Z) (e : exn) :
  sum_minus_2 da axis = Raises e <-> sum_minus_2_fails da axis e.
Proof. unfold sum_minus_2, sum_minus_2_fails. by rewrite bind_raises_iff. Qed.

Lemma covariance_gufunc_raises (x y : arr) (e : exn) :
  covariance_gufunc x y = Raises e <-> covariance_gufunc_fails x y e.
Proof.
  unfold covariance_gufunc, covariance_gufunc_fails.
  by repeat setoid_rewrite bind_raises_iff.
Qed.

Lemma correlation_gufunc_raises (x y : arr) (e : exn) :
  correlation_gufunc x y = Raises e <-> correlation_gufunc_fails x y e.
Proof.
  unfold correlation_gufunc_fails. rewrite <- covariance_gufunc_raises.
  unfold correlation_gufunc. by repeat setoid_rewrite bind_raises_iff.
Qed.

Lemma spearman_correlation_gufunc_raises (x y : arr) (e : exn) :
  spearman_correlation_gufunc x y = Raises e
  <-> spearman_correlation_gufunc_fails x y e.
Proof.
  unfold spearman_correlation_gufunc_fails.
  setoid_rewrite <- correlation_gufunc_raises.
  unfold spearman_correlation_gufunc. by repeat setoid_rewrite bind_raises_iff.
Qed.
End Propagation.

(** C6, as stated, fails: a failure can pass without an exception.  For
    x = 0, 0, 0 the divisor in correlation_gufunc is zero; numpy divides
    all the same and the call returns nan. *)
Lemma division_by_zero_raises_nothing :
  divides_by_zero (fvec [0; 0; 0]%float) (fvec [1; 2; 3]%float)
  /\ correlation_gufunc (fvec [0; 0; 0]%float) (fvec [1; 2; 3]%float)
     = Returns (fscalar PrimFloat.nan)
  /\ ~ failures_surface.
Proof.
  assert (Hz : divides_by_zero (fvec [0; 0; 0]%float) (fvec [1; 2; 3]%float)).
  { exists (fscalar 0%float). split; [by vm_compute|]. constructor. by vm_compute. }
  split; [exact Hz|]. split; [by vm_compute|].
  intros Hs. destruct (Hs _ _ Hz) as [e He]. by vm_compute in He.
Qed.

(** C6, amended.  No cell of either notebook, and no function body in
    them, holds a try or with statement (nothing catches or intercepts an
    exception) or a raise statement (nothing in the repository starts one),
    and no captured output records an error.  Under every implementation of
    the library, a call of one of the notebook's functions ends with an
    exception exactly when one of the library calls it makes, reached in the
    order of the source, raises it: the exception is the library's own,
    passed on unchanged.  A failure that the library does not raise does
    not surface: in binary64 the division raises for operands whose shapes
    do not broadcast and for nothing else, and on two arrays of one shape
    (of rank at least 1) correlation_gufunc returns the quotients row by
    row, a zero divisor or not. *)
Theorem notebooks_no_error_handling :
  forallb (fun s => negb (handles_exception s) && negb (raises_exception s))
          (all_stmts (data_structures_code ++ computation_toolkit_code)) = true
  /\ (exists nb1 nb2 : notebook,
        decode_notebook data_structures_ipynb = Some nb1
        /\ decode_notebook computation_toolkit_ipynb = Some nb2
        /\ forallb (fun o => negb (is_error_output o))
                   (flat_map cell_outputs (cells nb1 ++ cells nb2)) = true)
  /\ (forall (arr : Type) (L : ArrayLib arr) (x y : arr) (da : arr) (axis : Z) (e : exn),
        (sum_minus_2 da axis = Raises e <-> sum_minus_2_fails da axis e)
        /\ (covariance_gufunc x y = Raises e <-> covariance_gufunc_fails x y e)
        /\ (correlation_gufunc x y = Raises e <-> correlation_gufunc_fails x y e)
        /\ (spearman_correlation_gufunc x y = Raises e
            <-> spearman_correlation_gufunc_fails x y e))
  /\ (forall (xarr arr : Type) (L : ArrayLib arr) (X : LabeledLib xarr arr)
             (x y : xarr) (dim : string) (e : exn),
        spearman_correlation x y dim = Raises e
        <-> apply_ufunc spearman_correlation_gufunc x y
                        [[dim]; [dim]] "parallelized" ["float"] = Raises e)
  /\ (forall (c d : farray) (e : exn),
        truediv c d = Raises e
        <-> e = ValueError /\ broadcast_shapes (fshape c) (fshape d) = None)
  /\ (forall x y : farray,
        well_formed64 x -> well_formed64 y ->
        fshape x = fshape y -> fshape x ≠ [] ->
        correlation_gufunc x y
        = Returns {| fshape := leading (fshape x);
                     fvalues := zip_with corr64 (frows x) (frows y) |}).
Proof.
  split; [vm_compute; reflexivity|].
  split.
  { destruct (decode_notebook data_structures_ipynb) as [nb1|] eqn:E1;
      [|by vm_compute in E1].
    destruct (decode_notebook computation_toolkit_ipynb) as [nb2|] eqn:E2;
      [|by vm_compute in E2].
    exists nb1, nb2.
    vm_compute in E1. vm_compute in E2.
    injection E1 as <-. injection E2 as <-.
    repeat split; vm_compute; reflexivity. }
  split.
  { intros arr L x y da axis e. repeat split.
    - apply sum_minus_2_raises.
    - apply sum_minus_2_raises.
    - apply covariance_gufunc_raises.
    - apply covariance_gufunc_raises.
    - apply correlation_gufunc_raises.
    - apply correlation_gufunc_raises.
    - apply spearman_correlation_gufunc_raises.
    - apply spearman_correlation_gufunc_raises. }
  split; [done|].
  split; [exact truediv64_raises|].
  intros x y Hx Hy Hs Hne. by apply gufuncs_by_rows64.
Qed.

Lemma notebooks_no_error_handling_witness :
  correlation_gufunc (vec [0; 2]%R) (vec [0; 2; 4]%R) = Raises ValueError
  /\ correlation_gufunc_fails (vec [0; 2]%R) (vec [0; 2; 4]%R) ValueError.
Proof.
  split; [exact correlation_gufunc_mismatch_example|].
  exact (proj1 (proj1 (proj2 (proj2 (proj1 (proj2 (proj2 notebooks_no_error_handling))
           nparray numpy_real (vec [0; 2]%R) (vec [0; 2; 4]%R) (vec []) 0%Z ValueError))))
         correlation_gufunc_mismatch_example).
Defined.

(** C7, as stated, fails: the eleventh code cell of the computation
    notebook binds da_noise and the fourteenth reads it. *)
Lemma computation_toolkit_cells_not_independent :
  ("da_noise" ∈ cell_binds
     [Assign [Name "da_noise"]
        (BinOp (Name "da") Add
               (Call (Attribute (Attribute (Name "np") "random") "random") []
                     [("size", Attribute (Name "da") "shape")]));
      Expr (Name "da_noise")])
  /\ ("da_noise" ∈ cell_reads
        [Assign [Name "da_corr"; Name "corr"]
           (Call (Name "spearman_correlation")
                 [Name "da"; Name "da_noise"; Str "time"] []);
         Expr (Name "da_corr")])
  /\ ~ cells_independent computation_toolkit_code.
Proof.
  split; [vm_compute; set_solver|]. split; [vm_compute; set_solver|].
  intros Hind.
  apply (Hind 10 13 _ _ "da_noise" ltac:(lia) eq_refl eq_refl);
    vm_compute; set_solver.
Qed.

(** C7, amended.  Each notebook is a sequence of markdown and code cells
    with no control flow in any cell or function body.  Data flows between
    the cells, and only forward: every name a statement reads is bound by
    an earlier statement of the same or an earlier cell (or is the builtin
    float), and the listed triples (i, j, x) are all the flows, cell j
    reading the name x that cell i last bound or changed in place; the code
    cells are counted from 0 in document order.  Names are read lexically: a
    name that a function body reads is counted for the cell that holds the
    definition. *)
Theorem notebooks_forward_data_flow :
  (exists nb1 nb2 : notebook,
      decode_notebook data_structures_ipynb = Some nb1
      /\ decode_notebook computation_toolkit_ipynb = Some nb2
      /\ forallb (fun c => is_markdown c || is_code c) (cells nb1 ++ cells nb2) = true)
  /\ forallb (fun s => negb (is_control_flow s))
             (all_stmts (data_structures_code ++ computation_toolkit_code)) = true
  /\ well_scoped [] (concat data_structures_code) = true
  /\ well_scoped [] (concat computation_toolkit_code) = true
  /\ cell_flows data_structures_code
     = [(0, 1, "np"); (0, 2, "xr"); (1, 2, "myvar"); (0, 3, "xr"); (1, 3, "myvar");
        (3, 4, "my_da"); (0, 5, "xr"); (0, 6, "xr"); (3, 6, "my_da"); (0, 7, "xr");
        (0, 7, "np"); (1, 7, "myvar"); (6, 7, "my_ds"); (7, 8, "my_ds")]
  /\ cell_flows computation_toolkit_code
     = [(0, 1, "xr"); (1, 2, "da"); (1, 3, "da"); (1, 4, "da"); (1, 5, "da");
        (4, 5, "da_mean"); (1, 6, "da"); (1, 7, "da"); (7, 8, "roller");
        (7, 9, "roller"); (0, 10, "np"); (1, 10, "da"); (0, 12, "xr");
        (11, 12, "spearman_correlation_gufunc"); (12, 13, "spearman_correlation");
        (1, 13, "da"); (10, 13, "da_noise"); (13, 14, "da_corr"); (0, 15, "xr");
        (13, 15, "da_corr")].
Proof.
  split.
  { exact notebooks_decode. }
  repeat split; vm_compute; reflexivity.
Qed.

(** ** The authored functions under every implementation of the library *)

Section AnyLibrary.
Context {arr : Type} `{ArrayLib arr}.

(** sum_minus_2 returns what the library makes of (its sum) - 2. *)
Lemma sum_minus_2_spec (da : arr) (axis : Z) (s : arr) :
  sum_axis da axis = Returns s -> sum_minus_2 da axis = sub s (of_int 2).
Proof. intros Hs. unfold sum_minus_2. by rewrite Hs. Qed.

(** Where the library's product commutes and its operations do not fail,
    the covariance is symmetric. *)
Lemma covariance_gufunc_sym (x y xm ym dx dy : arr) :
  (forall a b : arr, mul a b = mul b a) ->
  mean_last x true = Returns xm -> sub x xm = Returns dx ->
  mean_last y true = Returns ym -> sub y ym = Returns dy ->
  covariance_gufunc x y = covariance_gufunc y x.
Proof.
  intros Hcomm Hxm Hdx Hym Hdy. unfold covariance_gufunc.
  repeat first [rewrite Hxm | rewrite Hym | rewrite Hdx | rewrite Hdy
               | rewrite bind_Returns].
  by rewrite Hcomm.
Qed.

(** The Spearman coefficient depends on its arguments through their
    ranks alone. *)
Lemma spearman_through_ranks (x x' y y' : arr) :
  rankdata x = rankdata x' -> rankdata y = rankdata y' ->
  spearman_correlation_gufunc x y = spearman_correlation_gufunc x' y'.
Proof. intros Hx Hy. unfold spearman_correlation_gufunc. by rewrite Hx, Hy. Qed.
End AnyLibrary.

(** ** The dataset of the data-structures notebook *)

Lemma xr_DataArray_default (data : nparray) :
  xr_DataArray data None ∅ ∅ None
  = Returns {| da_values := data; da_dims := default_dims (length (shape data));
               da_coords := ∅; da_attrs := ∅; da_name := None |}.
Proof.
  unfold xr_DataArray. rewrite decide_True; [done|].
  split; [|apply map_Forall_empty].
  unfold default_dims. cbn [default]. by rewrite length_map, length_seq.
Qed.

Lemma lat_lon_sizes :
  map_Forall (fun d labels => dim_size ["lat"; "lon"; "time"] [2; 3; 6] d = Some (length labels))
             lat_lon.
Proof.
  unfold lat_lon. intros d labels Hd.
  apply lookup_insert_Some in Hd as [[<- <-]|[_ Hd]]; [reflexivity|].
  apply lookup_singleton_Some in Hd as [<- <-]. reflexivity.
Qed.

Lemma xr_DataArray_lat_lon_time (data : nparray) (attrs : gmap string string)
    (name : option string) :
  shape data = [2; 3; 6] ->
  xr_DataArray data (Some ["lat"; "lon"; "time"]) lat_lon attrs name
  = Returns {| da_values := data; da_dims := ["lat"; "lon"; "time"];
               da_coords := lat_lon; da_attrs := attrs; da_name := name |}.
Proof.
  intros Hs. unfold xr_DataArray. cbn [default]. rewrite Hs.
  rewrite decide_True; [done|]. split; [done|apply lat_lon_sizes].
Qed.

Lemma align_dims_empty (a : DataArray) (axis : nat) (dims : list string) :
  align_dims empty_Dataset a axis dims = Returns a.
Proof.
  revert axis. induction dims as [|d dims IH]; intros axis; [done|].
  cbn [align_dims]. unfold align_dim at 1. cbn [ds_dims empty_Dataset].
  rewrite lookup_empty, bind_Returns. apply IH.
Qed.

(** The dataset after In [7]: one variable on the dimensions and labels of
    my_da. *)
Lemma created_dataset (data : nparray) (attrs : gmap string string) (name : option string) :
  xr_Dataset (Some ("temperature",
                    {| da_values := data; da_dims := ["lat"; "lon"; "time"];
                       da_coords := lat_lon; da_attrs := attrs; da_name := name |}))
  = Returns {| data_vars := {["temperature" :=
                               {| var_dims := ["lat"; "lon"; "time"];
                                  var_values := data; var_attrs := attrs |}]};
               ds_dims := ∅ ∪ dim_sizes ["lat"; "lon"; "time"] (shape data);
               ds_coords := ∅ ∪ lat_lon;
               ds_attrs := ∅ |}.
Proof.
  unfold xr_Dataset, Dataset_setitem. rewrite align_dims_empty. reflexivity.
Qed.

Lemma shape_random (g : rng) (size : list nat) :
  shape (np_random_random g size).1 = size.
Proof. reflexivity. Qed.

Lemma align_dim_same_labels (ds : Dataset) (a : DataArray) (axis : nat) (d : string)
    (m n : nat) (labels : list R) :
  ds_dims ds !! d = Some m ->
  dim_size (da_dims a) (shape (da_values a)) d = Some n ->
  ds_coords ds !! d = Some labels ->
  da_coords a !! d = Some labels ->
  align_dim ds a axis d = Returns a.
Proof.
  intros Hm Hn Hl Hla. unfold align_dim. rewrite Hm, Hn, Hl, Hla.
  by rewrite decide_True.
Qed.

Lemma align_dim_unlabeled (ds : Dataset) (a : DataArray) (axis : nat) (d : string)
    (n : nat) :
  ds_dims ds !! d = Some n ->
  dim_size (da_dims a) (shape (da_values a)) d = Some n ->
  ds_coords ds !! d = None ->
  align_dim ds a axis d = Returns a.
Proof.
  intros Hm Hn Hl. unfold align_dim. rewrite Hm, Hn, Hl.
  by rewrite decide_True.
Qed.

Section Inserted.
Variables (temp noise : nparray) (attrs_t attrs_p : gmap string string).
Hypothesis shape_temp : shape temp = [2; 3; 6].
Hypothesis shape_noise : shape noise = [2; 3; 6].

Let created : Dataset :=
  {| data_vars := {["temperature" :=
                      {| var_dims := ["lat"; "lon"; "time"];
                         var_values := temp; var_attrs := attrs_t |}]};
     ds_dims := ∅ ∪ dim_sizes ["lat"; "lon"; "time"] (shape temp);
     ds_coords := ∅ ∪ lat_lon;
     ds_attrs := ∅ |}.

Let pcp : DataArray :=
  {| da_values := noise; da_dims := ["lat"; "lon"; "time"];
     da_coords := lat_lon; da_attrs := attrs_p; da_name := Some "pcp" |}.

(** Inserting an array that carries the dataset's own labels: nothing is
    reindexed. *)
Lemma align_precipitation :
  align_dims created pcp 0 ["lat"; "lon"; "time"] = Returns pcp.
Proof.
  cbn [align_dims].
  rewrite (align_dim_same_labels created pcp 0 "lat" 2 2 lat_labels), bind_Returns;
    [|cbn; rewrite ?shape_temp, ?shape_noise; reflexivity..].
  rewrite (align_dim_same_labels created pcp 1 "lon" 3 3 lon_labels), bind_Returns;
    [|cbn; rewrite ?shape_temp, ?shape_noise; reflexivity..].
  rewrite (align_dim_unlabeled created pcp 2 "time" 6), bind_Returns;
    [|cbn; rewrite ?shape_temp, ?shape_noise; reflexivity..].
  reflexivity.
Qed.

Lemma inserted_dataset :
  Dataset_setitem created "precipitation" pcp
  = Returns {| data_vars :=
                 <["precipitation" := {| var_dims := ["lat"; "lon"; "time"];
                                          var_values := noise; var_attrs := attrs_p |}]>
                   (data_vars created);
               ds_dims := ds_dims created ∪ dim_sizes ["lat"; "lon"; "time"] (shape noise);
               ds_coords := ds_coords created ∪ lat_lon;
               ds_attrs := ∅ |}.
Proof.
  unfold Dataset_setitem. cbn [da_dims pcp]. fold pcp.
  rewrite align_precipitation. reflexivity.
Qed.
End Inserted.

Lemma getitem_variable (ds : Dataset) (name : string) :
  map_Forall (fun _ v => var_dims v = ["lat"; "lon"; "time"]
                         /\ shape (var_values v) = [2; 3; 6]) (data_vars ds) ->
  ds_coords ds = lat_lon ->
  name ∈ dom (data_vars ds) ->
  exists a, Dataset_getitem ds name = Returns a /\ on_lat_lon_time a.
Proof.
  intros Hvars Hcoords Hname. apply elem_of_dom in Hname as [v Hv].
  unfold Dataset_getitem. rewrite Hv. eexists. split; [done|].
  destruct (Hvars _ _ Hv) as [Hd Hs].
  unfold on_lat_lon_time. cbn [da_dims da_values da_coords].
  rewrite Hd, Hs, Hcoords. repeat split; by vm_compute.
Qed.

Lemma getitem_other (ds : Dataset) (name : string) :
  name ∉ dom (data_vars ds) ->
  ds_coords ds = lat_lon ->
  ds_dims ds = {["lat" := 2; "lon" := 3; "time" := 6]} ->
  Dataset_getitem ds name
  = if decide (name = "lat") then Returns (coordinate_array "lat" lat_labels)
    else if decide (name = "lon") then Returns (coordinate_array "lon" lon_labels)
    else if decide (name = "time") then Returns (default_index "time" 6)
    else Raises KeyError.
Proof.
  intros Hname Hcoords Hdims. apply not_elem_of_dom in Hname.
  unfold Dataset_getitem. rewrite Hname, Hcoords, Hdims.
  unfold lat_lon.
  repeat case_decide; subst; try reflexivity;
    repeat first [rewrite lookup_insert_ne by done
                 |rewrite lookup_singleton_ne by done
                 |rewrite lookup_empty];
    reflexivity.
Qed.

(** C9. Whatever numbers the generator draws, the dataset the notebook
    builds holds 'temperature' when it is created (as shown by In [7]) and
    'temperature' and 'precipitation' after the insertion (as shown by
    In [9]).  At both points every variable it contains, read as ds[name],
    is a labeled array on the dimensions ('lat', 'lon', 'time') with sizes
    2, 3, 6, with the labels 15, 30 for 'lat' and -110, -115, -120 for 'lon'
    (and none for 'time'); every other name gives the coordinate array of
    'lat' or of 'lon' with those same labels, the default index 0 .. 5 of
    'time', or KeyError; and the dataset is an aligned collection. *)
Theorem my_ds_is_aligned (g : rng) :
  exists shown_7 shown_9 : Dataset,
    data_structures_run g = Returns (shown_7, shown_9)
    /\ dom (data_vars shown_7) = {["temperature"]}
    /\ dom (data_vars shown_9) = {["temperature"; "precipitation"]}
    /\ (forall ds name, (ds = shown_7 \/ ds = shown_9) ->
          name ∈ dom (data_vars ds) ->
          exists a, Dataset_getitem ds name = Returns a /\ on_lat_lon_time a)
    /\ (forall ds name, (ds = shown_7 \/ ds = shown_9) ->
          name ∉ dom (data_vars ds) ->
          Dataset_getitem ds name
          = if decide (name = "lat") then Returns (coordinate_array "lat" lat_labels)
            else if decide (name = "lon") then Returns (coordinate_array "lon" lon_labels)
            else if decide (name = "time") then Returns (default_index "time" 6)
            else Raises KeyError)
    /\ aligned shown_7
    /\ aligned shown_9.
Proof.
  do 2 eexists. split.
  { unfold data_structures_run, np_random_random. cbv zeta. cbn [shape].
    rewrite xr_DataArray_default, bind_Returns.
    rewrite (xr_DataArray_lat_lon_time _ {["long_name" := "temperature"; "units" := "C"]})
      by reflexivity.
    rewrite bind_Returns.
    cbn [xr_Dataset]. rewrite bind_Returns.
    change (Dataset_setitem empty_Dataset "temperature" ?a)
      with (xr_Dataset (Some ("temperature", a))).
    rewrite created_dataset, bind_Returns.
    rewrite xr_DataArray_lat_lon_time, bind_Returns by reflexivity.
    rewrite inserted_dataset, bind_Returns by reflexivity.
    reflexivity. }
  split; [cbn [data_vars]; by rewrite dom_singleton_L|].
  split.
  { cbn [Dataset_set_attr data_vars].
    rewrite dom_insert_L, dom_singleton_L. set_solver. }
  split.
  { intros ds name [->| ->]; apply getitem_variable; try by vm_compute.
    - cbn [data_vars]. by apply map_Forall_singleton.
    - cbn [Dataset_set_attr data_vars].
      apply map_Forall_insert_2; [done|]. by apply map_Forall_singleton. }
  split.
  { intros ds name [->| ->] Hname; apply getitem_other; try done; by vm_compute. }
  split.
  - split.
    + cbn [data_vars ds_dims]. apply map_Forall_singleton. cbn [var_dims var_values shape].
      repeat constructor.
    + cbn [ds_coords ds_dims]. intros d labels Hd.
      rewrite (left_id_L ∅ (∪)) in Hd. unfold lat_lon in Hd.
      apply lookup_insert_Some in Hd as [[<- <-]|[_ Hd]]; [reflexivity|].
      apply lookup_singleton_Some in Hd as [<- <-]. reflexivity.
  - split.
    + cbn [Dataset_set_attr data_vars ds_dims].
      apply map_Forall_insert_2; [|apply map_Forall_singleton];
        cbn [var_dims var_values shape]; repeat constructor.
    + cbn [Dataset_set_attr ds_coords ds_dims]. intros d labels Hd.
      rewrite (left_id_L ∅ (∪)), (idemp_L (∪)) in Hd. unfold lat_lon in Hd.
      apply lookup_insert_Some in Hd as [[<- <-]|[_ Hd]]; [reflexivity|].
      apply lookup_singleton_Some in Hd as [<- <-]. reflexivity.
Qed.

(** ** What the cells show of their execution

    No cell or function body holds a coroutine, an await, a yield or a with
    block; the only modules imported are numpy, xarray and bottleneck; the
    only stores into an existing object are the two to my_ds at the top
    level of cell In [8] of the data-structures notebook, and no function
    body stores into an object; the data-structures notebook records the
    execution counts 1 to 9 in document order (its last, empty cell has
    none), and the checkpoint of the computation notebook records none. *)
Lemma notebooks_no_concurrency_constructs :
  forallb (fun s => negb (suspends_stmt s) && negb (handles_exception s))
          (all_stmts (data_structures_code ++ computation_toolkit_code)) = true
  /\ forallb (fun e => negb (suspends_expr e))
             (all_exprs (data_structures_code ++ computation_toolkit_code)) = true
  /\ remove_dups (imported_modules (data_structures_code ++ computation_toolkit_code))
     = ["numpy"; "xarray"; "bottleneck"]
  /\ map cell_mutates data_structures_code
     = [[]; []; []; []; []; []; []; ["my_ds"; "my_ds"]; []; []]
  /\ flat_map cell_mutates computation_toolkit_code = []
  /\ (execution_counts <$> decode_notebook data_structures_ipynb)
     = Some [Some 1; Some 2; Some 3; Some 4; Some 5; Some 6; Some 7; Some 8; Some 9; None]%Z
  /\ (execution_counts <$> decode_notebook computation_toolkit_ipynb)
     = Some (replicate 17 None).
Proof. repeat split; vm_compute; reflexivity. Qed.

(** ** Broadcasting in general *)

Lemma broadcast_dim_comm (n1 n2 : nat) : broadcast_dim n1 n2 = broadcast_dim n2 n1.
Proof. unfold broadcast_dim. repeat case_decide; congruence. Qed.

Lemma broadcast_reversed_comm (r1 r2 : list nat) :
  broadcast_reversed r1 r2 = broadcast_reversed r2 r1.
Proof.
  revert r2. induction r1 as [|n1 r1 IH]; intros [|n2 r2]; try done.
  cbn. by rewrite broadcast_dim_comm, IH.
Qed.

Lemma broadcast_shapes_comm (s1 s2 : list nat) :
  broadcast_shapes s1 s2 = broadcast_shapes s2 s1.
Proof. unfold broadcast_shapes. by rewrite broadcast_reversed_comm. Qed.

Lemma broadcast_dim_compatible (n1 n2 d : nat) :
  broadcast_dim n1 n2 = Some d -> compatible n1 n2.
Proof. unfold broadcast_dim, compatible. repeat case_decide; naive_solver. Qed.

Lemma broadcast_values_ext {A B C} (f g : A -> B -> C) (s1 s2 : list nat)
    (v1 : list A) (v2 : list B) :
  (forall a b, f a b = g a b) ->
  broadcast_values f s1 s2 v1 v2 = broadcast_values g s1 s2 v1 v2.
Proof.
  intros Hfg. revert s2 v1 v2.
  induction s1 as [|n1 s1 IH]; intros [|n2 s2] v1 v2; cbn;
    try (apply zip_with_ext; auto).
  f_equal. repeat case_decide.
  - apply zip_with_ext; auto.
  - apply List.map_ext. intros; apply IH.
  - apply List.map_ext. intros; apply IH.
Qed.

Lemma broadcast_values_flip {A B C} (f : A -> B -> C) (s1 s2 : list nat)
    (v1 : list A) (v2 : list B) :
  Forall2 compatible s1 s2 ->
  broadcast_values f s1 s2 v1 v2 = broadcast_values (flip f) s2 s1 v2 v1.
Proof.
  intros Hc. revert v1 v2.
  induction Hc as [|n1 n2 s1 s2 Hn Hc IH]; intros v1 v2; cbn.
  - apply zip_with_flip.
  - f_equal. unfold compatible in Hn.
    repeat case_decide; try lia;
      first [ (etrans; [|apply (zip_with_flip (broadcast_values (flip f) s2 s1))]);
              apply zip_with_ext; [|done..]; intros; apply IH
            | apply List.map_ext; intros; apply IH ].
Qed.

Lemma Forall3_reverse {A B C} (P : A -> B -> C -> Prop) l k m :
  Forall3 P l k m -> Forall3 P (reverse l) (reverse k) (reverse m).
Proof.
  induction 1 as [|x y z l k m Hx Hl IH]; [constructor|].
  rewrite !reverse_cons. apply Forall3_app; [done|]. by repeat constructor.
Qed.

Lemma broadcast_dim_1_l (n : nat) : broadcast_dim 1 n = Some n.
Proof. unfold broadcast_dim. repeat case_decide; congruence. Qed.

Lemma broadcasts_to_ones_l (r : list nat) :
  broadcasts_to (replicate (length r) 1) r r.
Proof.
  induction r as [|n r IH]; [constructor|].
  constructor; [apply broadcast_dim_1_l|done].
Qed.

Lemma broadcasts_to_ones_r (r : list nat) :
  broadcasts_to r (replicate (length r) 1) r.
Proof.
  induction r as [|n r IH]; [constructor|].
  constructor; [apply broadcast_dim_1|done].
Qed.

Lemma broadcast_reversed_spec (r1 r2 r : list nat) :
  broadcast_reversed r1 r2 = Some r ->
  length r = length r1 `max` length r2
  /\ broadcasts_to (r1 ++ replicate (length r - length r1) 1)
                   (r2 ++ replicate (length r - length r2) 1) r.
Proof.
  revert r2 r. induction r1 as [|n1 r1 IH]; intros r2 r Hr.
  - assert (r = r2) as -> by (destruct r2; cbn in Hr; congruence).
    split; [done|]. rewrite Nat.sub_diag, Nat.sub_0_r, app_nil_r. cbn.
    apply broadcasts_to_ones_l.
  - destruct r2 as [|n2 r2].
    + cbn in Hr. injection Hr as <-. split; [cbn; lia|].
      rewrite Nat.sub_diag, Nat.sub_0_r, app_nil_r. cbn [app].
      apply broadcasts_to_ones_r.
    + cbn in Hr. destruct (broadcast_dim n1 n2) as [d|] eqn:Hd; [|done].
      destruct (broadcast_reversed r1 r2) as [r'|] eqn:Hr'; [|done].
      cbn in Hr. injection Hr as <-.
      destruct (IH _ _ Hr') as [Hlen Hb]. split; [cbn; lia|].
      cbn. by constructor.
Qed.

Lemma pad_shape_reverse (k : nat) (s : list nat) :
  pad_shape k s = reverse (reverse s ++ replicate (k - length s) 1).
Proof.
  unfold pad_shape. by rewrite reverse_app, reverse_involutive, reverse_replicate.
Qed.

(** What [broadcast_shapes] answers: the two shapes, padded to one rank,
    broadcast to it dimension by dimension. *)
Lemma broadcast_shapes_spec (s1 s2 s : list nat) :
  broadcast_shapes s1 s2 = Some s ->
  length s = length s1 `max` length s2
  /\ broadcasts_to (pad_shape (length s) s1) (pad_shape (length s) s2) s.
Proof.
  unfold broadcast_shapes. intros Hs.
  destruct (broadcast_reversed (reverse s1) (reverse s2)) as [r|] eqn:Hr; [|done].
  cbn in Hs. injection Hs as <-.
  destruct (broadcast_reversed_spec _ _ _ Hr) as [Hlen Hb].
  rewrite ?length_reverse in *. split; [done|].
  rewrite !pad_shape_reverse. by apply Forall3_reverse.
Qed.

Lemma broadcasts_to_compatible (s1 s2 s : list nat) :
  broadcasts_to s1 s2 s -> Forall2 compatible s1 s2.
Proof.
  induction 1 as [|n1 n2 d s1 s2 s Hd Hs IH]; constructor; [|done].
  by eapply broadcast_dim_compatible.
Qed.

Lemma broadcast_shapes_snoc (l1 l2 : list nat) (n1 n2 : nat) :
  broadcast_shapes (l1 ++ [n1]) (l2 ++ [n2])
  = (d ← broadcast_dim n1 n2; s ← broadcast_shapes l1 l2; Some (s ++ [d])).
Proof.
  unfold broadcast_shapes. rewrite !reverse_snoc. cbn.
  destruct (broadcast_dim n1 n2) as [d|]; [|done]. cbn.
  destruct (broadcast_reversed (reverse l1) (reverse l2)) as [r|]; [|done]. cbn.
  change (rev_append r [d]) with (reverse (d :: r)). by rewrite reverse_cons.
Qed.

(** An elementwise operation that commutes gives the same array, or the same
    exception, with its operands exchanged. *)
Lemma broadcast_comm (f : num -> num -> num) (a b : nparray) :
  (forall u v, f u v = f v u) -> broadcast f a b = broadcast f b a.
Proof.
  intros Hf. unfold broadcast. rewrite (broadcast_shapes_comm (shape b)).
  destruct (broadcast_shapes (shape a) (shape b)) as [s|] eqn:Hs; [|done].
  do 2 f_equal. destruct (broadcast_shapes_spec _ _ _ Hs) as [_ Hb].
  rewrite (broadcast_values_flip f) by (by eapply broadcasts_to_compatible).
  apply broadcast_values_ext. intros u v. apply Hf.
Qed.

Lemma product_replicate_1 (k : nat) : product (replicate k 1) = 1.
Proof. induction k as [|k IH]; [done|]. cbn. unfold product in IH. lia. Qed.

Lemma product_pad_shape (k : nat) (s : list nat) : product (pad_shape k s) = product s.
Proof. unfold pad_shape. rewrite product_app, product_replicate_1. lia. Qed.

Lemma product_cons (n : nat) (s : list nat) : product (n :: s) = n * product s.
Proof. done. Qed.

Lemma map_Forall_length {A B} (g : A -> list B) (k : nat) (l : list A) :
  (forall a, a ∈ l -> length (g a) = k) -> Forall (fun r => length r = k) (map g l).
Proof.
  intros Hg. apply Forall_forall. intros r Hr.
  apply list_elem_of_fmap in Hr as (a & -> & Ha). by apply Hg.
Qed.

(** Broadcasting well-formed operands gives as many values as the result
    shape counts. *)
Lemma broadcast_values_length {A B C} (f : A -> B -> C) (s1 s2 s : list nat)
    (v1 : list A) (v2 : list B) :
  broadcasts_to s1 s2 s ->
  length v1 = product s1 -> length v2 = product s2 ->
  length (broadcast_values f s1 s2 v1 v2) = product s.
Proof.
  intros Hb. revert v1 v2.
  induction Hb as [|n1 n2 d s1 s2 s Hd Hb IH]; intros v1 v2 H1 H2.
  - cbn in *. rewrite length_zip_with. lia.
  - rewrite !product_cons in *. cbn [broadcast_values].
    assert (Hc1 : Forall (fun r => length r = product s1) (chunks (product s1) n1 v1))
      by (apply chunks_Forall_length; lia).
    assert (Hc2 : Forall (fun r => length r = product s2) (chunks (product s2) n2 v2))
      by (apply chunks_Forall_length; lia).
    unfold broadcast_dim in Hd.
    destruct (decide (n1 = n2)) as [->|Hne].
    + injection Hd as <-.
      rewrite (length_concat_uniform (product s)).
      * rewrite length_zip_with, !chunks_length. lia.
      * eapply zip_with_Forall; [|exact Hc1|exact Hc2].
        cbn. intros a b Ha Hb'. by apply IH.
    + destruct (decide (n1 = 1)) as [->|Hn1].
      * injection Hd as <-.
        rewrite (length_concat_uniform (product s)).
        -- rewrite length_map, chunks_length. lia.
        -- apply map_Forall_length. intros a Ha.
           rewrite Forall_forall in Hc2. apply IH; [lia|by apply Hc2].
      * destruct (decide (n2 = 1)) as [->|Hn2]; [|done].
        injection Hd as <-.
        rewrite (length_concat_uniform (product s)).
        -- rewrite length_map, chunks_length. lia.
        -- apply map_Forall_length. intros a Ha.
           rewrite Forall_forall in Hc1. apply IH; [by apply Hc1|lia].
Qed.

Lemma broadcast_returns (f : num -> num -> num) (a b c : nparray) :
  broadcast f a b = Returns c ->
  broadcast_shapes (shape a) (shape b) = Some (shape c).
Proof.
  unfold broadcast. destruct (broadcast_shapes (shape a) (shape b)); [|done].
  by intros [= <-].
Qed.

Lemma broadcast_well_formed (f : num -> num -> num) (a b c : nparray) :
  well_formed a -> well_formed b -> broadcast f a b = Returns c -> well_formed c.
Proof.
  unfold broadcast, well_formed. intros Ha Hb.
  destruct (broadcast_shapes (shape a) (shape b)) as [s|] eqn:Hs; [|done].
  intros [= <-]. cbn [shape values].
  destruct (broadcast_shapes_spec _ _ _ Hs) as [_ Hbs].
  apply broadcast_values_length; [done|by rewrite product_pad_shape..].
Qed.

Lemma reduce_last_returns (g : list num -> num) (keepdims : bool) (a : nparray) :
  shape a ≠ [] ->
  reduce_last g keepdims a
  = Returns {| shape := if keepdims then leading (shape a) ++ [1] else leading (shape a);
               values := map g (rows a) |}.
Proof.
  intros Hs. unfold reduce_last.
  destruct (last (shape a)) eqn:Hl; [done|].
  by apply last_None in Hl.
Qed.

Lemma reduce_last_raises (g : list num -> num) (keepdims : bool) (a : nparray) :
  shape a = [] -> reduce_last g keepdims a = Raises AxisError.
Proof. intros Hs. unfold reduce_last. by rewrite Hs. Qed.

Lemma rows_length (a : nparray) :
  shape a ≠ [] -> length (rows a) = product (leading (shape a)).
Proof.
  intros Hs. unfold rows. destruct (last (shape a)) eqn:Hl.
  - apply chunks_length.
  - by apply last_None in Hl.
Qed.

Lemma reduce_last_well_formed (g : list num -> num) (keepdims : bool) (a r : nparray) :
  reduce_last g keepdims a = Returns r -> well_formed r.
Proof.
  destruct (decide (shape a = [])) as [Hs|Hs].
  - by rewrite reduce_last_raises.
  - rewrite reduce_last_returns by done. intros [= <-].
    unfold well_formed. cbn [shape values]. rewrite length_map, rows_length by done.
    destruct keepdims; [rewrite product_snoc; lia|done].
Qed.

Lemma bind_assoc {A B C} (m : result A) (f : A -> result B) (g : B -> result C) :
  (m ≫= f) ≫= g = m ≫= (fun a => f a ≫= g).
Proof. by destruct m. Qed.

Lemma shape_nonempty_snoc (s : list nat) :
  s ≠ [] -> s = leading s ++ [default 0 (last s)].
Proof.
  intros Hs. destruct (shape_snoc_or_nil s) as [->|(lead & n & ->)]; [done|].
  by rewrite leading_snoc, last_snoc.
Qed.

(** x - x.mean(axis=-1, keepdims=True) for an array of rank at least 1: the
    mean broadcasts against x and the difference has the shape of x. *)
Lemma centre_returns (x : nparray) :
  shape x ≠ [] ->
  (xm ← mean_last x true; sub x xm) = Returns (centred_array x).
Proof.
  intros Hs. cbn [mean_last sub numpy_real]. unfold np_mean.
  rewrite reduce_last_returns by done. rewrite bind_Returns.
  unfold broadcast. cbn [shape values].
  rewrite (shape_nonempty_snoc (shape x) Hs) at 1.
  rewrite broadcast_shapes_keepdims, <- shape_nonempty_snoc by done.
  unfold centred_array, centred_values. do 2 f_equal.
  rewrite pad_shape_same. rewrite pad_shape_same_length; [done|].
  rewrite (shape_nonempty_snoc (shape x) Hs) at 2. by rewrite !length_app.
Qed.

Lemma mean_last_rank_0 (x : nparray) (keepdims : bool) :
  shape x = [] -> mean_last x keepdims = Raises AxisError.
Proof. intros Hs. cbn [mean_last numpy_real]. by apply reduce_last_raises. Qed.

(** covariance_gufunc, step by step. *)
Lemma covariance_gufunc_unfold (x y : nparray) :
  shape x ≠ [] -> shape y ≠ [] ->
  covariance_gufunc x y
  = (p ← mul (centred_array x) (centred_array y); mean_last p false).
Proof.
  intros Hx Hy. unfold covariance_gufunc.
  rewrite <- (bind_assoc (mean_last x true)), centre_returns, bind_Returns by done.
  by rewrite <- (bind_assoc (mean_last y true)), centre_returns, bind_Returns by done.
Qed.

Lemma covariance_gufunc_rank_0 (x y : nparray) :
  shape x = [] \/ shape y = [] -> covariance_gufunc x y = Raises AxisError.
Proof.
  intros Hxy. unfold covariance_gufunc.
  destruct (decide (shape x = [])) as [Hx|Hx].
  - by rewrite (mean_last_rank_0 x true Hx), bind_Raises.
  - destruct Hxy as [?|Hy]; [done|].
    rewrite <- (bind_assoc (mean_last x true)), centre_returns, bind_Returns by done.
    by rewrite (mean_last_rank_0 y true Hy), bind_Raises.
Qed.

Lemma num_mul_comm (u v : num) : num_mul u v = num_mul v u.
Proof. destruct u, v; cbn; try done. f_equal. lra. Qed.

(** ** covariance_gufunc on arrays of any shape *)

Lemma broadcast_shapes_nonempty (s1 s2 s : list nat) :
  s1 ≠ [] -> broadcast_shapes s1 s2 = Some s -> s ≠ [].
Proof.
  intros H1 Hs. destruct (broadcast_shapes_spec _ _ _ Hs) as [Hlen _].
  destruct s1; [done|]. destruct s; [cbn in Hlen; lia|done].
Qed.

(** The three ways a call of covariance_gufunc ends. *)
Lemma covariance_gufunc_cases (x y : nparray) :
  ((shape x = [] \/ shape y = []) /\ covariance_gufunc x y = Raises AxisError)
  \/ (shape x ≠ [] /\ shape y ≠ []
      /\ broadcast_shapes (shape x) (shape y) = None
      /\ covariance_gufunc x y = Raises ValueError)
  \/ (exists s r, shape x ≠ [] /\ shape y ≠ []
      /\ broadcast_shapes (shape x) (shape y) = Some s
      /\ covariance_gufunc x y = Returns r
      /\ shape r = leading s /\ well_formed r).
Proof.
  destruct (decide (shape x = [])) as [Hx|Hx];
    [left; split; [by left|apply covariance_gufunc_rank_0; by left]|].
  destruct (decide (shape y = [])) as [Hy|Hy];
    [left; split; [by right|apply covariance_gufunc_rank_0; by right]|].
  right. rewrite covariance_gufunc_unfold by done.
  cbn [mul mean_last numpy_real]. unfold broadcast, centred_array. cbn [shape values].
  destruct (broadcast_shapes (shape x) (shape y)) as [s|] eqn:Hs;
    cbn [mbind result_bind].
  - right. unfold np_mean.
    assert (Hne : s ≠ [])
      by (by apply (broadcast_shapes_nonempty (shape x) (shape y))).
    rewrite reduce_last_returns by done. cbn [shape].
    do 2 eexists. repeat split; try done.
    match goal with
    | |- well_formed {| shape := _; values := map ?g (rows ?p) |} =>
        apply (reduce_last_well_formed g false p); by rewrite reduce_last_returns
    end.
  - by left.
Qed.

Lemma covariance_gufunc_exchange (x y : nparray) :
  covariance_gufunc x y = covariance_gufunc y x.
Proof.
  destruct (decide (shape x = [] \/ shape y = [])) as [H0|H0].
  - rewrite !covariance_gufunc_rank_0; [done|tauto|tauto].
  - rewrite !covariance_gufunc_unfold by tauto.
    cbn [mul numpy_real]. by rewrite (broadcast_comm num_mul) by apply num_mul_comm.
Qed.

(** X6. covariance_gufunc treats its two arguments alike: exchanging them gives
    the same array, or the same exception, whatever their shapes. *)
Theorem covariance_gufunc_comm (x y : nparray) :
  covariance_gufunc x y = covariance_gufunc y x.
Proof. apply covariance_gufunc_exchange. Qed.

(** X9. covariance_gufunc raises exactly in two cases: AxisError when one of the
    arguments has rank 0 (there is no axis -1 to average over), ValueError
    when both have an axis but their shapes do not broadcast together. *)
Theorem covariance_gufunc_raises_iff (x y : nparray) (e : exn) :
  covariance_gufunc x y = Raises e
  <-> (e = AxisError /\ (shape x = [] \/ shape y = []))
      \/ (e = ValueError /\ shape x ≠ [] /\ shape y ≠ []
          /\ broadcast_shapes (shape x) (shape y) = None).
Proof.
  destruct (covariance_gufunc_cases x y)
    as [[H0 ->]|[(Hx & Hy & Hs & ->)|(s & r & Hx & Hy & Hs & -> & _)]].
  - split; [intros [= <-]; by left|].
    intros [[-> _]|(_ & Hx & Hy & _)]; [done|tauto].
  - split; [intros [= <-]; by right|].
    intros [[_ H0]|[-> _]]; [tauto|done].
  - split; [done|].
    intros [[_ H0]|(_ & _ & _ & Hn)]; [tauto|congruence].
Qed.

(** X8. For arguments of rank at least 1 whose shapes broadcast to [s],
    covariance_gufunc returns a well-formed array of the shape [s] without
    its last dimension. *)
Theorem covariance_gufunc_returns (x y : nparray) (s : list nat) :
  shape x ≠ [] -> shape y ≠ [] ->
  broadcast_shapes (shape x) (shape y) = Some s ->
  exists r, covariance_gufunc x y = Returns r
            /\ shape r = leading s /\ well_formed r.
Proof.
  intros Hx Hy Hs.
  destruct (covariance_gufunc_cases x y)
    as [[H0 _]|[(_ & _ & Hn & _)|(s' & r & _ & _ & Hs' & Hr & Hsh & Hwf)]];
    [tauto|congruence|].
  exists r. by replace s with s' by congruence.
Qed.

Lemma covariance_gufunc_returns_witness :
  exists r, covariance_gufunc (arr [2; 3] [1; 2; 3; 4; 5; 6]%R) (vec [1; 0; 1]%R) = Returns r
            /\ shape r = [2] /\ well_formed r.
Proof.
  apply (covariance_gufunc_returns (arr [2; 3] [1; 2; 3; 4; 5; 6]%R) (vec [1; 0; 1]%R) [2; 3]);
    [done|done|reflexivity].
Defined.

(** ** correlation_gufunc and spearman_correlation_gufunc on arrays of any shape *)

Lemma broadcast_shapes_leading (s1 s2 s : list nat) :
  s1 ≠ [] -> s2 ≠ [] -> broadcast_shapes s1 s2 = Some s ->
  broadcast_shapes (leading s1) (leading s2) = Some (leading s).
Proof.
  intros H1 H2.
  destruct (shape_snoc_or_nil s1) as [->|(l1 & n1 & ->)]; [done|].
  destruct (shape_snoc_or_nil s2) as [->|(l2 & n2 & ->)]; [done|].
  rewrite broadcast_shapes_snoc, !leading_snoc.
  destruct (broadcast_dim n1 n2) as [d|]; [|done]. cbn.
  destruct (broadcast_shapes l1 l2) as [l|]; [|done]. cbn.
  intros [= <-]. by rewrite leading_snoc.
Qed.

Lemma std_last_returns (x : nparray) :
  shape x ≠ [] ->
  std_last x = Returns {| shape := leading (shape x); values := map num_std (rows x) |}.
Proof. intros Hx. cbn [std_last numpy_real]. unfold np_std. by rewrite reduce_last_returns. Qed.

Lemma std_last_well_formed (x r : nparray) : std_last x = Returns r -> well_formed r.
Proof. apply reduce_last_well_formed. Qed.

(** The divisor x.std(axis=-1) * y.std(axis=-1), when covariance_gufunc
    returns: it is well formed and has the shape of the covariance. *)
Lemma correlation_divisor_returns (x y : nparray) (s : list nat) :
  shape x ≠ [] -> shape y ≠ [] ->
  broadcast_shapes (shape x) (shape y) = Some s ->
  exists d, correlation_divisor x y = Returns d
            /\ shape d = leading s /\ well_formed d.
Proof.
  intros Hx Hy Hs. unfold correlation_divisor.
  rewrite (std_last_returns x), bind_Returns by done.
  rewrite (std_last_returns y), bind_Returns by done.
  cbn [mul numpy_real].
  pose proof (broadcast_shapes_leading _ _ _ Hx Hy Hs) as Hl.
  destruct (broadcast num_mul
              {| shape := leading (shape x); values := map num_std (rows x) |}
              {| shape := leading (shape y); values := map num_std (rows y) |})
    as [d|e] eqn:Hd.
  - exists d. split; [done|]. split.
    + apply broadcast_returns in Hd. cbn [shape] in Hd. congruence.
    + eapply broadcast_well_formed; [| |exact Hd].
      * apply (std_last_well_formed x). by apply std_last_returns.
      * apply (std_last_well_formed y). by apply std_last_returns.
  - unfold broadcast in Hd. cbn [shape] in Hd. by rewrite Hl in Hd.
Qed.

Lemma correlation_divisor_comm (x y : nparray) :
  shape x ≠ [] -> shape y ≠ [] ->
  correlation_divisor x y = correlation_divisor y x.
Proof.
  intros Hx Hy. unfold correlation_divisor.
  rewrite (std_last_returns x), (std_last_returns y), !bind_Returns by done.
  cbn [mul numpy_real]. apply broadcast_comm, num_mul_comm.
Qed.

(** The ways a call of correlation_gufunc ends: with the exception of
    covariance_gufunc, or with an array of the shape of the covariance. *)
Lemma correlation_gufunc_cases (x y : nparray) :
  (exists e, covariance_gufunc x y = Raises e /\ correlation_gufunc x y = Raises e)
  \/ (exists s r, shape x ≠ [] /\ shape y ≠ []
      /\ broadcast_shapes (shape x) (shape y) = Some s
      /\ correlation_gufunc x y = Returns r
      /\ shape r = leading s /\ well_formed r).
Proof.
  rewrite correlation_gufunc_divisor.
  destruct (covariance_gufunc_cases x y)
    as [[H0 Hc]|[(Hx & Hy & Hs & Hc)|(s & c & Hx & Hy & Hs & Hc & Hsh & Hwf)]].
  - left. exists AxisError. by rewrite Hc.
  - left. exists ValueError. by rewrite Hc.
  - right. rewrite Hc, bind_Returns.
    destruct (correlation_divisor_returns x y s Hx Hy Hs) as (d & -> & Hd & Hwd).
    rewrite bind_Returns. cbn [truediv numpy_real].
    destruct (broadcast num_div c d) as [q|e] eqn:Hq.
    + exists s, q. repeat split; try done.
      * apply broadcast_returns in Hq. rewrite Hsh, Hd, broadcast_shapes_same in Hq.
        congruence.
      * by apply (broadcast_well_formed num_div c d q).
    + unfold broadcast in Hq. by rewrite Hsh, Hd, broadcast_shapes_same in Hq.
Qed.

Lemma correlation_gufunc_exchange (x y : nparray) :
  correlation_gufunc x y = correlation_gufunc y x.
Proof.
  rewrite !correlation_gufunc_divisor, (covariance_gufunc_exchange x y).
  destruct (covariance_gufunc_cases y x)
    as [[H0 ->]|[(Hx & Hy & Hs & ->)|(s & c & Hx & Hy & Hs & -> & _)]]; [done..|].
  by rewrite (correlation_divisor_comm x y).
Qed.

(** X11. correlation_gufunc treats its two arguments alike, whatever their
    shapes: the same array, or the same exception. *)
Theorem correlation_gufunc_comm (x y : nparray) :
  correlation_gufunc x y = correlation_gufunc y x.
Proof. apply correlation_gufunc_exchange. Qed.

(** X15. The two standard deviations, their product and the division add no way
    to fail: correlation_gufunc raises exactly the exceptions of
    covariance_gufunc, on exactly the same arguments. *)
Theorem correlation_gufunc_raises_iff (x y : nparray) (e : exn) :
  correlation_gufunc x y = Raises e <-> covariance_gufunc x y = Raises e.
Proof.
  destruct (correlation_gufunc_cases x y)
    as [(e' & -> & ->)|(s & r & Hx & Hy & Hs & -> & _)]; [done|].
  destruct (covariance_gufunc_cases x y)
    as [[H0 _]|[(_ & _ & Hn & _)|(s' & c & _ & _ & _ & -> & _)]];
    [tauto|congruence|done].
Qed.

(** X14. For arguments of rank at least 1 whose shapes broadcast to [s],
    correlation_gufunc returns a well-formed array of the shape [s] without
    its last dimension (whose entries may be non-finite, never an
    exception). *)
Theorem correlation_gufunc_returns (x y : nparray) (s : list nat) :
  shape x ≠ [] -> shape y ≠ [] ->
  broadcast_shapes (shape x) (shape y) = Some s ->
  exists r, correlation_gufunc x y = Returns r
            /\ shape r = leading s /\ well_formed r.
Proof.
  intros Hx Hy Hs.
  destruct (correlation_gufunc_cases x y)
    as [(e & Hc & _)|(s' & r & _ & _ & Hs' & Hr & Hsh & Hwf)].
  - destruct (covariance_gufunc_cases x y)
      as [[H0 _]|[(_ & _ & Hn & _)|(s' & c & _ & _ & _ & Hc' & _)]];
      [tauto|congruence|congruence].
  - exists r. by replace s with s' by congruence.
Qed.

Lemma correlation_gufunc_returns_witness :
  exists r, correlation_gufunc (arr [2; 3] [1; 2; 3; 4; 5; 6]%R) (vec [1; 0; 1]%R) = Returns r
            /\ shape r = [2] /\ well_formed r.
Proof.
  apply (correlation_gufunc_returns (arr [2; 3] [1; 2; 3; 4; 5; 6]%R) (vec [1; 0; 1]%R) [2; 3]);
    [done|done|reflexivity].
Defined.

(** *** spearman_correlation_gufunc *)

Lemma rankdata_returns (x : nparray) :
  shape x ≠ [] ->
  rankdata x = Returns {| shape := shape x; values := concat (map rank_row (rows x)) |}.
Proof.
  intros Hx. cbn [rankdata numpy_real]. unfold bn_rankdata.
  destruct (last (shape x)) eqn:Hl; [done|]. by apply last_None in Hl.
Qed.

Lemma rankdata_rank_0 (x : nparray) : shape x = [] -> rankdata x = Raises ValueError.
Proof. intros Hx. cbn [rankdata numpy_real]. unfold bn_rankdata. by rewrite Hx. Qed.

Lemma spearman_correlation_gufunc_unfold (x y : nparray) :
  shape x ≠ [] -> shape y ≠ [] ->
  spearman_correlation_gufunc x y = correlation_gufunc (ranked x) (ranked y).
Proof.
  intros Hx Hy. unfold spearman_correlation_gufunc.
  by rewrite (rankdata_returns x), bind_Returns, (rankdata_returns y), bind_Returns.
Qed.

Lemma spearman_correlation_gufunc_rank_0 (x y : nparray) :
  shape x = [] \/ shape y = [] ->
  spearman_correlation_gufunc x y = Raises ValueError.
Proof.
  intros H0. unfold spearman_correlation_gufunc.
  destruct (decide (shape x = [])) as [Hx|Hx].
  - by rewrite (rankdata_rank_0 x Hx), bind_Raises.
  - destruct H0 as [?|Hy]; [done|].
    by rewrite (rankdata_returns x), bind_Returns, (rankdata_rank_0 y Hy), bind_Raises.
Qed.

(** X20. spearman_correlation_gufunc treats its two arguments alike, whatever
    their shapes. *)
Theorem spearman_correlation_gufunc_comm (x y : nparray) :
  spearman_correlation_gufunc x y = spearman_correlation_gufunc y x.
Proof.
  destruct (decide (shape x = [] \/ shape y = [])) as [H0|H0].
  - rewrite !spearman_correlation_gufunc_rank_0; [done|tauto|tauto].
  - rewrite !spearman_correlation_gufunc_unfold by tauto.
    apply correlation_gufunc_exchange.
Qed.

(** X22. spearman_correlation_gufunc raises one kind of exception only, ValueError,
    and exactly when an argument has rank 0 (bottleneck.rankdata finds no
    axis -1) or the two shapes do not broadcast together. *)
Theorem spearman_correlation_gufunc_raises_iff (x y : nparray) (e : exn) :
  spearman_correlation_gufunc x y = Raises e
  <-> e = ValueError
      /\ (shape x = [] \/ shape y = [] \/ broadcast_shapes (shape x) (shape y) = None).
Proof.
  destruct (decide (shape x = [] \/ shape y = [])) as [H0|H0].
  - rewrite spearman_correlation_gufunc_rank_0 by done.
    split; [intros [= <-]; tauto|by intros [-> _]].
  - rewrite spearman_correlation_gufunc_unfold by tauto.
    destruct (correlation_gufunc_cases (ranked x) (ranked y))
      as [(e' & Hc & ->)|(s & r & Hx & Hy & Hs & -> & _)]; cbn [ranked shape] in *.
    + destruct (covariance_gufunc_cases (ranked x) (ranked y))
        as [[H0' _]|[(_ & _ & Hn & Hc')|(s & c & _ & _ & _ & Hc' & _)]];
        cbn [ranked shape] in *; [tauto| |congruence].
      assert (e' = ValueError) as -> by congruence.
      split; [intros [= <-]; tauto|by intros [-> _]].
    + split; [done|]. intros [_ [?|[?|Hn]]]; [tauto|tauto|congruence].
Qed.

(** X21. For arguments of rank at least 1 whose shapes broadcast to [s],
    spearman_correlation_gufunc returns a well-formed array of the shape [s]
    without its last dimension. *)
Theorem spearman_correlation_gufunc_returns (x y : nparray) (s : list nat) :
  shape x ≠ [] -> shape y ≠ [] ->
  broadcast_shapes (shape x) (shape y) = Some s ->
  exists r, spearman_correlation_gufunc x y = Returns r
            /\ shape r = leading s /\ well_formed r.
Proof.
  intros Hx Hy Hs. rewrite spearman_correlation_gufunc_unfold by done.
  destruct (correlation_gufunc_cases (ranked x) (ranked y))
    as [(e & Hc & _)|(s' & r & _ & _ & Hs' & Hr & Hsh & Hwf)]; cbn [ranked shape] in *.
  - destruct (covariance_gufunc_cases (ranked x) (ranked y))
      as [[H0 _]|[(_ & _ & Hn & _)|(s' & c & _ & _ & _ & Hc' & _)]];
      cbn [ranked shape] in *; [tauto|congruence|congruence].
  - exists r. by replace s with s' by congruence.
Qed.

Lemma spearman_correlation_gufunc_returns_witness :
  exists r, spearman_correlation_gufunc (arr [2; 3] [1; 2; 3; 4; 5; 6]%R) (vec [1; 0; 1]%R)
            = Returns r
            /\ shape r = [2] /\ well_formed r.
Proof.
  apply (spearman_correlation_gufunc_returns
           (arr [2; 3] [1; 2; 3; 4; 5; 6]%R) (vec [1; 0; 1]%R) [2; 3]);
    [done|done|reflexivity].
Defined.

(** ** Statistics of one row *)

Lemma rsum_scale (a : R) (l : list R) :
  rsum (map (fun x => a * x)%R l) = (a * rsum l)%R.
Proof. induction l as [|x l IH]; cbn; [lra|]. unfold rsum in IH. rewrite IH. lra. Qed.

Lemma rsum_affine (a b : R) (l : list R) :
  rsum (map (fun x => a * x + b)%R l) = (a * rsum l + INR (length l) * b)%R.
Proof.
  induction l as [|x l IH]; [cbn; lra|].
  cbn [map length]. rewrite S_INR. cbn. unfold rsum in IH. rewrite IH. lra.
Qed.

Lemma rmean_scale (a : R) (l : list R) :
  rmean (map (fun x => a * x)%R l) = (a * rmean l)%R.
Proof. unfold rmean. rewrite rsum_scale, length_map. unfold Rdiv. lra. Qed.

Lemma rmean_affine (a b : R) (l : list R) :
  l ≠ [] -> rmean (map (fun x => a * x + b)%R l) = (a * rmean l + b)%R.
Proof.
  intros Hl. unfold rmean. rewrite rsum_affine, length_map.
  pose proof (INR_length_nonzero l Hl). by field.
Qed.

Lemma zip_with_affine (a b m my : R) (xs ys : list R) :
  zip_with (fun x y => (x - (a * m + b)) * (y - my))%R (map (fun x => a * x + b)%R xs) ys
  = map (fun p => a * p)%R (zip_with (fun x y => (x - m) * (y - my))%R xs ys).
Proof.
  revert ys. induction xs as [|x xs IH]; intros [|y ys]; cbn; try done.
  rewrite IH. f_equal. lra.
Qed.

(** Covariance is unchanged by a shift and linear in a scaling. *)
Lemma rcov_affine (a b : R) (xs ys : list R) :
  rcov (map (fun x => a * x + b)%R xs) ys = (a * rcov xs ys)%R.
Proof.
  destruct (decide (xs = [])) as [->|Hx].
  - cbn. unfold rcov, rmean. cbn. lra.
  - unfold rcov. by rewrite rmean_affine, zip_with_affine, rmean_scale.
Qed.

Lemma rvar_affine (a b : R) (xs : list R) :
  rvar (map (fun x => a * x + b)%R xs) = (a * a * rvar xs)%R.
Proof.
  rewrite <- !rcov_self, rcov_affine, rcov_comm, rcov_affine. lra.
Qed.

Lemma rstd_affine (a b : R) (xs : list R) :
  rstd (map (fun x => a * x + b)%R xs) = (Rabs a * rstd xs)%R.
Proof.
  unfold rstd. rewrite rvar_affine, sqrt_mult; [|nra|apply rvar_nonneg].
  f_equal. replace (a * a)%R with (Rsqr a) by (by unfold Rsqr). apply sqrt_Rsqr_abs.
Qed.

Lemma rstd_nonneg (xs : list R) : (0 <= rstd xs)%R.
Proof. apply sqrt_pos. Qed.

(** *** The Cauchy-Schwarz inequality *)

Lemma cauchy_schwarz_step (A B C a b : R) :
  (0 <= A)%R -> (0 <= B)%R -> (C * C <= A * B)%R ->
  ((C + a * b) * (C + a * b) <= (A + a * a) * (B + b * b))%R.
Proof.
  intros HA HB HC.
  assert (HX : (0 <= A * (b * b) + (a * a) * B - 2 * C * (a * b))%R).
  { destruct (Req_dec A 0) as [->|HA0].
    - assert (C = 0)%R as -> by nra. nra.
    - assert (0 < A)%R by lra.
      assert (0 <= A * (A * (b * b) + (a * a) * B - 2 * C * (a * b)))%R.
      { pose proof (Rle_0_sqr (A * b - a * C)) as Hs. unfold Rsqr in Hs.
        assert (0 <= (a * a) * (A * B - C * C))%R by nra. nra. }
      nra. }
  nra.
Qed.

Lemma cauchy_schwarz (u v : list R) :
  length u = length v ->
  (rsum (zip_with Rmult u v) * rsum (zip_with Rmult u v)
   <= rsum (map (fun x => x * x) u) * rsum (map (fun y => y * y) v))%R.
Proof.
  revert v. induction u as [|a u IH]; intros [|b v] Hlen; try done.
  cbn [zip_with map]. cbn -[Rmult Rplus Rle].
  rewrite (Rplus_comm (a * b)), (Rplus_comm (a * a)), (Rplus_comm (b * b)).
  apply cauchy_schwarz_step.
  - apply rsum_nonneg, Forall_forall. intros x Hx.
    apply list_elem_of_fmap in Hx as (y & -> & _). nra.
  - apply rsum_nonneg, Forall_forall. intros x Hx.
    apply list_elem_of_fmap in Hx as (y & -> & _). nra.
  - apply IH. by injection Hlen.
Qed.

Lemma rvar_centre (xs : list R) :
  rvar xs = rmean (map (fun x => x * x)%R (centre xs)).
Proof. unfold rvar, centre. by rewrite List.map_map. Qed.

Lemma rcov_centre (xs ys : list R) :
  rcov xs ys = rmean (zip_with Rmult (centre xs) (centre ys)).
Proof. unfold rcov, centre. by rewrite zip_with_centered. Qed.

(** The square of the covariance is at most the product of the variances. *)
Lemma rcov_sqr_le (xs ys : list R) :
  length xs = length ys ->
  (rcov xs ys * rcov xs ys <= rvar xs * rvar ys)%R.
Proof.
  intros Hlen. rewrite rcov_centre, !rvar_centre. unfold rmean.
  rewrite length_zip_with, !length_map. unfold centre. rewrite !length_map.
  rewrite <- Hlen, Nat.min_id.
  pose proof (cauchy_schwarz (centre xs) (centre ys)) as Hcs.
  unfold centre in Hcs. rewrite !length_map in Hcs. specialize (Hcs Hlen).
  set (C := rsum (zip_with Rmult _ _)) in *.
  set (A := rsum (map _ (map _ xs))) in *. set (B := rsum (map _ (map _ ys))) in *.
  destruct (decide (xs = [])) as [->|Hx].
  - cbn. unfold Rdiv. rewrite Rinv_0. lra.
  - pose proof (INR_length_nonzero xs Hx) as Hn.
    pose proof (pos_INR (length xs)) as Hp.
    set (n := INR (length xs)) in *.
    assert (0 < n)%R by lra.
    assert (Hi : (0 < / n)%R) by (by apply Rinv_0_lt_compat).
    unfold Rdiv.
    replace (C * / n * (C * / n))%R with ((C * C) * (/ n * / n))%R by lra.
    replace (A * / n * (B * / n))%R with ((A * B) * (/ n * / n))%R by lra.
    apply Rmult_le_compat_r; [nra|done].
Qed.

(** The correlation of two rows of one length lies between -1 and 1. *)
Lemma rcorr_bounded (xs ys : list R) :
  length xs = length ys -> (rstd xs * rstd ys)%R ≠ 0%R ->
  (-1 <= rcorr xs ys <= 1)%R.
Proof.
  intros Hlen Hs. unfold rcorr.
  pose proof (rcov_sqr_le xs ys Hlen) as Hc.
  pose proof (rstd_nonneg xs) as H1. pose proof (rstd_nonneg ys) as H2.
  rewrite <- (rstd_sqr xs), <- (rstd_sqr ys) in Hc.
  set (s := (rstd xs * rstd ys)%R) in *.
  assert (Hpos : (0 < s)%R) by (unfold s in *; nra).
  assert (Hcs : (rcov xs ys * rcov xs ys <= s * s)%R) by (unfold s; nra).
  set (c := rcov xs ys) in *.
  assert (-s <= c <= s)%R by nra.
  split.
  - apply Rmult_le_reg_r with s; [done|]. unfold Rdiv.
    rewrite Rmult_assoc, Rinv_l by lra. lra.
  - apply Rmult_le_reg_r with s; [done|]. unfold Rdiv.
    rewrite Rmult_assoc, Rinv_l by lra. lra.
Qed.

Lemma num_corr_bounded (xs ys : list R) :
  length xs = length ys -> in_unit_range (num_corr xs ys).
Proof.
  intros Hlen c. unfold num_corr, num_div. case_decide; [done|].
  intros [= <-]. by apply rcorr_bounded.
Qed.

(** A positive affine map of one row leaves the correlation as it is; a
    negative one changes its sign. *)
Lemma num_corr_affine (a b : R) (xs ys : list R) :
  a ≠ 0%R ->
  num_corr (map (fun x => a * x + b)%R xs) ys
  = (fun c => if decide (0 < a)%R then c else (- c)%R) <$> num_corr xs ys.
Proof.
  intros Ha. unfold num_corr, num_div. rewrite rcov_affine, rstd_affine.
  assert (Habs : Rabs a ≠ 0%R) by (by apply Rabs_no_R0).
  destruct (decide (rstd xs * rstd ys = 0)%R) as [H0|H0].
  - rewrite decide_True by (rewrite Rmult_assoc, H0; lra). done.
  - rewrite decide_False.
    2:{ rewrite Rmult_assoc. by apply Rmult_integral_contrapositive. }
    assert (rstd xs ≠ 0%R) by (intros Hz; apply H0; rewrite Hz; lra).
    assert (rstd ys ≠ 0%R) by (intros Hz; apply H0; rewrite Hz; lra).
    cbn. f_equal. case_decide.
    + rewrite Rabs_right by lra. by field.
    + rewrite Rabs_left by lra. by field.
Qed.

(** ** The covariance and the correlation of real arrays of one shape *)

Lemma row_lists_map (f : R -> R) (s : list nat) (xs : list R) :
  row_lists s (map f xs) = map (map f) (row_lists s xs).
Proof. unfold row_lists. apply chunks_map. Qed.

Lemma rows_of_shape_nonempty (lead : list nat) (n : nat) (rws : list (list R)) :
  0 < n -> rows_of_shape lead n rws -> Forall (fun r => r ≠ []) rws.
Proof.
  intros Hn [_ Hr]. eapply Forall_impl; [exact Hr|].
  intros r Hl ->. cbn in Hl. lia.
Qed.

Lemma rows_of_shape_map (g : list R -> list R) (lead : list nat) (n : nat)
    (rws : list (list R)) :
  (forall r, length (g r) = length r) ->
  rows_of_shape lead n rws -> rows_of_shape lead n (map g rws).
Proof.
  intros Hg [Hl Hr]. split; [by rewrite length_map|].
  apply Forall_forall. intros r Hin.
  apply list_elem_of_fmap in Hin as (r' & -> & Hin).
  rewrite Forall_forall in Hr. rewrite Hg. by apply Hr.
Qed.

(** A real array of shape [lead ++ [n]], seen as its rows. *)
Lemma arr_as_rows (lead : list nat) (n : nat) (xs : list R) :
  length xs = product (lead ++ [n]) ->
  exists rws, arr (lead ++ [n]) xs = of_rows lead n rws
              /\ rows_of_shape lead n rws
              /\ rws = row_lists (lead ++ [n]) xs.
Proof.
  intros Hlen. destruct (arr_row_lists lead n xs Hlen) as [Ha Hr]. eauto.
Qed.

Lemma vec_map_of_rows (f : R -> R) (lead : list nat) (n : nat) (rws : list (list R)) :
  vec_map f (of_rows lead n rws) = of_rows lead n (map (map f) rws).
Proof.
  unfold of_rows. rewrite vec_map_arr. f_equal.
  induction rws as [|r rws IH]; [done|]. cbn. by rewrite map_app, IH.
Qed.

Lemma zip_with_rcov_affine (a b : R) (r1 r2 : list (list R)) :
  zip_with rcov (map (map (fun x => a * x + b)%R) r1) r2
  = map (fun c => a * c)%R (zip_with rcov r1 r2).
Proof.
  revert r2. induction r1 as [|u r1 IH]; intros [|v r2]; cbn [zip_with map]; try done.
  by rewrite rcov_affine, IH.
Qed.

Lemma zip_with_num_corr_affine (a b : R) (r1 r2 : list (list R)) :
  a ≠ 0%R ->
  zip_with num_corr (map (map (fun x => a * x + b)%R) r1) r2
  = map (fmap (fun c => if decide (0 < a)%R then c else (- c)%R))
        (zip_with num_corr r1 r2).
Proof.
  intros Ha. revert r2.
  induction r1 as [|u r1 IH]; intros [|v r2]; cbn [zip_with map]; try done.
  by rewrite num_corr_affine, IH.
Qed.

Lemma zip_with_num_corr_bounded (n : nat) (r1 r2 : list (list R)) :
  Forall (fun r => length r = n) r1 -> Forall (fun r => length r = n) r2 ->
  Forall in_unit_range (zip_with num_corr r1 r2).
Proof.
  intros H1. revert r2. induction H1 as [|u r1 Hu H1 IH]; intros r2 H2; [constructor|].
  destruct H2 as [|v r2 Hv H2]; [constructor|]. cbn [zip_with]. constructor; [|by apply IH].
  apply num_corr_bounded. congruence.
Qed.

(** X7. Over exact reals (not in binary64, where a*x + b is rounded):
    adding a constant to x leaves covariance_gufunc(x, y) as it is, and
    scaling x scales it: for real arrays x and y of one shape with a nonempty
    last axis, covariance_gufunc(a*x + b, y) = a * covariance_gufunc(x, y). *)
Theorem covariance_gufunc_affine (a b : R) (lead : list nat) (n : nat) (xs ys : list R) :
  0 < n ->
  length xs = product (lead ++ [n]) -> length ys = product (lead ++ [n]) ->
  covariance_gufunc (vec_map (fun t => a * t + b)%R (arr (lead ++ [n]) xs))
                    (arr (lead ++ [n]) ys)
  = vec_map (fun c => a * c)%R
      <$> covariance_gufunc (arr (lead ++ [n]) xs) (arr (lead ++ [n]) ys).
Proof.
  intros Hn Hx Hy.
  destruct (arr_as_rows lead n xs Hx) as (r1 & -> & H1 & _).
  destruct (arr_as_rows lead n ys Hy) as (r2 & -> & H2 & _).
  rewrite vec_map_of_rows.
  rewrite !covariance_gufunc_rows; try done.
  - cbn. by rewrite vec_map_arr, zip_with_rcov_affine.
  - by eapply rows_of_shape_nonempty.
  - apply rows_of_shape_map; [intros; apply length_map|done].
  - eapply rows_of_shape_nonempty; [done|].
    apply rows_of_shape_map; [intros; apply length_map|done].
Qed.

Lemma covariance_gufunc_affine_witness :
  covariance_gufunc (vec_map (fun t => 3 * t + 1)%R (arr ([2] ++ [2]) [0; 2; 1; 3]%R))
                    (arr ([2] ++ [2]) [1; 0; 0; 1]%R)
  = vec_map (fun c => 3 * c)%R
      <$> covariance_gufunc (arr ([2] ++ [2]) [0; 2; 1; 3]%R) (arr ([2] ++ [2]) [1; 0; 0; 1]%R).
Proof.
  apply (covariance_gufunc_affine 3 1 [2] 2 [0; 2; 1; 3]%R [1; 0; 0; 1]%R); [lia|done|done].
Defined.

(** X10. Every value of correlation_gufunc(x, y), for real arrays x and y of one
    shape with a nonempty last axis, is non-finite (a zero standard
    deviation) or a real between -1 and 1. *)
Theorem correlation_gufunc_bounded (lead : list nat) (n : nat) (xs ys : list R) :
  0 < n ->
  length xs = product (lead ++ [n]) -> length ys = product (lead ++ [n]) ->
  exists q, correlation_gufunc (arr (lead ++ [n]) xs) (arr (lead ++ [n]) ys) = Returns q
            /\ shape q = lead
            /\ Forall in_unit_range (values q).
Proof.
  intros Hn Hx Hy.
  destruct (arr_as_rows lead n xs Hx) as (r1 & -> & H1 & _).
  destruct (arr_as_rows lead n ys Hy) as (r2 & -> & H2 & _).
  rewrite correlation_gufunc_rows; [|done|done|by eapply rows_of_shape_nonempty].
  eexists. split; [done|]. split; [done|]. cbn [values].
  destruct H1 as [_ H1], H2 as [_ H2]. by eapply zip_with_num_corr_bounded.
Qed.

Lemma correlation_gufunc_bounded_witness :
  exists q, correlation_gufunc (arr ([2] ++ [2]) [0; 2; 1; 3]%R)
                               (arr ([2] ++ [2]) [1; 0; 0; 1]%R) = Returns q
            /\ shape q = [2]
            /\ Forall in_unit_range (values q).
Proof.
  apply (correlation_gufunc_bounded [2] 2 [0; 2; 1; 3]%R [1; 0; 0; 1]%R); [lia|done|done].
Defined.

(** X12. Over exact reals (not in binary64, where a*x + b is rounded):
    correlation_gufunc(a*x + b, y), for real arrays x and y of one shape with
    a nonempty last axis, is the same as correlation_gufunc(x, y) when a > 0,
    its negative when a < 0. *)
Theorem correlation_gufunc_affine (a b : R) (lead : list nat) (n : nat) (xs ys : list R) :
  0 < n -> a ≠ 0%R ->
  length xs = product (lead ++ [n]) -> length ys = product (lead ++ [n]) ->
  correlation_gufunc (vec_map (fun t => a * t + b)%R (arr (lead ++ [n]) xs))
                     (arr (lead ++ [n]) ys)
  = vec_map (fun c => if decide (0 < a)%R then c else (- c)%R)
      <$> correlation_gufunc (arr (lead ++ [n]) xs) (arr (lead ++ [n]) ys).
Proof.
  intros Hn Ha Hx Hy.
  destruct (arr_as_rows lead n xs Hx) as (r1 & -> & H1 & _).
  destruct (arr_as_rows lead n ys Hy) as (r2 & -> & H2 & _).
  rewrite vec_map_of_rows.
  rewrite !correlation_gufunc_rows; try done.
  - cbn. unfold vec_map. cbn [shape values]. by rewrite zip_with_num_corr_affine.
  - by eapply rows_of_shape_nonempty.
  - apply rows_of_shape_map; [intros; apply length_map|done].
  - eapply rows_of_shape_nonempty; [done|].
    apply rows_of_shape_map; [intros; apply length_map|done].
Qed.

Lemma correlation_gufunc_affine_witness :
  correlation_gufunc (vec_map (fun t => -2 * t + 1)%R (arr ([2] ++ [2]) [0; 2; 1; 3]%R))
                     (arr ([2] ++ [2]) [1; 0; 0; 1]%R)
  = vec_map (fun c => if decide (0 < -2)%R then c else (- c)%R)
      <$> correlation_gufunc (arr ([2] ++ [2]) [0; 2; 1; 3]%R) (arr ([2] ++ [2]) [1; 0; 0; 1]%R).
Proof.
  apply (correlation_gufunc_affine (-2) 1 [2] 2 [0; 2; 1; 3]%R [1; 0; 0; 1]%R);
    [lia|lra|done|done].
Defined.

(** ** Ranks *)

Lemma length_rank_list (l : list R) : length (rank_list l) = length l.
Proof. unfold rank_list. apply length_map. Qed.

Lemma count_le_lt (l : list R) (a b : R) :
  (a < b)%R -> count_lt l a + count_eq l a <= count_lt l b.
Proof.
  intros Hab. unfold count_lt, count_eq.
  induction l as [|x l IH]; [done|].
  rewrite !filter_cons. repeat case_decide; cbn [length]; try lia; lra.
Qed.

Lemma count_eq_pos (l : list R) (a : R) : a ∈ l -> 0 < count_eq l a.
Proof.
  unfold count_eq. induction 1 as [x l|x y l Hin IH].
  - rewrite filter_cons, decide_True by done. cbn. lia.
  - rewrite filter_cons. case_decide; cbn [length]; lia.
Qed.

(** A larger value has a larger rank. *)
Lemma rank_of_lt (l : list R) (a b : R) :
  a ∈ l -> (a < b)%R -> (rank_of l a < rank_of l b)%R.
Proof.
  intros Ha Hab. unfold rank_of.
  pose proof (count_le_lt l a b Hab) as Hle.
  pose proof (count_eq_pos l a Ha) as Hpos.
  apply le_INR in Hle. rewrite plus_INR in Hle.
  apply lt_INR in Hpos. cbn [INR] in Hpos.
  pose proof (pos_INR (count_eq l b)). lra.
Qed.

Lemma rsum_nonneg_zero (l : list R) :
  Forall (fun x => 0 <= x)%R l -> rsum l = 0%R -> Forall (fun x => x = 0%R) l.
Proof.
  induction 1 as [|x l Hx Hl IH]; [constructor|].
  cbn. intros Hs. pose proof (rsum_nonneg l Hl) as Hn. unfold rsum in Hn.
  constructor; [lra|]. apply IH. unfold rsum. lra.
Qed.

(** A row of standard deviation 0 is constant. *)
Lemma rstd_zero_constant (l : list R) :
  l ≠ [] -> rstd l = 0%R -> Forall (fun x => x = rmean l) l.
Proof.
  intros Hl Hs. unfold rstd in Hs.
  apply sqrt_eq_0 in Hs; [|apply rvar_nonneg].
  unfold rvar, rmean at 1 in Hs. rewrite length_map in Hs.
  pose proof (INR_length_nonzero l Hl) as Hn.
  assert (Hz : rsum (map (fun x => (x - rmean l) * (x - rmean l))%R l) = 0%R).
  { apply Rmult_eq_reg_r with (/ INR (length l))%R;
      [|by apply Rinv_neq_0_compat]. rewrite Rmult_0_l. exact Hs. }
  apply rsum_nonneg_zero in Hz.
  - rewrite Forall_fmap in Hz. eapply Forall_impl; [exact Hz|].
    cbn. intros x Hx. nra.
  - rewrite Forall_fmap. apply Forall_true. cbn. intros x.
    apply (Rle_0_sqr (x - rmean l)).
Qed.

Lemma not_constant_two (l : list R) :
  ~ constant l -> exists a b, a ∈ l /\ b ∈ l /\ (a < b)%R.
Proof.
  intros Hc. destruct l as [|h t]; [exfalso; apply Hc; exists 0%R; constructor|].
  destruct (decide (Forall (fun x => x = h) t)) as [Ht|Ht].
  - exfalso. apply Hc. exists h. by constructor.
  - apply not_Forall_Exists in Ht; [|apply _].
    apply Exists_exists in Ht as (x & Hx & Hne).
    destruct (Rtotal_order x h) as [Hlt|[?|Hgt]]; [|done|].
    + exists x, h. repeat split; [by right|by left|done].
    + exists h, x. repeat split; [by left|by right|done].
Qed.

(** The ranks of a row that is not constant have a nonzero standard
    deviation. *)
Lemma rstd_rank_list_nonzero (l : list R) :
  ~ constant l -> rstd (rank_list l) ≠ 0%R.
Proof.
  intros Hc Hs. destruct (not_constant_two l Hc) as (a & b & Ha & Hb & Hab).
  assert (Hne : rank_list l ≠ []).
  { intros Hnil. apply (f_equal length) in Hnil. rewrite length_rank_list in Hnil.
    destruct l; [by apply elem_of_nil in Ha|done]. }
  pose proof (rstd_zero_constant _ Hne Hs) as Hall.
  rewrite Forall_forall in Hall.
  assert (H1 : rank_of l a = rmean (rank_list l))
    by (apply Hall; unfold rank_list; by apply list_elem_of_fmap_2).
  assert (H2 : rank_of l b = rmean (rank_list l))
    by (apply Hall; unfold rank_list; by apply list_elem_of_fmap_2).
  pose proof (rank_of_lt l a b Ha Hab). lra.
Qed.

(** The ranks of a constant row are constant. *)
Lemma rstd_rank_list_constant (l : list R) :
  l ≠ [] -> constant l -> rstd (rank_list l) = 0%R.
Proof.
  intros Hl [c Hc]. apply (rstd_const (rank_of l c)).
  - intros Hnil. apply (f_equal length) in Hnil. rewrite length_rank_list in Hnil.
    by destruct l.
  - unfold rank_list. rewrite Forall_fmap. eapply Forall_impl; [exact Hc|].
    by intros x ->.
Qed.

(** *** Order-reversing maps *)

Section RankReversal.
Variable g : R -> R.
Hypothesis g_decreasing : forall a b : R, (a < b)%R -> (g b < g a)%R.

Lemma decreasing_lt_iff (a b : R) : (g a < g b)%R <-> (b < a)%R.
Proof.
split; [|apply g_decreasing].
intros Hg. destruct (Rtotal_order a b) as [Hlt|[->|Hgt]]; [|lra|done].
apply g_decreasing in Hlt. lra.
Qed.

Lemma decreasing_eq_iff (a b : R) : g a = g b <-> a = b.
Proof.
split; [|by intros ->].
intros Hg. destruct (Rtotal_order a b) as [Hlt|[->|Hgt]]; [|done|].
- apply g_decreasing in Hlt. lra.
- apply g_decreasing in Hgt. lra.
Qed.

Lemma count_eq_decreasing (l : list R) (x : R) :
count_eq (map g l) (g x) = count_eq l x.
Proof.
unfold count_eq. induction l as [|a l IH]; [done|].
cbn [map]. rewrite !filter_cons.
destruct (decide (g a = g x)) as [H1|H1], (decide (a = x)) as [H2|H2];
  simpl; rewrite ?IH; try done.
- exfalso. apply H2. by apply decreasing_eq_iff.
- exfalso. apply H1. by subst.
Qed.

(** The entries below g(x) are the images of the entries above x. *)
Lemma count_lt_decreasing (l : list R) (x : R) :
count_lt (map g l) (g x) + count_lt l x + count_eq l x = length l.
Proof.
unfold count_lt, count_eq. induction l as [|a l IH]; [done|].
cbn [map]. rewrite !filter_cons.
destruct (Rtotal_order a x) as [Hlt|[->|Hgt]].
- rewrite (decide_True (P := (a < x)%R)) by done.
  rewrite (decide_False (P := (a = x))) by lra.
  rewrite (decide_False (P := (g a < g x)%R))
    by (rewrite decreasing_lt_iff; lra).
  cbn [length]. lia.
- rewrite (decide_False (P := (x < x)%R)) by lra.
  rewrite (decide_True (P := (x = x))) by done.
  rewrite (decide_False (P := (g x < g x)%R)) by lra.
  cbn [length]. lia.
- rewrite (decide_False (P := (a < x)%R)) by lra.
  rewrite (decide_False (P := (a = x))) by lra.
  rewrite (decide_True (P := (g a < g x)%R))
    by (by apply g_decreasing).
  cbn [length]. lia.
Qed.

Lemma rank_of_decreasing (l : list R) (x : R) :
rank_of (map g l) (g x) = (-1 * rank_of l x + (INR (length l) + 1))%R.
Proof.
unfold rank_of. rewrite count_eq_decreasing.
pose proof (count_lt_decreasing l x) as Hc.
apply (f_equal INR) in Hc. rewrite !plus_INR in Hc. lra.
Qed.

(** An order-reversing map turns the ranks r into n + 1 - r. *)
Lemma rank_list_decreasing (l : list R) :
rank_list (map g l)
= map (fun r => -1 * r + (INR (length l) + 1))%R (rank_list l).
Proof.
unfold rank_list. rewrite !List.map_map.
apply List.map_ext. intros x. apply rank_of_decreasing.
Qed.
End RankReversal.

(** ** spearman_correlation_gufunc on real arrays of one shape *)

Lemma spearman_correlation_gufunc_rows (lead : list nat) (n : nat)
    (r1 r2 : list (list R)) :
  rows_of_shape lead n r1 -> rows_of_shape lead n r2 ->
  Forall (fun r => r ≠ []) r1 ->
  spearman_correlation_gufunc (of_rows lead n r1) (of_rows lead n r2)
  = Returns {| shape := lead;
               values := zip_with num_corr (map rank_list r1) (map rank_list r2) |}.
Proof.
  intros H1 H2 Hne. unfold spearman_correlation_gufunc.
  rewrite !rankdata_rows, !bind_Returns by done.
  apply correlation_gufunc_rows.
  - apply rows_of_shape_map; [apply length_rank_list|done].
  - apply rows_of_shape_map; [apply length_rank_list|done].
  - rewrite Forall_fmap. eapply Forall_impl; [exact Hne|].
    cbn. intros r Hr Hnil. apply Hr.
    apply (f_equal length) in Hnil. rewrite length_rank_list in Hnil. by destruct r.
Qed.

Lemma not_constant_nonempty (rws : list (list R)) :
  Forall (fun r => ~ constant r) rws -> Forall (fun r => r ≠ []) rws.
Proof.
  intros H. eapply Forall_impl; [exact H|].
  intros r Hc ->. apply Hc. exists 0%R. constructor.
Qed.

Lemma num_corr_comm (xs ys : list R) : num_corr xs ys = num_corr ys xs.
Proof. unfold num_corr. by rewrite rcov_comm, Rmult_comm. Qed.

Lemma num_corr_ranks_self (r : list R) :
  ~ constant r -> num_corr (rank_list r) (rank_list r) = Some 1%R.
Proof. intros Hc. by apply num_corr_self, rstd_rank_list_nonzero. Qed.

Lemma num_corr_ranks_reversed (g : R -> R) (r : list R) :
  (forall a b : R, (a < b)%R -> (g b < g a)%R) ->
  ~ constant r ->
  num_corr (rank_list r) (rank_list (map g r)) = Some (-1)%R.
Proof.
  intros Hg Hc. rewrite (rank_list_decreasing g Hg), num_corr_comm.
  rewrite num_corr_affine by lra. rewrite num_corr_ranks_self by done.
  cbn. rewrite decide_False by lra. done.
Qed.

Lemma map_const_Forall {A B} (P : A -> Prop) (g : A -> B) (c : B) (l : list A) :
  (forall x, P x -> g x = c) -> Forall P l -> map g l = map (fun _ => c) l.
Proof.
  intros Hg. induction 1 as [|x l Hx Hl IH]; [done|]. cbn. by rewrite Hg, IH.
Qed.

(** X19. Over exact reals (in binary64 rounding can carry the quotient past
    1 in the last place): every value of spearman_correlation_gufunc(x, y),
    for real arrays x and y of one shape with a nonempty last axis, is
    non-finite or a real between -1 and 1. *)
Theorem spearman_correlation_gufunc_bounded (lead : list nat) (n : nat) (xs ys : list R) :
  0 < n ->
  length xs = product (lead ++ [n]) -> length ys = product (lead ++ [n]) ->
  exists q, spearman_correlation_gufunc (arr (lead ++ [n]) xs) (arr (lead ++ [n]) ys)
            = Returns q
            /\ shape q = lead
            /\ Forall in_unit_range (values q).
Proof.
  intros Hn Hx Hy.
  destruct (arr_as_rows lead n xs Hx) as (r1 & -> & H1 & _).
  destruct (arr_as_rows lead n ys Hy) as (r2 & -> & H2 & _).
  rewrite spearman_correlation_gufunc_rows; [|done|done|by eapply rows_of_shape_nonempty].
  eexists. split; [done|]. split; [done|]. cbn [values].
  apply (zip_with_num_corr_bounded n).
  - apply (rows_of_shape_map rank_list lead); [apply length_rank_list|done].
  - apply (rows_of_shape_map rank_list lead); [apply length_rank_list|done].
Qed.

Lemma spearman_correlation_gufunc_bounded_witness :
  exists q, spearman_correlation_gufunc (arr ([2] ++ [2]) [0; 2; 1; 3]%R)
                                        (arr ([2] ++ [2]) [1; 0; 0; 1]%R) = Returns q
            /\ shape q = [2]
            /\ Forall in_unit_range (values q).
Proof.
  apply (spearman_correlation_gufunc_bounded [2] 2 [0; 2; 1; 3]%R [1; 0; 0; 1]%R);
    [lia|done|done].
Defined.

(** X16. Over exact reals (in binary64 the quotient can miss 1 in the last
    place), a perfect increasing relation has Spearman correlation 1: for a
    real array x none of whose rows (along the last axis) is constant and a
    strictly increasing f, spearman_correlation_gufunc(x, f(x)) is 1 at
    every index.  (With f the identity: the correlation of x with itself.) *)
Theorem spearman_correlation_gufunc_increasing (f : R -> R) (lead : list nat) (n : nat)
    (xs : list R) :
  (forall a b : R, (a < b)%R -> (f a < f b)%R) ->
  length xs = product (lead ++ [n]) ->
  Forall (fun r => ~ constant r) (row_lists (lead ++ [n]) xs) ->
  spearman_correlation_gufunc (arr (lead ++ [n]) xs) (vec_map f (arr (lead ++ [n]) xs))
  = Returns (arr lead (map (fun _ => 1%R) (row_lists (lead ++ [n]) xs))).
Proof.
  intros Hf Hx Hc.
  destruct (arr_as_rows lead n xs Hx) as (r1 & -> & H1 & ->).
  rewrite vec_map_of_rows.
  rewrite spearman_correlation_gufunc_rows;
    [|done|apply rows_of_shape_map; [intros; apply length_map|done]
     |by apply not_constant_nonempty].
  unfold arr. do 2 f_equal. rewrite !List.map_map.
  rewrite (List.map_ext (fun r => rank_list (map f r)) rank_list)
    by (intros r; apply (rank_list_increasing f Hf)).
  rewrite zip_with_diag, !List.map_map.
  apply (map_const_Forall (fun r => ~ constant r)); [|done].
  intros r Hr. by apply num_corr_ranks_self.
Qed.

(** X17. Over exact reals (in binary64 the quotient can miss -1 in the last
    place), a perfect decreasing relation has Spearman correlation -1. *)
Theorem spearman_correlation_gufunc_decreasing (g : R -> R) (lead : list nat) (n : nat)
    (xs : list R) :
  (forall a b : R, (a < b)%R -> (g b < g a)%R) ->
  length xs = product (lead ++ [n]) ->
  Forall (fun r => ~ constant r) (row_lists (lead ++ [n]) xs) ->
  spearman_correlation_gufunc (arr (lead ++ [n]) xs) (vec_map g (arr (lead ++ [n]) xs))
  = Returns (arr lead (map (fun _ => (-1)%R) (row_lists (lead ++ [n]) xs))).
Proof.
  intros Hg Hx Hc.
  destruct (arr_as_rows lead n xs Hx) as (r1 & -> & H1 & ->).
  rewrite vec_map_of_rows.
  rewrite spearman_correlation_gufunc_rows;
    [|done|apply rows_of_shape_map; [intros; apply length_map|done]
     |by apply not_constant_nonempty].
  unfold arr. do 2 f_equal. rewrite !List.map_map.
  rewrite zip_with_map_same.
  apply (map_const_Forall (fun r => ~ constant r)); [|done].
  intros r Hr. by apply num_corr_ranks_reversed.
Qed.

(** X18. Where x is constant along the last axis its ranks are all equal, their
    standard deviation is 0, and spearman_correlation_gufunc(x, y) is
    non-finite: returned, not raised. *)
Theorem spearman_correlation_gufunc_constant (lead : list nat) (n : nat) (xs ys : list R) :
  0 < n ->
  length xs = product (lead ++ [n]) -> length ys = product (lead ++ [n]) ->
  Forall constant (row_lists (lead ++ [n]) xs) ->
  spearman_correlation_gufunc (arr (lead ++ [n]) xs) (arr (lead ++ [n]) ys)
  = Returns {| shape := lead;
               values := map (fun _ => None) (row_lists (lead ++ [n]) xs) |}.
Proof.
  intros Hn Hx Hy Hc.
  destruct (arr_as_rows lead n xs Hx) as (r1 & -> & H1 & Hr1).
  rewrite <- Hr1 in *. clear Hr1.
  destruct (arr_as_rows lead n ys Hy) as (r2 & -> & H2 & _).
  pose proof (rows_of_shape_nonempty lead n r1 Hn H1) as Hne.
  rewrite spearman_correlation_gufunc_rows by done. do 2 f_equal.
  destruct H1 as [Hl1 _], H2 as [Hl2 _].
  assert (Hlen : length r1 = length r2) by congruence.
  clear Hl1 Hl2 Hx Hy. revert r2 Hlen.
  induction r1 as [|u r1 IH]; intros [|v r2] Hlen; try done.
  apply Forall_cons in Hc as [Hu Hc]. apply Forall_cons in Hne as [Hun Hne].
  cbn [map zip_with]. f_equal; [|apply IH; [done|done|by injection Hlen]].
  apply num_corr_zero. by apply rstd_rank_list_constant.
Qed.

(** *** Instances *)

Lemma rows_2x2_not_constant :
  Forall (fun r => ~ constant r) (row_lists ([2] ++ [2]) [0; 2; 1; 3]%R).
Proof.
  change (row_lists ([2] ++ [2]) [0; 2; 1; 3]%R) with [[0; 2]; [1; 3]]%R.
  repeat constructor; intros [c Hc];
    apply Forall_cons in Hc as [H1 Hc]; apply Forall_cons in Hc as [H2 _]; lra.
Qed.

Lemma rows_2x2_constant :
  Forall constant (row_lists ([2] ++ [2]) [7; 7; 5; 5]%R).
Proof.
  change (row_lists ([2] ++ [2]) [7; 7; 5; 5]%R) with [[7; 7]; [5; 5]]%R.
  repeat constructor; [exists 7%R|exists 5%R]; by repeat constructor.
Qed.

Lemma spearman_correlation_gufunc_increasing_witness :
  spearman_correlation_gufunc (arr ([2] ++ [2]) [0; 2; 1; 3]%R)
    (vec_map (fun t => 2 * t + 1)%R (arr ([2] ++ [2]) [0; 2; 1; 3]%R))
  = Returns (arr [2] (map (fun _ => 1%R) (row_lists ([2] ++ [2]) [0; 2; 1; 3]%R))).
Proof.
  apply (spearman_correlation_gufunc_increasing (fun t => 2 * t + 1)%R [2] 2 [0; 2; 1; 3]%R);
    [intros a b Hab; lra|done|exact rows_2x2_not_constant].
Defined.

Lemma spearman_correlation_gufunc_decreasing_witness :
  spearman_correlation_gufunc (arr ([2] ++ [2]) [0; 2; 1; 3]%R)
    (vec_map (fun t => - t)%R (arr ([2] ++ [2]) [0; 2; 1; 3]%R))
  = Returns (arr [2] (map (fun _ => (-1)%R) (row_lists ([2] ++ [2]) [0; 2; 1; 3]%R))).
Proof.
  apply (spearman_correlation_gufunc_decreasing (fun t => - t)%R [2] 2 [0; 2; 1; 3]%R);
    [intros a b Hab; lra|done|exact rows_2x2_not_constant].
Defined.

Lemma spearman_correlation_gufunc_constant_witness :
  spearman_correlation_gufunc (arr ([2] ++ [2]) [7; 7; 5; 5]%R)
                              (arr ([2] ++ [2]) [0; 2; 1; 3]%R)
  = Returns {| shape := [2];
               values := map (fun _ => None) (row_lists ([2] ++ [2]) [7; 7; 5; 5]%R) |}.
Proof.
  apply (spearman_correlation_gufunc_constant [2] 2 [7; 7; 5; 5]%R [0; 2; 1; 3]%R);
    [lia|done|done|exact rows_2x2_constant].
Defined.

(** ** sum_minus_2 *)

Lemma map_lookup_seq {A} (d : A) (v : list A) (p n : nat) :
  p + n <= length v ->
  map (fun k => default d (v !! (p + k))) (seq 0 n) = take n (drop p v).
Proof.
  intros Hlen. apply list_eq. intros i.
  rewrite list_lookup_fmap. destruct (decide (i < n)) as [Hi|Hi].
  - rewrite lookup_seq_lt by done. cbn.
    rewrite lookup_take_lt, lookup_drop by done.
    destruct (lookup_lt_is_Some_2 v (p + i)) as [x Hx]; [lia|]. by rewrite Hx.
  - rewrite lookup_seq_ge by lia. cbn.
    symmetry. apply lookup_ge_None_2. rewrite length_take. lia.
Qed.

Lemma chunks_seq {A} (n count : nat) (v : list A) :
  chunks n count v = map (fun o => take n (drop (o * n) v)) (seq 0 count).
Proof.
  revert v. induction count as [|c IH]; intros v.
  { done. }
  cbn [chunks seq map]. rewrite drop_0. f_equal.
  rewrite IH, <- fmap_S_seq, <- list_fmap_compose.
  apply list_fmap_ext. intros _ o _. cbn. rewrite drop_drop. do 2 f_equal; lia.
Qed.

Lemma flat_map_singleton {A B} (g : A -> B) (l : list A) :
  flat_map (fun x => [g x]) l = map g l.
Proof. induction l as [|x l IH]; [done|]. cbn. by rewrite IH. Qed.

Lemma flat_map_Forall_eq {A B} (f g : A -> list B) (l : list A) :
  Forall (fun x => f x = g x) l -> flat_map f l = flat_map g l.
Proof. induction 1 as [|x l Hx Hl IH]; [done|]. cbn. by rewrite Hx, IH. Qed.

Lemma normalize_axis_last (k : nat) (axis : Z) :
  axis = (-1)%Z \/ axis = Z.of_nat k -> normalize_axis (S k) axis = Some k.
Proof.
  unfold normalize_axis. intros [->| ->].
  - rewrite decide_False by lia. rewrite decide_True by lia. f_equal. lia.
  - rewrite decide_True by lia. f_equal. lia.
Qed.

(** da.sum over the last axis sums the rows. *)
Lemma np_sum_last (a : nparray) (lead : list nat) (n : nat) (axis : Z) :
  well_formed a -> shape a = lead ++ [n] ->
  axis = (-1)%Z \/ axis = Z.of_nat (length lead) ->
  np_sum a axis = Returns {| shape := lead; values := map num_sum (rows a) |}.
Proof.
  unfold well_formed. intros Hwf Hs Hax. unfold np_sum, rows.
  rewrite Hs in *. rewrite length_app, Nat.add_1_r, (normalize_axis_last _ _ Hax).
  rewrite last_snoc, leading_snoc, product_snoc in *.
  assert (Hd : drop (S (length lead)) (lead ++ [n]) = [])
    by (apply drop_ge; rewrite length_app; simpl; lia).
  rewrite delete_take_drop, Hd, take_app_length, app_nil_r.
  rewrite list_lookup_middle by done. cbn [default]. do 2 f_equal.
  rewrite chunks_seq, List.map_map, <- flat_map_singleton.
  apply flat_map_Forall_eq, Forall_forall. intros o Ho.
  apply elem_of_seq in Ho as [_ Ho]. cbn [product foldr seq map]. f_equal. f_equal.
  unfold Datatypes.id.
  rewrite <- (@map_lookup_seq num None (values a) (o * n) n) by nia.
  apply List.map_ext. intros k. do 2 f_equal. lia.
Qed.

(** Broadcasting a scalar against an array applies it to every value. *)
Lemma broadcast_values_scalar {A B C} (f : A -> B -> C) (s : list nat)
    (v : list A) (c : B) :
  length v = product s ->
  broadcast_values f s (replicate (length s) 1) v [c] = map (fun x => f x c) v.
Proof.
  revert v. induction s as [|n s IH]; intros v Hlen.
  - cbn in *. destruct v as [|x [|? ?]]; by try done.
  - rewrite product_cons in Hlen. cbn [length replicate broadcast_values].
    rewrite product_replicate_1.
    assert (Hc : Forall (fun r => length r = product s) (chunks (product s) n v))
      by (apply chunks_Forall_length; lia).
    destruct (decide (n = 1)) as [->|Hn].
    + cbn [chunks zip_with concat take]. rewrite app_nil_r, take_ge by lia.
      apply IH. lia.
    + rewrite <- (concat_chunks (product s) n v) at 2 by lia.
      induction Hc as [|r rs Hr Hrs IHc]; [done|].
      cbn [map concat]. rewrite map_app, IH by done. f_equal. apply IHc.
Qed.

Lemma broadcast_scalar (f : num -> num -> num) (a : nparray) (c : num) :
  well_formed a ->
  broadcast f a {| shape := []; values := [c] |}
  = Returns {| shape := shape a; values := map (fun x => f x c) (values a) |}.
Proof.
  intros Hwf. unfold broadcast. cbn [shape values].
  assert (Hs : broadcast_shapes (shape a) [] = Some (shape a)).
  { unfold broadcast_shapes. change (reverse []) with (@nil nat).
    replace (broadcast_reversed (reverse (shape a)) []) with (Some (reverse (shape a)))
      by (by destruct (reverse (shape a))).
    cbn. by rewrite reverse_involutive. }
  rewrite Hs. do 2 f_equal.
  rewrite pad_shape_same. unfold pad_shape. cbn [length]. rewrite Nat.sub_0_r, app_nil_r.
  by apply broadcast_values_scalar.
Qed.

Lemma length_flat_map_uniform {A B} (f : A -> list B) (k : nat) (l : list A) :
  (forall x, length (f x) = k) -> length (flat_map f l) = length l * k.
Proof.
  intros Hf. induction l as [|x l IH]; [done|].
  cbn. rewrite length_app, Hf, IH. lia.
Qed.

Lemma normalize_axis_Some (rank : nat) (axis : Z) :
  (- Z.of_nat rank <= axis < Z.of_nat rank)%Z ->
  normalize_axis rank axis = Some (Z.to_nat (axis `mod` Z.of_nat rank)).
Proof.
  intros Hr. unfold normalize_axis.
  destruct (decide (0 <= axis < Z.of_nat rank)%Z) as [H1|H1].
  - by rewrite Z.mod_small.
  - rewrite decide_True by lia. do 2 f_equal.
    rewrite <- (Z.mod_small (axis + Z.of_nat rank) (Z.of_nat rank)) by lia.
    rewrite <- (Z.mul_1_l (Z.of_nat rank)) at 1. by rewrite Z.mod_add by lia.
Qed.

Lemma normalize_axis_None (rank : nat) (axis : Z) :
  ~ (- Z.of_nat rank <= axis < Z.of_nat rank)%Z -> normalize_axis rank axis = None.
Proof.
  intros Hr. unfold normalize_axis. rewrite !decide_False by lia. done.
Qed.

(** da.sum(axis=axis) for an axis of the array: the axis is removed from
    the shape and the result is well formed. *)
Lemma np_sum_returns (a : nparray) (axis : Z) (ax : nat) :
  normalize_axis (length (shape a)) axis = Some ax ->
  exists q, np_sum a axis = Returns q
            /\ shape q = delete ax (shape a) /\ well_formed q.
Proof.
  intros Hax. unfold np_sum. rewrite Hax. eexists. split; [done|]. split; [done|].
  unfold well_formed. cbn [shape values].
  rewrite (length_flat_map_uniform _ (product (drop (S ax) (shape a))))
    by (intros; by rewrite length_map, length_seq).
  by rewrite length_seq, delete_take_drop, product_app.
Qed.

Lemma sub_of_int (q : nparray) (z : Z) :
  well_formed q ->
  sub q (of_int z)
  = Returns {| shape := shape q;
               values := map (fun x => num_sub x (Some (IZR z))) (values q) |}.
Proof. intros Hq. cbn [sub of_int numpy_real]. by apply broadcast_scalar. Qed.

Lemma num_sum_non_finite (r : list num) : None ∈ r -> num_sum r = None.
Proof.
  unfold num_sum. induction r as [|x r IH]; intros Hin; [by apply elem_of_nil in Hin|].
  apply elem_of_cons in Hin as [<-|Hin]; cbn [foldr]; [done|].
  rewrite IH by done. by destruct x.
Qed.

(** X3. sum_minus_2 over an axis of the array (counted from the front, or from
    the end when negative) returns a well-formed array of the shape without
    that axis. *)
Theorem sum_minus_2_returns (a : nparray) (axis : Z) :
  (- Z.of_nat (length (shape a)) <= axis < Z.of_nat (length (shape a)))%Z ->
  exists q, sum_minus_2 a axis = Returns q
            /\ shape q
               = delete (Z.to_nat (axis `mod` Z.of_nat (length (shape a)))) (shape a)
            /\ well_formed q.
Proof.
  intros Hr. unfold sum_minus_2. cbn [sum_axis numpy_real].
  destruct (np_sum_returns a axis _ (normalize_axis_Some _ _ Hr)) as (s & -> & Hs & Hwf).
  rewrite bind_Returns, sub_of_int by done.
  eexists. split; [done|]. split; [done|].
  unfold well_formed in *. cbn [shape values]. by rewrite length_map.
Qed.

Lemma sum_minus_2_returns_witness :
  exists q, sum_minus_2 (arr [2; 3] [1; 2; 3; 4; 5; 6]%R) (-2) = Returns q
            /\ shape q = [3] /\ well_formed q.
Proof.
  apply (sum_minus_2_returns (arr [2; 3] [1; 2; 3; 4; 5; 6]%R) (-2)). cbn. lia.
Defined.

(** X4. On an array of rank at least 1, sum_minus_2 raises exactly when the
    axis is out of bounds, and then AxisError: the subtraction of 2 never
    fails.  (On an array of rank 0 numpy lets the axes 0 and -1 pass; that
    case is left out here.) *)
Theorem sum_minus_2_raises_iff (a : nparray) (axis : Z) (e : exn) :
  shape a ≠ [] ->
  sum_minus_2 a axis = Raises e
  <-> e = AxisError
      /\ ~ (- Z.of_nat (length (shape a)) <= axis < Z.of_nat (length (shape a)))%Z.
Proof.
  intros Hrank.
  destruct (decide (- Z.of_nat (length (shape a)) <= axis
                    < Z.of_nat (length (shape a)))%Z) as [Hr|Hr].
  - unfold sum_minus_2. cbn [sum_axis numpy_real].
    destruct (np_sum_returns a axis _ (normalize_axis_Some _ _ Hr)) as (s & -> & Hs & Hwf).
    rewrite bind_Returns, sub_of_int by done. split; [done|tauto].
  - unfold sum_minus_2. cbn [sum_axis numpy_real]. unfold np_sum.
    rewrite normalize_axis_None by done.
    rewrite decide_False by (by intros [? _]). rewrite bind_Raises.
    split; [by intros [= <-]|by intros [-> _]].
Qed.

Lemma sum_minus_2_raises_iff_witness :
  sum_minus_2 (arr [2; 3] [1; 2; 3; 4; 5; 6]%R) 2 = Raises AxisError.
Proof.
  apply (sum_minus_2_raises_iff (arr [2; 3] [1; 2; 3; 4; 5; 6]%R) 2 AxisError); [done|].
  split; [done|]. cbn. lia.
Defined.

(** X1. Along the last axis (given as -1 or as the last index) sum_minus_2 of a
    real array is, for every row, the sum of the row minus 2; over an empty
    axis that is -2. *)
Theorem sum_minus_2_last_axis (lead : list nat) (n : nat) (xs : list R) (axis : Z) :
  length xs = product (lead ++ [n]) ->
  axis = (-1)%Z \/ axis = Z.of_nat (length lead) ->
  sum_minus_2 (arr (lead ++ [n]) xs) axis
  = Returns (arr lead (map (fun r => rsum r - 2)%R (row_lists (lead ++ [n]) xs))).
Proof.
  intros Hx Hax. unfold sum_minus_2. cbn [sum_axis numpy_real].
  rewrite (np_sum_last _ lead n axis);
    [|unfold well_formed, arr; cbn [shape values]; by rewrite length_map|done|done].
  destruct (arr_as_rows lead n xs Hx) as (rws & -> & Hrws & ->).
  rewrite rows_of_rows, bind_Returns by done.
  rewrite sub_of_int.
  - unfold arr. cbn [shape values]. do 2 f_equal. rewrite !List.map_map.
    apply List.map_ext. intros r. rewrite num_sum_vec. done.
  - unfold well_formed. cbn [shape values]. rewrite !length_map. apply Hrws.
Qed.

Lemma sum_minus_2_last_axis_witness :
  sum_minus_2 (arr ([2] ++ [3]) [1; 2; 3; 4; 5; 6]%R) (-1)
  = Returns (arr [2] (map (fun r => rsum r - 2)%R
                          (row_lists ([2] ++ [3]) [1; 2; 3; 4; 5; 6]%R))).
Proof.
  apply (sum_minus_2_last_axis [2] 3 [1; 2; 3; 4; 5; 6]%R (-1)); [done|by left].
Defined.

(** X2. A non-finite value (the nan that pads a rolling window, for instance)
    makes the result non-finite at the index of its row. *)
Theorem sum_minus_2_non_finite (a : nparray) (lead : list nat) (n : nat) (axis : Z) :
  well_formed a -> shape a = lead ++ [n] ->
  axis = (-1)%Z \/ axis = Z.of_nat (length lead) ->
  exists q, sum_minus_2 a axis = Returns q
            /\ shape q = lead
            /\ Forall2 (fun r v => None ∈ r -> v = None) (rows a) (values q).
Proof.
  intros Hwf Hs Hax. unfold sum_minus_2. cbn [sum_axis numpy_real].
  rewrite (np_sum_last a lead n axis), bind_Returns by done.
  rewrite sub_of_int.
  - eexists. split; [done|]. split; [done|]. cbn [shape values].
    rewrite List.map_map. apply Forall2_fmap_r, Forall_Forall2_diag, Forall_true.
    intros r Hr. by rewrite num_sum_non_finite.
  - unfold well_formed. cbn [shape values]. rewrite length_map, rows_length.
    + by rewrite Hs, leading_snoc.
    + rewrite Hs. by destruct lead.
Qed.

Lemma sum_minus_2_non_finite_witness :
  exists q, sum_minus_2 {| shape := [2; 2]; values := [None; Some 1%R; Some 2%R; Some 3%R] |}
                        (-1) = Returns q
            /\ shape q = [2]
            /\ Forall2 (fun r v => None ∈ r -> v = None)
                       (rows {| shape := [2; 2];
                                values := [None; Some 1%R; Some 2%R; Some 3%R] |})
                       (values q).
Proof.
  apply (sum_minus_2_non_finite
           {| shape := [2; 2]; values := [None; Some 1%R; Some 2%R; Some 3%R] |}
           [2] 2 (-1)); [done|done|by left].
Defined.

(** ** The covariance as a difference of moments *)

Lemma rsum_zip_centred (m m' : R) (xs ys : list R) :
  length xs = length ys ->
  rsum (zip_with (fun x y => (x - m) * (y - m'))%R xs ys)
  = (rsum (zip_with Rmult xs ys) - m * rsum ys - m' * rsum xs
     + INR (length xs) * m * m')%R.
Proof.
  revert ys. induction xs as [|x xs IH]; intros [|y ys] Hlen; try done.
  - cbn. lra.
  - cbn [zip_with length]. rewrite S_INR. cbn [rsum foldr].
    injection Hlen as Hlen. specialize (IH ys Hlen). unfold rsum in IH.
    rewrite IH. lra.
Qed.

(** The mean of the products of the deviations is the mean of the products
    less the product of the means. *)
Lemma rcov_moments (xs ys : list R) :
  length xs = length ys -> xs ≠ [] ->
  rcov xs ys = (rmean (zip_with Rmult xs ys) - rmean xs * rmean ys)%R.
Proof.
  intros Hlen Hne. unfold rcov, rmean.
  rewrite !length_zip_with, <- Hlen, Nat.min_id, rsum_zip_centred by done.
  pose proof (INR_length_nonzero xs Hne). by field.
Qed.

Lemma zip_with_Forall2_eq {A B C} (f g : A -> B -> C) (l : list A) (k : list B) :
  Forall2 (fun a b => f a b = g a b) l k -> zip_with f l k = zip_with g l k.
Proof. induction 1 as [|a b l k Hab Hlk IH]; [done|]. cbn. by rewrite Hab, IH. Qed.

Lemma rows_Forall2 (P : list R -> list R -> Prop) (lead : list nat) (n : nat)
    (r1 r2 : list (list R)) :
  rows_of_shape lead n r1 -> rows_of_shape lead n r2 ->
  (forall u v, length u = n -> length v = n -> P u v) ->
  Forall2 P r1 r2.
Proof.
  intros [Hl1 H1] [Hl2 H2] HP.
  assert (Hlen : length r1 = length r2) by congruence. clear Hl1 Hl2.
  revert r2 H2 Hlen. induction H1 as [|u r1 Hu H1 IH]; intros [|v r2] H2 Hlen; try done.
  apply Forall_cons in H2 as [Hv H2].
  constructor; [by apply HP|]. apply IH; [done|by injection Hlen].
Qed.

(** X5. Over exact reals (in binary64 the two sides round differently):
    covariance_gufunc(x, y), for real arrays x and y of one shape with a
    nonempty last axis, is for each pair of rows the mean of the products
    less the product of the means: the population covariance. *)
Theorem covariance_gufunc_moments (lead : list nat) (n : nat) (xs ys : list R) :
  0 < n ->
  length xs = product (lead ++ [n]) -> length ys = product (lead ++ [n]) ->
  covariance_gufunc (arr (lead ++ [n]) xs) (arr (lead ++ [n]) ys)
  = Returns (arr lead
      (zip_with (fun u v => rmean (zip_with Rmult u v) - rmean u * rmean v)%R
                (row_lists (lead ++ [n]) xs) (row_lists (lead ++ [n]) ys))).
Proof.
  intros Hn Hx Hy.
  destruct (arr_as_rows lead n xs Hx) as (r1 & -> & H1 & <-).
  destruct (arr_as_rows lead n ys Hy) as (r2 & -> & H2 & <-).
  rewrite covariance_gufunc_rows; [|done|done|by eapply rows_of_shape_nonempty].
  do 2 f_equal. apply zip_with_Forall2_eq.
  apply (rows_Forall2 _ lead n); [done|done|].
  intros u v Hu Hv. apply rcov_moments; [congruence|].
  intros ->. cbn in Hu. lia.
Qed.

Lemma covariance_gufunc_moments_witness :
  covariance_gufunc (arr ([2] ++ [2]) [0; 2; 1; 3]%R) (arr ([2] ++ [2]) [1; 0; 0; 1]%R)
  = Returns (arr [2]
      (zip_with (fun u v => rmean (zip_with Rmult u v) - rmean u * rmean v)%R
                (row_lists ([2] ++ [2]) [0; 2; 1; 3]%R)
                (row_lists ([2] ++ [2]) [1; 0; 0; 1]%R))).
Proof.
  apply (covariance_gufunc_moments [2] 2 [0; 2; 1; 3]%R [1; 0; 0; 1]%R); [lia|done|done].
Defined.

(** ** One vector against every row *)

Lemma concat_map_concat {A B} (h : A -> list B) (G : list (list A)) :
  concat (map (fun g => concat (map h g)) G) = concat (map h (concat G)).
Proof.
  induction G as [|g G IH]; [done|].
  cbn. by rewrite map_app, concat_app, IH.
Qed.

(** Broadcasting an array of shape [t] against one of shape [lead ++ t]
    runs it against every block of shape [t]. *)
Lemma broadcast_values_leading {A B C} (f : A -> B -> C) (lead t : list nat)
    (rws : list (list A)) (w : list B) :
  length rws = product lead ->
  Forall (fun r => length r = product t) rws ->
  length w = product t ->
  broadcast_values f (lead ++ t) (replicate (length lead) 1 ++ t) (concat rws) w
  = concat (map (fun c => broadcast_values f t t c w) rws).
Proof.
  intros Hl Hr Hw. revert rws Hl Hr.
  induction lead as [|n lead IH]; intros rws Hl Hr.
  - cbn in Hl. destruct rws as [|c [|? ?]]; try done. cbn. by rewrite !app_nil_r.
  - rewrite product_cons in Hl. cbn [app length replicate broadcast_values].
    rewrite !product_app, product_replicate_1, Nat.mul_1_l.
    destruct (decide (n = 1)) as [->|Hn].
    + cbn [chunks zip_with concat]. rewrite app_nil_r.
      rewrite (take_ge w) by lia.
      rewrite take_ge
        by (rewrite (length_concat_uniform (product t)) by done; lia).
      apply IH; [lia|done].
    + rewrite chunks_concat_groups by done. rewrite List.map_map.
      assert (Hlen : length rws = n * product lead) by done.
      rewrite <- (concat_chunks (product lead) n rws) at 2 by lia.
      rewrite <- concat_map_concat. f_equal.
      apply map_Forall_eq.
      assert (H1 : Forall (fun g => length g = product lead)
                          (chunks (product lead) n rws))
        by (apply chunks_Forall_length; lia).
      assert (H2 : Forall (Forall (fun r => length r = product t))
                          (chunks (product lead) n rws))
        by (by apply chunks_Forall).
      rewrite Forall_forall in H1, H2. apply Forall_forall. intros g Hg.
      apply IH; [by apply H1|by apply H2].
Qed.

Lemma broadcast_shapes_suffix (lead t : list nat) :
  broadcast_shapes (lead ++ t) t = Some (lead ++ t).
Proof.
  unfold broadcast_shapes. rewrite reverse_app.
  assert (H : forall r q, broadcast_reversed (r ++ q) r = Some (r ++ q)).
  { induction r as [|n r IH]; intros q; [by destruct q|].
    cbn. rewrite broadcast_dim_same, IH. done. }
  rewrite H. cbn. by rewrite reverse_app, !reverse_involutive.
Qed.

(** An elementwise operation on a real array of shape [lead ++ [n]] and a
    real vector of length n. *)
Lemma broadcast_rows_vector (f : R -> R -> R) (lead : list nat) (n : nat)
    (rws : list (list R)) (w : list R) :
  rows_of_shape lead n rws -> length w = n ->
  broadcast (num_lift2 f) (of_rows lead n rws) (vec w)
  = Returns (of_rows lead n (map (fun r => zip_with f r w) rws)).
Proof.
  intros [Hl Hr] Hw. unfold broadcast, of_rows, vec, arr. cbn [shape values].
  rewrite Hw, broadcast_shapes_suffix. do 2 f_equal.
  rewrite pad_shape_same. unfold pad_shape. rewrite length_app. cbn [length].
  replace (length lead + 1 - 1) with (length lead) by lia.
  rewrite !map_concat_Some, broadcast_values_leading.
  - rewrite !List.map_map. f_equal. apply map_Forall_eq.
    eapply Forall_impl; [exact Hr|]. cbn beta. intros r Hlen.
    rewrite broadcast_values_same, zip_with_vec
      by (rewrite length_map; cbn [product foldr]; lia).
    done.
  - by rewrite length_map.
  - rewrite Forall_fmap. eapply Forall_impl; [exact Hr|].
    cbn. intros r Hlen. rewrite length_map. cbn. lia.
  - rewrite length_map. cbn. lia.
Qed.

Lemma centre_of_rows (lead : list nat) (n : nat) (rws : list (list R)) :
  rows_of_shape lead n rws -> Forall (fun r => r ≠ []) rws ->
  (xm ← mean_last (of_rows lead n rws) true; sub (of_rows lead n rws) xm)
  = Returns (of_rows lead n (map centre rws)).
Proof.
  intros Hr Hne. cbn [mean_last sub numpy_real].
  rewrite np_mean_rows, bind_Returns by done.
  by rewrite (sub_keepdims_rows lead n rws rmean).
Qed.

Lemma rows_of_shape_vec (w : list R) : rows_of_shape [] (length w) [w].
Proof. apply vec_of_rows. Qed.

(** X13. The covariance and the correlation of every row of x with one vector y:
    for a real array x of shape [lead ++ [n]] and a real vector y of length
    n > 0, numpy broadcasts y against the rows, and the results have the
    shape [lead]. *)
Theorem correlation_gufunc_vector (lead : list nat) (n : nat) (xs ys : list R) :
  0 < n ->
  length xs = product (lead ++ [n]) -> length ys = n ->
  covariance_gufunc (arr (lead ++ [n]) xs) (vec ys)
  = Returns (arr lead (map (fun r => rcov r ys) (row_lists (lead ++ [n]) xs)))
  /\ correlation_gufunc (arr (lead ++ [n]) xs) (vec ys)
     = Returns {| shape := lead;
                  values := map (fun r => num_corr r ys) (row_lists (lead ++ [n]) xs) |}.
Proof.
  intros Hn Hx Hy.
  destruct (arr_as_rows lead n xs Hx) as (r1 & -> & H1 & <-).
  pose proof (rows_of_shape_nonempty lead n r1 Hn H1) as Hne.
  assert (Hys : ys ≠ []) by (intros ->; cbn in Hy; lia).
  assert (Hcy : length (centre ys) = n) by (unfold centre; by rewrite length_map).
  assert (Hprod : rows_of_shape lead n
                    (map (fun r => zip_with Rmult r (centre ys)) (map centre r1))).
  { destruct (rows_of_shape_centre lead n r1 H1) as [Hl Hr].
    split; [by rewrite length_map|].
    rewrite Forall_fmap. eapply Forall_impl; [exact Hr|].
    cbn beta. intros r Hlen. cbn. rewrite length_zip_with. lia. }
  assert (Hcov : covariance_gufunc (of_rows lead n r1) (vec ys)
                 = Returns (arr lead (map (fun r => rcov r ys) r1))).
  { unfold covariance_gufunc.
    rewrite <- (bind_assoc (mean_last (of_rows lead n r1) true)).
    rewrite centre_of_rows, bind_Returns by done.
    rewrite <- (bind_assoc (mean_last (vec ys) true)).
    rewrite (proj1 (vec_of_rows ys)) at 1 2.
    rewrite centre_of_rows, bind_Returns
      by (try apply rows_of_shape_vec; by repeat constructor).
    cbn [map].
    replace (of_rows [] (length ys) [centre ys]) with (vec (centre ys)).
    2:{ unfold vec, of_rows. cbn [concat app]. by rewrite app_nil_r, Hcy, Hy. }
    cbn [mul numpy_real].
    rewrite (broadcast_rows_vector Rmult lead n)
      by (try (apply rows_of_shape_centre; done); done).
    rewrite bind_Returns. cbn [mean_last numpy_real].
    rewrite np_mean_rows; [|done|by eapply rows_of_shape_nonempty].
    do 2 f_equal. rewrite !List.map_map. apply List.map_ext.
    intros r. by rewrite rcov_centre. }
  split; [done|].
  rewrite correlation_gufunc_divisor, Hcov, bind_Returns.
  unfold correlation_divisor. cbn [std_last numpy_real].
  rewrite np_std_rows, bind_Returns by done.
  rewrite (proj1 (vec_of_rows ys)).
  rewrite np_std_rows, bind_Returns by (try apply rows_of_shape_vec; by repeat constructor).
  cbn [map mul numpy_real].
  change (arr [] [rstd ys]) with {| shape := []; values := [Some (rstd ys)] |}.
  rewrite broadcast_scalar, bind_Returns
    by (unfold well_formed, arr; cbn [shape values];
        rewrite !length_map; apply H1).
  cbn [truediv numpy_real]. unfold arr. cbn [shape values].
  rewrite broadcast_same_shape by (rewrite !length_map; apply H1).
  do 2 f_equal. rewrite !List.map_map, zip_with_map_same.
  apply List.map_ext. intros r. done.
Qed.

Lemma correlation_gufunc_vector_witness :
  covariance_gufunc (arr ([2] ++ [2]) [0; 2; 1; 3]%R) (vec [1; 0]%R)
  = Returns (arr [2] (map (fun r => rcov r [1; 0]%R) (row_lists ([2] ++ [2]) [0; 2; 1; 3]%R)))
  /\ correlation_gufunc (arr ([2] ++ [2]) [0; 2; 1; 3]%R) (vec [1; 0]%R)
     = Returns {| shape := [2];
                  values := map (fun r => num_corr r [1; 0]%R)
                                (row_lists ([2] ++ [2]) [0; 2; 1; 3]%R) |}.
Proof.
  apply (correlation_gufunc_vector [2] 2 [0; 2; 1; 3]%R [1; 0]%R); [lia|done|done].
Defined.

(** ** What the dataset of the data-structures notebook holds *)

Lemma data_structures_run_returns (g : rng) :
  data_structures_run g
  = Returns (shown_7 (np_random_random g [2; 3; 6]).1,
             shown_9 (np_random_random g [2; 3; 6]).1
                     (np_random_random (np_random_random g [2; 3; 6]).2 [2; 3; 6]).1).
Proof.
  unfold data_structures_run, np_random_random. cbv zeta. cbn [shape fst snd].
  rewrite xr_DataArray_default, bind_Returns.
  rewrite (xr_DataArray_lat_lon_time _ {["long_name" := "temperature"; "units" := "C"]})
    by reflexivity.
  rewrite bind_Returns.
  cbn [xr_Dataset]. rewrite bind_Returns.
  change (Dataset_setitem empty_Dataset "temperature" ?a)
    with (xr_Dataset (Some ("temperature", a))).
  rewrite created_dataset, bind_Returns.
  rewrite xr_DataArray_lat_lon_time, bind_Returns by reflexivity.
  rewrite inserted_dataset, bind_Returns by reflexivity.
  reflexivity.
Qed.

(** X23. Whatever the generator draws: the dataset holds the first array drawn
    under 'temperature' and, after In [8], the next one under
    'precipitation', each unchanged (the insertion reindexes nothing, no
    value is missing) and named by its key, not by the name it was built
    with; before In [8] looking up 'precipitation' raises KeyError; the
    history attribute is on the dataset after In [8] only. *)
Theorem my_ds_contents (g : rng) :
  exists (myvar noise : nparray) (ds7 ds9 : Dataset),
    data_structures_run g = Returns (ds7, ds9)
    /\ values myvar = map (fun i => Some (draws g (drawn g + i))) (seq 0 36)
    /\ values noise = map (fun i => Some (draws g (drawn g + 36 + i))) (seq 0 36)
    /\ Dataset_getitem ds7 "temperature"
       = Returns {| da_values := myvar; da_dims := ["lat"; "lon"; "time"];
                    da_coords := lat_lon; da_attrs := temperature_attrs;
                    da_name := Some "temperature" |}
    /\ Dataset_getitem ds7 "precipitation" = Raises KeyError
    /\ Dataset_getitem ds9 "temperature" = Dataset_getitem ds7 "temperature"
    /\ Dataset_getitem ds9 "precipitation"
       = Returns {| da_values := noise; da_dims := ["lat"; "lon"; "time"];
                    da_coords := lat_lon; da_attrs := precipitation_attrs;
                    da_name := Some "precipitation" |}
    /\ ds_attrs ds7 = ∅
    /\ ds_attrs ds9 = {["history" := "created for the xarray tutorial"]}.
Proof.
  exists (np_random_random g [2; 3; 6]).1,
         (np_random_random (np_random_random g [2; 3; 6]).2 [2; 3; 6]).1.
  do 2 eexists. split; [apply data_structures_run_returns|].
  set (myvar := (np_random_random g [2; 3; 6]).1).
  set (noise := (np_random_random (np_random_random g [2; 3; 6]).2 [2; 3; 6]).1).
  assert (Hcoords7 :
            filter (fun kv : string * list R => kv.1 ∈ ["lat"; "lon"; "time"])
                   (ds_coords (shown_7 myvar)) = lat_lon) by (by vm_compute).
  assert (Hcoords9 :
            filter (fun kv : string * list R => kv.1 ∈ ["lat"; "lon"; "time"])
                   (ds_coords (shown_9 myvar noise)) = lat_lon) by (by vm_compute).
  assert (H7t : data_vars (shown_7 myvar) !! "temperature"
                = Some {| var_dims := ["lat"; "lon"; "time"];
                          var_values := myvar; var_attrs := temperature_attrs |})
    by (by vm_compute).
  assert (H7p : data_vars (shown_7 myvar) !! "precipitation" = None) by (by vm_compute).
  assert (H9t : data_vars (shown_9 myvar noise) !! "temperature"
                = Some {| var_dims := ["lat"; "lon"; "time"];
                          var_values := myvar; var_attrs := temperature_attrs |})
    by (by vm_compute).
  assert (H9p : data_vars (shown_9 myvar noise) !! "precipitation"
                = Some {| var_dims := ["lat"; "lon"; "time"];
                          var_values := noise; var_attrs := precipitation_attrs |})
    by (by vm_compute).
  split; [reflexivity|]. split; [reflexivity|].
  unfold Dataset_getitem. rewrite H7t, H7p, H9t, H9p.
  cbn [var_values var_dims var_attrs]. rewrite Hcoords7, Hcoords9.
  repeat split; reflexivity.
Qed.

(** ** The functions of the computation notebook are closed *)

(** X24. Besides its parameters and locals, a function of the computation
    notebook reads only an imported module (bottleneck, xr), the function
    defined just before it, or the builtin float.  None reads a variable
    that holds data of the notebook (ds, da, roller, ...), none calls
    itself, and each of the last four builds on the one before: the result
    of a call depends on the arguments and the libraries alone. *)
Theorem authored_functions_are_closed :
  function_reads computation_toolkit_code
  = [("sum_minus_2", []);
     ("covariance_gufunc", []);
     ("correlation_gufunc", ["covariance_gufunc"]);
     ("spearman_correlation_gufunc", ["bottleneck"; "correlation_gufunc"]);
     ("spearman_correlation", ["xr"; "spearman_correlation_gufunc"; "float"])]
  /\ function_reads data_structures_code = [].
Proof. split; vm_compute; reflexivity. Qed.
